(** * Language Learning Buddy: the action handlers over an in-memory store

    A shallow embedding of [src/db/tables.ts] (the three tables) and of the
    action handlers ([createLanguageProfile] ... [listPracticeSessions]),
    followed by the properties proved about them.

    Conventions of the embedding.
    - A [Date] is a number of milliseconds, a [z.number().int()] is a [Z].
    - A value of type [T | undefined] (an optional schema field) and a value
      of type [T | null] (an optional column) are both [option T]; [None] is
      the nullish value.  JavaScript tells [undefined] from [null] in the
      payload of [db.update(..).set(..)], which has its own type [SetValue]
      below, and an absent key from a key that holds [undefined] where
      [upsertVocabularyItem] spreads its input, whose optional fields have
      the type [Optional] below.
    - [new Date()] and [crypto.randomUUID()] are read from an environment
      [Env] that is passed to the handler.
    - A table is the list of its rows in scan order; a [select] without
      [orderBy] returns the matching rows in that order. *)

From Stdlib Require Import List String ZArith Bool Lia.
Import ListNotations.

Local Open Scope string_scope.
Local Open Scope list_scope.

(** ** JavaScript values used by the handlers *)

Definition Date := Z.

(** [a ?? b] where [b] may itself be null. *)
Definition nullish {A : Type} (a b : option A) : option A :=
  match a with
  | Some v => Some v
  | None => b
  end.

(** [a ?? b] where [b] is a value. *)
Definition nullish_or {A : Type} (a : option A) (b : A) : A :=
  match a with
  | Some v => v
  | None => b
  end.

(** An optional field of a parsed input whose key matters: [z.object]
    leaves out the key of an optional field that was not sent, and keeps a
    key that was sent with the value [undefined].  Reading the field gives
    [undefined] in both cases; spreading the input does not. *)
Inductive Optional (A : Type) : Type :=
| Omitted
| PresentUndefined
| Present (a : A).
Arguments Omitted {A}.
Arguments PresentUndefined {A}.
Arguments Present {A} a.

(** [input.field] *)
Definition value_of {A : Type} (field : Optional A) : option A :=
  match field with
  | Omitted => None
  | PresentUndefined => None
  | Present a => Some a
  end.

Coercion value_of : Optional >-> option.

(** The field of [{ ...existing, ...input }]: a key of the input, also one
    that holds [undefined], replaces the one of [existing]. *)
Definition spread {A : Type} (existing : option A) (field : Optional A) : option A :=
  match field with
  | Omitted => existing
  | PresentUndefined => None
  | Present a => Some a
  end.

(** Truthiness of a [string | undefined]: the empty string is falsy. *)
Definition truthy (s : option string) : bool :=
  match s with
  | Some v => negb (v =? "")
  | None => false
  end.

(** One entry of the object given to [.set(..)].  The query builder behind
    [astro:db] (Drizzle) drops the keys whose value is [undefined] before it
    builds the SET clause, so such a column is left as it is; [null] is
    written as NULL. *)
Inductive SetValue (A : Type) : Type :=
| Undefined
| Value (a : A).
Arguments Undefined {A}.
Arguments Value {A} a.

Definition assign {A : Type} (s : SetValue A) (old : A) : A :=
  match s with
  | Undefined => old
  | Value a => a
  end.

(** [{ col: input.field }] for an optional column and an optional field. *)
Definition of_optional {A : Type} (field : option A) : SetValue (option A) :=
  match field with
  | Some v => Value (Some v)
  | None => Undefined
  end.

(** ** The tables of [src/db/tables.ts] *)

Module LanguageProfiles.
Record row : Type := mk {
  id : string;
  userId : string;
  targetLanguage : string;
  nativeLanguage : option string;
  proficiencyLevel : option string;
  goals : option string;
  isActive : bool;
  createdAt : Date;
  updatedAt : Date
}.

Record payload : Type := values {
  set_targetLanguage : SetValue string;
  set_nativeLanguage : SetValue (option string);
  set_proficiencyLevel : SetValue (option string);
  set_goals : SetValue (option string);
  set_isActive : SetValue bool;
  set_updatedAt : SetValue Date
}.

Definition apply (s : payload) (r : row) : row :=
  {| id := id r;
     userId := userId r;
     targetLanguage := assign (set_targetLanguage s) (targetLanguage r);
     nativeLanguage := assign (set_nativeLanguage s) (nativeLanguage r);
     proficiencyLevel := assign (set_proficiencyLevel s) (proficiencyLevel r);
     goals := assign (set_goals s) (goals r);
     isActive := assign (set_isActive s) (isActive r);
     createdAt := createdAt r;
     updatedAt := assign (set_updatedAt s) (updatedAt r) |}.
End LanguageProfiles.

Module VocabularyItems.
Record row : Type := mk {
  id : string;
  languageProfileId : string;
  userId : string;
  term : string;
  translation : option string;
  partOfSpeech : option string;
  exampleSentence : option string;
  exampleTranslation : option string;
  difficulty : option string;
  tags : option string;
  lastReviewedAt : option Date;
  nextReviewAt : option Date;
  successStreak : option Z;
  totalReviews : option Z;
  createdAt : Date;
  updatedAt : Date
}.

Record payload : Type := values {
  set_languageProfileId : SetValue string;
  set_term : SetValue string;
  set_translation : SetValue (option string);
  set_partOfSpeech : SetValue (option string);
  set_exampleSentence : SetValue (option string);
  set_exampleTranslation : SetValue (option string);
  set_difficulty : SetValue (option string);
  set_tags : SetValue (option string);
  set_lastReviewedAt : SetValue (option Date);
  set_nextReviewAt : SetValue (option Date);
  set_successStreak : SetValue (option Z);
  set_totalReviews : SetValue (option Z);
  set_updatedAt : SetValue Date
}.

Definition apply (s : payload) (r : row) : row :=
  {| id := id r;
     languageProfileId := assign (set_languageProfileId s) (languageProfileId r);
     userId := userId r;
     term := assign (set_term s) (term r);
     translation := assign (set_translation s) (translation r);
     partOfSpeech := assign (set_partOfSpeech s) (partOfSpeech r);
     exampleSentence := assign (set_exampleSentence s) (exampleSentence r);
     exampleTranslation := assign (set_exampleTranslation s) (exampleTranslation r);
     difficulty := assign (set_difficulty s) (difficulty r);
     tags := assign (set_tags s) (tags r);
     lastReviewedAt := assign (set_lastReviewedAt s) (lastReviewedAt r);
     nextReviewAt := assign (set_nextReviewAt s) (nextReviewAt r);
     successStreak := assign (set_successStreak s) (successStreak r);
     totalReviews := assign (set_totalReviews s) (totalReviews r);
     createdAt := createdAt r;
     updatedAt := assign (set_updatedAt s) (updatedAt r) |}.
End VocabularyItems.

Module PracticeSessions.
Record row : Type := mk {
  id : string;
  languageProfileId : string;
  userId : string;
  mode : option string;
  startedAt : Date;
  endedAt : option Date;
  totalQuestions : option Z;
  correctAnswers : option Z;
  notes : option string;
  createdAt : Date
}.

Record payload : Type := values {
  set_totalQuestions : SetValue (option Z);
  set_correctAnswers : SetValue (option Z);
  set_notes : SetValue (option string);
  set_endedAt : SetValue (option Date)
}.

Definition apply (s : payload) (r : row) : row :=
  {| id := id r;
     languageProfileId := languageProfileId r;
     userId := userId r;
     mode := mode r;
     startedAt := startedAt r;
     endedAt := assign (set_endedAt s) (endedAt r);
     totalQuestions := assign (set_totalQuestions s) (totalQuestions r);
     correctAnswers := assign (set_correctAnswers s) (correctAnswers r);
     notes := assign (set_notes s) (notes r);
     createdAt := createdAt r |}.
End PracticeSessions.

(** The stored state: the rows of the three tables. *)
Record DB : Type := mkDB {
  profiles : list LanguageProfiles.row;
  items : list VocabularyItems.row;
  sessions : list PracticeSessions.row
}.

Definition empty_db : DB := {| profiles := []; items := []; sessions := [] |}.

(** ** The query layer ([astro:db])

    Only what the handlers call: [select .. where], [update .. set .. where],
    [delete .. where] with its [rowsAffected], [insert .. values] into a
    table with a text primary key, and [limit]/[offset]. *)

Section Query.
Context {R : Type}.

Definition select_where (cond : R -> bool) (t : list R) : list R :=
  filter cond t.

Definition update_where (f : R -> R) (cond : R -> bool) (t : list R) : list R :=
  map (fun r => if cond r then f r else r) t.

Definition delete_where (cond : R -> bool) (t : list R) : list R :=
  filter (fun r => negb (cond r)) t.

Definition rowsAffected (cond : R -> bool) (t : list R) : nat :=
  List.length (filter cond t).

Definition limit_offset (limit offset : Z) (rows : list R) : list R :=
  firstn (Z.to_nat limit) (skipn (Z.to_nat offset) rows).

(** The primary key is unique: inserting a key that is present is refused
    by the store. *)
Definition has_key (key : R -> string) (k : string) (t : list R) : bool :=
  existsb (fun r => key r =? k) t.

Definition insert_row (key : R -> string) (r : R) (t : list R) : option (list R) :=
  if has_key key (key r) t then None else Some (t ++ [r]).
End Query.

(** ** Handlers as state transformers that may throw *)

Inductive ActionErrorCode : Type := UNAUTHORIZED | NOT_FOUND.

(** [StoreFault] is an exception raised by the store itself (an insert
    whose primary key is taken); no handler catches it. *)
Inductive Outcome (A : Type) : Type :=
| Return (a : A)
| Throw (code : ActionErrorCode)
| StoreFault.
Arguments Return {A} a.
Arguments Throw {A} code.
Arguments StoreFault {A}.

(** There is no transaction around a handler: what was written before a
    throw stays written, so the state is threaded through failures too. *)
Definition Action (A : Type) : Type := DB -> Outcome A * DB.

Definition ret {A : Type} (a : A) : Action A := fun db => (Return a, db).

Definition throw {A : Type} (code : ActionErrorCode) : Action A :=
  fun db => (Throw code, db).

Definition bind {A B : Type} (m : Action A) (k : A -> Action B) : Action B :=
  fun db =>
    match m db with
    | (Return a, db') => k a db'
    | (Throw code, db') => (Throw code, db')
    | (StoreFault, db') => (StoreFault, db')
    end.

Declare Scope action_scope.
Delimit Scope action_scope with action.
Notation "x <- m ;; k" := (bind m (fun x => k))
  (at level 100, m at next level, right associativity) : action_scope.
Notation "m ;;; k" := (bind m (fun _ => k))
  (at level 100, right associativity) : action_scope.

Definition read {A : Type} (f : DB -> A) : Action A := fun db => (Return (f db), db).

Definition write (f : DB -> DB) : Action unit := fun db => (Return tt, f db).

Definition with_profiles (t : list LanguageProfiles.row) (db : DB) : DB :=
  {| profiles := t; items := items db; sessions := sessions db |}.

Definition with_items (t : list VocabularyItems.row) (db : DB) : DB :=
  {| profiles := profiles db; items := t; sessions := sessions db |}.

Definition with_sessions (t : list PracticeSessions.row) (db : DB) : DB :=
  {| profiles := profiles db; items := items db; sessions := t |}.

(** [await db.insert(T).values(r)] *)
Definition insert_into {R : Type} (rows : DB -> list R) (put : list R -> DB -> DB)
    (key : R -> string) (r : R) : Action unit :=
  fun db =>
    match insert_row key r (rows db) with
    | Some t => (Return tt, put t db)
    | None => (StoreFault, db)
    end.

(** ** The request context *)

Record User : Type := { user_id : string }.

Record Context : Type := { locals_user : option User }.

Record Env : Type := {
  now : Date;          (* new Date() *)
  randomUUID : string  (* crypto.randomUUID() *)
}.

Definition requireUser (context : Context) : Action User :=
  match locals_user context with
  | None => throw UNAUTHORIZED
  | Some user => ret user
  end.

(** [z.string().min(1)] *)
Definition min1 (s : string) : bool := (1 <=? String.length s)%nat.

Local Open Scope action_scope.

(** ** The actions of [server]

    One module per [defineAction]: [input] is the parsed input (after the
    schema's defaults), [schema] the constraints [z] checks on it before the
    handler runs, [handler] the handler. *)

Module createLanguageProfile.
Record input : Type := {
  targetLanguage : string;
  nativeLanguage : option string;
  proficiencyLevel : option string;
  goals : option string
}.

Definition schema (i : input) : bool := min1 (targetLanguage i).

Definition handler (i : input) (context : Context) (env : Env)
  : Action LanguageProfiles.row :=
  user <- requireUser context ;;
  let now := now env in
  let id := randomUUID env in
  let profile :=
    {| LanguageProfiles.id := id;
       LanguageProfiles.userId := user_id user;
       LanguageProfiles.targetLanguage := targetLanguage i;
       LanguageProfiles.nativeLanguage := nativeLanguage i;
       LanguageProfiles.proficiencyLevel := proficiencyLevel i;
       LanguageProfiles.goals := goals i;
       LanguageProfiles.isActive := true;
       LanguageProfiles.createdAt := now;
       LanguageProfiles.updatedAt := now |} in
  insert_into profiles with_profiles LanguageProfiles.id profile ;;;
  ret profile.
End createLanguageProfile.

Module updateLanguageProfile.
Record input : Type := {
  id : string;
  targetLanguage : option string;
  nativeLanguage : option string;
  proficiencyLevel : option string;
  goals : option string;
  isActive : option bool
}.

Definition schema (i : input) : bool := min1 (id i).

(** [and(eq(LanguageProfiles.id, input.id), eq(LanguageProfiles.userId, user.id))] *)
Definition where_ (i : input) (user : User) (r : LanguageProfiles.row) : bool :=
  (LanguageProfiles.id r =? id i) && (LanguageProfiles.userId r =? user_id user).

Definition payload (i : input) (existing : LanguageProfiles.row) (updatedAt : Date)
  : LanguageProfiles.payload :=
  {| LanguageProfiles.set_targetLanguage :=
       Value (nullish_or (targetLanguage i) (LanguageProfiles.targetLanguage existing));
     LanguageProfiles.set_nativeLanguage :=
       Value (nullish (nativeLanguage i) (LanguageProfiles.nativeLanguage existing));
     LanguageProfiles.set_proficiencyLevel :=
       Value (nullish (proficiencyLevel i) (LanguageProfiles.proficiencyLevel existing));
     LanguageProfiles.set_goals :=
       Value (nullish (goals i) (LanguageProfiles.goals existing));
     LanguageProfiles.set_isActive :=
       Value (nullish_or (isActive i) (LanguageProfiles.isActive existing));
     LanguageProfiles.set_updatedAt := Value updatedAt |}.

(** [{ ...existing, ...input, targetLanguage: .., .., updatedAt }]: [id]
    comes from the input, [userId] and [createdAt] from [existing]. *)
Definition returned (i : input) (existing : LanguageProfiles.row) (updatedAt : Date)
  : LanguageProfiles.row :=
  {| LanguageProfiles.id := id i;
     LanguageProfiles.userId := LanguageProfiles.userId existing;
     LanguageProfiles.targetLanguage :=
       nullish_or (targetLanguage i) (LanguageProfiles.targetLanguage existing);
     LanguageProfiles.nativeLanguage :=
       nullish (nativeLanguage i) (LanguageProfiles.nativeLanguage existing);
     LanguageProfiles.proficiencyLevel :=
       nullish (proficiencyLevel i) (LanguageProfiles.proficiencyLevel existing);
     LanguageProfiles.goals := nullish (goals i) (LanguageProfiles.goals existing);
     LanguageProfiles.isActive :=
       nullish_or (isActive i) (LanguageProfiles.isActive existing);
     LanguageProfiles.createdAt := LanguageProfiles.createdAt existing;
     LanguageProfiles.updatedAt := updatedAt |}.

Definition handler (i : input) (context : Context) (env : Env)
  : Action LanguageProfiles.row :=
  user <- requireUser context ;;
  rows <- read (fun db => select_where (where_ i user) (profiles db)) ;;
  match rows with
  | [] => throw NOT_FOUND
  | existing :: _ =>
      let updatedAt := now env in
      write (fun db =>
        with_profiles
          (update_where (LanguageProfiles.apply (payload i existing updatedAt))
             (where_ i user) (profiles db)) db) ;;;
      ret (returned i existing updatedAt)
  end.
End updateLanguageProfile.

Module listMyLanguageProfiles.
Record input : Type := { includeInactive : bool }.

Record data : Type := {
  items : list LanguageProfiles.row;
  total : nat
}.

Definition where_ (i : input) (user : User) (r : LanguageProfiles.row) : bool :=
  if includeInactive i
  then LanguageProfiles.userId r =? user_id user
  else (LanguageProfiles.userId r =? user_id user)
       && Bool.eqb (LanguageProfiles.isActive r) true.

Definition handler (i : input) (context : Context) (env : Env) : Action data :=
  user <- requireUser context ;;
  profiles <- read (fun db => select_where (where_ i user) (profiles db)) ;;
  ret {| items := profiles; total := List.length profiles |}.
End listMyLanguageProfiles.

Module upsertVocabularyItem.
Record input : Type := {
  id : option string;
  languageProfileId : string;
  term : string;
  translation : Optional string;
  partOfSpeech : Optional string;
  exampleSentence : Optional string;
  exampleTranslation : Optional string;
  difficulty : Optional string;
  tags : Optional string;
  lastReviewedAt : Optional Date;
  nextReviewAt : Optional Date;
  successStreak : Optional Z;
  totalReviews : Optional Z
}.

Definition schema (i : input) : bool :=
  min1 (languageProfileId i) && min1 (term i).

(** [and(eq(LanguageProfiles.id, input.languageProfileId),
         eq(LanguageProfiles.userId, user.id))] *)
Definition where_profile (i : input) (user : User) (r : LanguageProfiles.row) : bool :=
  (LanguageProfiles.id r =? languageProfileId i)
  && (LanguageProfiles.userId r =? user_id user).

(** [and(eq(VocabularyItems.id, input.id), eq(VocabularyItems.userId, user.id))],
    evaluated where [input.id] is a string. *)
Definition where_ (i : input) (user : User) (r : VocabularyItems.row) : bool :=
  match id i with
  | Some v => (VocabularyItems.id r =? v) && (VocabularyItems.userId r =? user_id user)
  | None => false
  end.

Definition payload (i : input) (now : Date) : VocabularyItems.payload :=
  {| VocabularyItems.set_languageProfileId := Value (languageProfileId i);
     VocabularyItems.set_term := Value (term i);
     VocabularyItems.set_translation := of_optional (translation i);
     VocabularyItems.set_partOfSpeech := of_optional (partOfSpeech i);
     VocabularyItems.set_exampleSentence := of_optional (exampleSentence i);
     VocabularyItems.set_exampleTranslation := of_optional (exampleTranslation i);
     VocabularyItems.set_difficulty := of_optional (difficulty i);
     VocabularyItems.set_tags := of_optional (tags i);
     VocabularyItems.set_lastReviewedAt := of_optional (lastReviewedAt i);
     VocabularyItems.set_nextReviewAt := of_optional (nextReviewAt i);
     VocabularyItems.set_successStreak := of_optional (successStreak i);
     VocabularyItems.set_totalReviews := of_optional (totalReviews i);
     VocabularyItems.set_updatedAt := Value now |}.

(** [{ ...existing, ...input, updatedAt: now, userId: user.id }]: an optional
    field that was omitted has no key in the parsed input and keeps the value
    spread from [existing]; a key that holds [undefined] replaces it. *)
Definition returned (i : input) (user : User) (existing : VocabularyItems.row)
    (now : Date) : VocabularyItems.row :=
  {| VocabularyItems.id := nullish_or (id i) (VocabularyItems.id existing);
     VocabularyItems.languageProfileId := languageProfileId i;
     VocabularyItems.userId := user_id user;
     VocabularyItems.term := term i;
     VocabularyItems.translation :=
       spread (VocabularyItems.translation existing) (translation i);
     VocabularyItems.partOfSpeech :=
       spread (VocabularyItems.partOfSpeech existing) (partOfSpeech i);
     VocabularyItems.exampleSentence :=
       spread (VocabularyItems.exampleSentence existing) (exampleSentence i);
     VocabularyItems.exampleTranslation :=
       spread (VocabularyItems.exampleTranslation existing) (exampleTranslation i);
     VocabularyItems.difficulty :=
       spread (VocabularyItems.difficulty existing) (difficulty i);
     VocabularyItems.tags := spread (VocabularyItems.tags existing) (tags i);
     VocabularyItems.lastReviewedAt :=
       spread (VocabularyItems.lastReviewedAt existing) (lastReviewedAt i);
     VocabularyItems.nextReviewAt :=
       spread (VocabularyItems.nextReviewAt existing) (nextReviewAt i);
     VocabularyItems.successStreak :=
       spread (VocabularyItems.successStreak existing) (successStreak i);
     VocabularyItems.totalReviews :=
       spread (VocabularyItems.totalReviews existing) (totalReviews i);
     VocabularyItems.createdAt := VocabularyItems.createdAt existing;
     VocabularyItems.updatedAt := now |}.

(** The row given to [insert(..).values(..)], which is also the item
    returned on that path. *)
Definition inserted (i : input) (user : User) (id : string) (now : Date)
  : VocabularyItems.row :=
  {| VocabularyItems.id := id;
     VocabularyItems.languageProfileId := languageProfileId i;
     VocabularyItems.userId := user_id user;
     VocabularyItems.term := term i;
     VocabularyItems.translation := translation i;
     VocabularyItems.partOfSpeech := partOfSpeech i;
     VocabularyItems.exampleSentence := exampleSentence i;
     VocabularyItems.exampleTranslation := exampleTranslation i;
     VocabularyItems.difficulty := difficulty i;
     VocabularyItems.tags := tags i;
     VocabularyItems.lastReviewedAt := lastReviewedAt i;
     VocabularyItems.nextReviewAt := nextReviewAt i;
     VocabularyItems.successStreak := successStreak i;
     VocabularyItems.totalReviews := totalReviews i;
     VocabularyItems.createdAt := now;
     VocabularyItems.updatedAt := now |}.

Definition handler (i : input) (context : Context) (env : Env)
  : Action VocabularyItems.row :=
  user <- requireUser context ;;
  found <- read (fun db => select_where (where_profile i user) (profiles db)) ;;
  match found with
  | [] => throw NOT_FOUND
  | profile :: _ =>
      let now := now env in
      if truthy (id i) then
        rows <- read (fun db => select_where (where_ i user) (items db)) ;;
        match rows with
        | [] => throw NOT_FOUND
        | existing :: _ =>
            write (fun db =>
              with_items
                (update_where (VocabularyItems.apply (payload i now))
                   (where_ i user) (items db)) db) ;;;
            ret (returned i user existing now)
        end
      else
        let id := randomUUID env in
        insert_into items with_items VocabularyItems.id (inserted i user id now) ;;;
        ret (inserted i user id now)
  end.
End upsertVocabularyItem.

Module deleteVocabularyItem.
Record input : Type := { id : string }.

Definition schema (i : input) : bool := min1 (id i).

Definition where_ (i : input) (user : User) (r : VocabularyItems.row) : bool :=
  (VocabularyItems.id r =? id i) && (VocabularyItems.userId r =? user_id user).

(** [await db.delete(VocabularyItems).where(..)], returning [rowsAffected]. *)
Definition delete_items (cond : VocabularyItems.row -> bool) : Action nat :=
  fun db =>
    (Return (rowsAffected cond (items db)),
     with_items (delete_where cond (items db)) db).

(** The returned [unit] is [{ success: true }]. *)
Definition handler (i : input) (context : Context) (env : Env) : Action unit :=
  user <- requireUser context ;;
  result <- delete_items (where_ i user) ;;
  if (result =? 0)%nat then throw NOT_FOUND else ret tt.
End deleteVocabularyItem.

(** The input and the data of the two paginated lists.  [page] and
    [pageSize] are [z.number().int().positive()]. *)
Record page_input : Type := {
  languageProfileId : string;
  page : positive;
  pageSize : positive
}.

Record raw_page_input : Type := {
  raw_languageProfileId : string;
  raw_page : option positive;
  raw_pageSize : option positive
}.

(** [.default(1)] and [.default(20)] *)
Definition page_defaults (r : raw_page_input) : page_input :=
  {| languageProfileId := raw_languageProfileId r;
     page := nullish_or (raw_page r) 1%positive;
     pageSize := nullish_or (raw_pageSize r) 20%positive |}.

Definition page_schema (i : page_input) : bool :=
  min1 (languageProfileId i) && (Z.pos (pageSize i) <=? 100)%Z.

Record page_data (R : Type) : Type := {
  page_items : list R;
  page_total : nat;
  page_page : positive;
  page_pageSize : positive
}.
Arguments page_items {R} p.
Arguments page_total {R} p.
Arguments page_page {R} p.
Arguments page_pageSize {R} p.

(** [(input.page - 1) * input.pageSize]; the product is exact in
    JavaScript up to 2^53, far beyond the number of rows of a table. *)
Definition page_offset (i : page_input) : Z :=
  ((Z.pos (page i) - 1) * Z.pos (pageSize i))%Z.

Module listVocabularyItems.
Definition where_ (i : page_input) (user : User) (r : VocabularyItems.row) : bool :=
  (VocabularyItems.languageProfileId r =? languageProfileId i)
  && (VocabularyItems.userId r =? user_id user).

Definition handler (i : page_input) (context : Context) (env : Env)
  : Action (page_data VocabularyItems.row) :=
  user <- requireUser context ;;
  let offset := page_offset i in
  items <- read (fun db =>
    limit_offset (Z.pos (pageSize i)) offset
      (select_where (where_ i user) (items db))) ;;
  ret {| page_items := items;
         page_total := List.length items;
         page_page := page i;
         page_pageSize := pageSize i |}.
End listVocabularyItems.

Module startPracticeSession.
Record input : Type := {
  languageProfileId : string;
  mode : option string;
  totalQuestions : option Z;
  notes : option string
}.

Definition schema (i : input) : bool := min1 (languageProfileId i).

Definition where_profile (i : input) (user : User) (r : LanguageProfiles.row) : bool :=
  (LanguageProfiles.id r =? languageProfileId i)
  && (LanguageProfiles.userId r =? user_id user).

(** The row inserted, which is also the session returned. *)
Definition session (i : input) (user : User) (id : string) (startedAt : Date)
  : PracticeSessions.row :=
  {| PracticeSessions.id := id;
     PracticeSessions.languageProfileId := languageProfileId i;
     PracticeSessions.userId := user_id user;
     PracticeSessions.mode := mode i;
     PracticeSessions.startedAt := startedAt;
     PracticeSessions.endedAt := None;
     PracticeSessions.totalQuestions := totalQuestions i;
     PracticeSessions.correctAnswers := None;
     PracticeSessions.notes := notes i;
     PracticeSessions.createdAt := startedAt |}.

Definition handler (i : input) (context : Context) (env : Env)
  : Action PracticeSessions.row :=
  user <- requireUser context ;;
  found <- read (fun db => select_where (where_profile i user) (profiles db)) ;;
  match found with
  | [] => throw NOT_FOUND
  | profile :: _ =>
      let id := randomUUID env in
      let startedAt := now env in
      insert_into sessions with_sessions PracticeSessions.id
        (session i user id startedAt) ;;;
      ret (session i user id startedAt)
  end.
End startPracticeSession.

Module completePracticeSession.
Record input : Type := {
  id : string;
  totalQuestions : option Z;
  correctAnswers : option Z;
  notes : option string;
  endedAt : option Date
}.

Definition schema (i : input) : bool := min1 (id i).

Definition where_ (i : input) (user : User) (r : PracticeSessions.row) : bool :=
  (PracticeSessions.id r =? id i) && (PracticeSessions.userId r =? user_id user).

Definition payload (i : input) (session : PracticeSessions.row) (endedAt : Date)
  : PracticeSessions.payload :=
  {| PracticeSessions.set_totalQuestions :=
       Value (nullish (totalQuestions i) (PracticeSessions.totalQuestions session));
     PracticeSessions.set_correctAnswers :=
       Value (nullish (correctAnswers i) (PracticeSessions.correctAnswers session));
     PracticeSessions.set_notes :=
       Value (nullish (notes i) (PracticeSessions.notes session));
     PracticeSessions.set_endedAt := Value (Some endedAt) |}.

(** [{ ...session, totalQuestions: .., correctAnswers: .., notes: .., endedAt }] *)
Definition returned (i : input) (session : PracticeSessions.row) (endedAt : Date)
  : PracticeSessions.row :=
  {| PracticeSessions.id := PracticeSessions.id session;
     PracticeSessions.languageProfileId := PracticeSessions.languageProfileId session;
     PracticeSessions.userId := PracticeSessions.userId session;
     PracticeSessions.mode := PracticeSessions.mode session;
     PracticeSessions.startedAt := PracticeSessions.startedAt session;
     PracticeSessions.endedAt := Some endedAt;
     PracticeSessions.totalQuestions :=
       nullish (totalQuestions i) (PracticeSessions.totalQuestions session);
     PracticeSessions.correctAnswers :=
       nullish (correctAnswers i) (PracticeSessions.correctAnswers session);
     PracticeSessions.notes := nullish (notes i) (PracticeSessions.notes session);
     PracticeSessions.createdAt := PracticeSessions.createdAt session |}.

Definition handler (i : input) (context : Context) (env : Env)
  : Action PracticeSessions.row :=
  user <- requireUser context ;;
  rows <- read (fun db => select_where (where_ i user) (sessions db)) ;;
  match rows with
  | [] => throw NOT_FOUND
  | session :: _ =>
      let endedAt := nullish_or (endedAt i) (now env) in
      write (fun db =>
        with_sessions
          (update_where (PracticeSessions.apply (payload i session endedAt))
             (where_ i user) (sessions db)) db) ;;;
      ret (returned i session endedAt)
  end.
End completePracticeSession.

Module listPracticeSessions.
Definition where_ (i : page_input) (user : User) (r : PracticeSessions.row) : bool :=
  (PracticeSessions.languageProfileId r =? languageProfileId i)
  && (PracticeSessions.userId r =? user_id user).

Definition handler (i : page_input) (context : Context) (env : Env)
  : Action (page_data PracticeSessions.row) :=
  user <- requireUser context ;;
  let offset := page_offset i in
  sessions <- read (fun db =>
    limit_offset (Z.pos (pageSize i)) offset
      (select_where (where_ i user) (sessions db))) ;;
  ret {| page_items := sessions;
         page_total := List.length sessions;
         page_page := page i;
         page_pageSize := pageSize i |}.
End listPracticeSessions.

(** ** One entry point for all the actions *)

Inductive Request : Type :=
| CreateLanguageProfile (i : createLanguageProfile.input)
| UpdateLanguageProfile (i : updateLanguageProfile.input)
| ListMyLanguageProfiles (i : listMyLanguageProfiles.input)
| UpsertVocabularyItem (i : upsertVocabularyItem.input)
| DeleteVocabularyItem (i : deleteVocabularyItem.input)
| ListVocabularyItems (i : page_input)
| StartPracticeSession (i : startPracticeSession.input)
| CompletePracticeSession (i : completePracticeSession.input)
| ListPracticeSessions (i : page_input).

(** The [data] of a successful response. *)
Inductive Data : Type :=
| profile_data (profile : LanguageProfiles.row)
| profiles_data (d : listMyLanguageProfiles.data)
| item_data (item : VocabularyItems.row)
| success_only
| items_data (d : page_data VocabularyItems.row)
| session_data (session : PracticeSessions.row)
| sessions_data (d : page_data PracticeSessions.row).

Definition respond {A : Type} (wrap : A -> Data) (m : Action A) : Action Data :=
  bind m (fun a => ret (wrap a)).

Definition server (req : Request) (context : Context) (env : Env) : Action Data :=
  match req with
  | CreateLanguageProfile i =>
      respond profile_data (createLanguageProfile.handler i context env)
  | UpdateLanguageProfile i =>
      respond profile_data (updateLanguageProfile.handler i context env)
  | ListMyLanguageProfiles i =>
      respond profiles_data (listMyLanguageProfiles.handler i context env)
  | UpsertVocabularyItem i =>
      respond item_data (upsertVocabularyItem.handler i context env)
  | DeleteVocabularyItem i =>
      respond (fun _ => success_only) (deleteVocabularyItem.handler i context env)
  | ListVocabularyItems i =>
      respond items_data (listVocabularyItems.handler i context env)
  | StartPracticeSession i =>
      respond session_data (startPracticeSession.handler i context env)
  | CompletePracticeSession i =>
      respond session_data (completePracticeSession.handler i context env)
  | ListPracticeSessions i =>
      respond sessions_data (listPracticeSessions.handler i context env)
  end.

Definition signed_in (user : User) : Context := {| locals_user := Some user |}.

(** ** Stored-state invariants *)

(** [primaryKey: true] on the three [id] columns. *)
Definition primary_keys (db : DB) : Prop :=
  NoDup (map LanguageProfiles.id (profiles db))
  /\ NoDup (map VocabularyItems.id (items db))
  /\ NoDup (map PracticeSessions.id (sessions db)).

(** There is a profile [k] and it belongs to [u]. *)
Definition refers (ps : list LanguageProfiles.row) (k u : string) : Prop :=
  exists p, In p ps /\ LanguageProfiles.id p = k /\ LanguageProfiles.userId p = u.

(** Every item and every session points at a profile of its own owner. *)
Definition owner_refs (db : DB) : Prop :=
  (forall v, In v (items db) ->
     refers (profiles db) (VocabularyItems.languageProfileId v) (VocabularyItems.userId v))
  /\ (forall s, In s (sessions db) ->
     refers (profiles db) (PracticeSessions.languageProfileId s)
       (PracticeSessions.userId s)).

Definition wf (db : DB) : Prop := primary_keys db /\ owner_refs db.

(** The identifier drawn by [crypto.randomUUID()] is not in use. *)
Definition fresh_uuid (env : Env) (db : DB) : Prop :=
  ~ In (randomUUID env) (map LanguageProfiles.id (profiles db))
  /\ ~ In (randomUUID env) (map VocabularyItems.id (items db))
  /\ ~ In (randomUUID env) (map PracticeSessions.id (sessions db)).

(** Lookup by primary key. *)
Definition profile_by_id (k : string) (db : DB) : option LanguageProfiles.row :=
  find (fun r => LanguageProfiles.id r =? k) (profiles db).

Definition item_by_id (k : string) (db : DB) : option VocabularyItems.row :=
  find (fun r => VocabularyItems.id r =? k) (items db).

Definition session_by_id (k : string) (db : DB) : option PracticeSessions.row :=
  find (fun r => PracticeSessions.id r =? k) (sessions db).

(** ** What one identity owns, and what it does not *)

Definition owned {R : Type} (owner : R -> string) (u : string) (t : list R) : list R :=
  filter (fun r => owner r =? u) t.

Definition foreign {R : Type} (owner : R -> string) (u : string) (t : list R) : list R :=
  filter (fun r => negb (owner r =? u)) t.

Definition view (u : string) (db : DB) : DB :=
  {| profiles := owned LanguageProfiles.userId u (profiles db);
     items := owned VocabularyItems.userId u (items db);
     sessions := owned PracticeSessions.userId u (sessions db) |}.

Definition others (u : string) (db : DB) : DB :=
  {| profiles := foreign LanguageProfiles.userId u (profiles db);
     items := foreign VocabularyItems.userId u (items db);
     sessions := foreign PracticeSessions.userId u (sessions db) |}.

(** A [where] condition that only rows of [u] satisfy. *)
Definition scoped {R : Type} (owner : R -> string) (u : string) (c : R -> bool) : Prop :=
  forall r, c r = true -> owner r = u.

(** Every row carried by a response belongs to [u]. *)
Definition data_owned (u : string) (d : Data) : Prop :=
  match d with
  | profile_data p => LanguageProfiles.userId p = u
  | profiles_data d =>
      Forall (fun p => LanguageProfiles.userId p = u) (listMyLanguageProfiles.items d)
  | item_data v => VocabularyItems.userId v = u
  | success_only => True
  | items_data d => Forall (fun v => VocabularyItems.userId v = u) (page_items d)
  | session_data s => PracticeSessions.userId s = u
  | sessions_data d => Forall (fun s => PracticeSessions.userId s = u) (page_items d)
  end.

(** The request names, by primary key, a row that another identity owns:
    the profile to update, the profile to attach an item or a session to,
    the item to overwrite or delete, the session to complete. *)
Definition profile_of_other (u k : string) (db : DB) : Prop :=
  exists p, In p (profiles db)
    /\ LanguageProfiles.id p = k /\ LanguageProfiles.userId p <> u.

Definition item_of_other (u k : string) (db : DB) : Prop :=
  exists v, In v (items db)
    /\ VocabularyItems.id v = k /\ VocabularyItems.userId v <> u.

Definition session_of_other (u k : string) (db : DB) : Prop :=
  exists s, In s (sessions db)
    /\ PracticeSessions.id s = k /\ PracticeSessions.userId s <> u.

Definition targets_other (u : string) (req : Request) (db : DB) : Prop :=
  match req with
  | UpdateLanguageProfile i => profile_of_other u (updateLanguageProfile.id i) db
  | UpsertVocabularyItem i =>
      profile_of_other u (upsertVocabularyItem.languageProfileId i) db
      \/ (exists k, upsertVocabularyItem.id i = Some k /\ k <> ""
            /\ item_of_other u k db)
  | DeleteVocabularyItem i => item_of_other u (deleteVocabularyItem.id i) db
  | StartPracticeSession i =>
      profile_of_other u (startPracticeSession.languageProfileId i) db
  | CompletePracticeSession i => session_of_other u (completePracticeSession.id i) db
  | _ => False
  end.

(** The empty page answered to a list request. *)
Definition empty_page (req : Request) : option Data :=
  match req with
  | ListVocabularyItems i =>
      Some (items_data {| page_items := []; page_total := 0;
                          page_page := page i; page_pageSize := pageSize i |})
  | ListPracticeSessions i =>
      Some (sessions_data {| page_items := []; page_total := 0;
                             page_page := page i; page_pageSize := pageSize i |})
  | _ => None
  end.

Definition lists_other (u : string) (req : Request) (db : DB) : Prop :=
  match req with
  | ListVocabularyItems i | ListPracticeSessions i =>
      profile_of_other u (languageProfileId i) db
  | _ => False
  end.

(** ** The update policies and two claims, in the words of the specification *)

(** "any field omitted from the input retains the pre-update stored value;
    any field supplied overwrites it" *)
Definition keeps_or_overwrites {A : Type} (supplied : option A) (before after : A) : Prop :=
  match supplied with
  | Some v => after = v
  | None => after = before
  end.

(** The same for an optional column. *)
Definition keeps_or_overwrites_opt {A : Type} (supplied : option A)
    (before after : option A) : Prop :=
  match supplied with
  | Some v => after = Some v
  | None => after = before
  end.

(** "fields omitted in the input become undefined/cleared on the stored row" *)
Definition cleared_or_overwritten {A : Type} (supplied after : option A) : Prop :=
  after = supplied.

(** C2 as the specification words it: after a successful upsert that
    supplies an id, the stored row holds the input, an omitted optional
    field being cleared. *)
Definition upsert_overwrites_as_specified : Prop :=
  forall i context env db item db' k,
    primary_keys db ->
    upsertVocabularyItem.id i = Some k ->
    upsertVocabularyItem.handler i context env db = (Return item, db') ->
    exists stored,
      item_by_id k db' = Some stored
      /\ VocabularyItems.languageProfileId stored = upsertVocabularyItem.languageProfileId i
      /\ VocabularyItems.term stored = upsertVocabularyItem.term i
      /\ cleared_or_overwritten (upsertVocabularyItem.translation i)
           (VocabularyItems.translation stored)
      /\ cleared_or_overwritten (upsertVocabularyItem.partOfSpeech i)
           (VocabularyItems.partOfSpeech stored)
      /\ cleared_or_overwritten (upsertVocabularyItem.exampleSentence i)
           (VocabularyItems.exampleSentence stored)
      /\ cleared_or_overwritten (upsertVocabularyItem.exampleTranslation i)
           (VocabularyItems.exampleTranslation stored)
      /\ cleared_or_overwritten (upsertVocabularyItem.difficulty i)
           (VocabularyItems.difficulty stored)
      /\ cleared_or_overwritten (upsertVocabularyItem.tags i)
           (VocabularyItems.tags stored)
      /\ cleared_or_overwritten (upsertVocabularyItem.lastReviewedAt i)
           (VocabularyItems.lastReviewedAt stored)
      /\ cleared_or_overwritten (upsertVocabularyItem.nextReviewAt i)
           (VocabularyItems.nextReviewAt stored)
      /\ cleared_or_overwritten (upsertVocabularyItem.successStreak i)
           (VocabularyItems.successStreak stored)
      /\ cleared_or_overwritten (upsertVocabularyItem.totalReviews i)
           (VocabularyItems.totalReviews stored)
      /\ VocabularyItems.updatedAt stored = now env.

(** C4 as the specification words it, for the vocabulary list: the total
    is the number of items of the page, and it is the page size as soon as
    more than a page of rows match. *)
Definition total_is_pageSize_as_specified : Prop :=
  forall i user env db d db',
    listVocabularyItems.handler i (signed_in user) env db = (Return d, db') ->
    page_total d = List.length (page_items d)
    /\ (Pos.to_nat (pageSize i)
          < List.length (select_where (listVocabularyItems.where_ i user) (items db)) ->
        page_total d = Pos.to_nat (pageSize i)).

(** ** A small store used in the examples *)

Definition alice : User := {| user_id := "alice" |}.
Definition bob : User := {| user_id := "bob" |}.

Definition spanish : LanguageProfiles.row :=
  {| LanguageProfiles.id := "p1"; LanguageProfiles.userId := "alice";
     LanguageProfiles.targetLanguage := "es";
     LanguageProfiles.nativeLanguage := Some "en";
     LanguageProfiles.proficiencyLevel := None;
     LanguageProfiles.goals := Some "travel";
     LanguageProfiles.isActive := true;
     LanguageProfiles.createdAt := 1000%Z; LanguageProfiles.updatedAt := 1000%Z |}.

Definition french : LanguageProfiles.row :=
  {| LanguageProfiles.id := "p2"; LanguageProfiles.userId := "bob";
     LanguageProfiles.targetLanguage := "fr";
     LanguageProfiles.nativeLanguage := None;
     LanguageProfiles.proficiencyLevel := Some "beginner";
     LanguageProfiles.goals := None;
     LanguageProfiles.isActive := true;
     LanguageProfiles.createdAt := 1100%Z; LanguageProfiles.updatedAt := 1100%Z |}.

Definition word (id profile user term : string) (translation : option string)
  : VocabularyItems.row :=
  {| VocabularyItems.id := id; VocabularyItems.languageProfileId := profile;
     VocabularyItems.userId := user; VocabularyItems.term := term;
     VocabularyItems.translation := translation;
     VocabularyItems.partOfSpeech := None;
     VocabularyItems.exampleSentence := None;
     VocabularyItems.exampleTranslation := None;
     VocabularyItems.difficulty := Some "easy";
     VocabularyItems.tags := None;
     VocabularyItems.lastReviewedAt := None;
     VocabularyItems.nextReviewAt := None;
     VocabularyItems.successStreak := Some 2%Z;
     VocabularyItems.totalReviews := None;
     VocabularyItems.createdAt := 1200%Z; VocabularyItems.updatedAt := 1200%Z |}.

Definition quiz (id profile user : string) : PracticeSessions.row :=
  {| PracticeSessions.id := id; PracticeSessions.languageProfileId := profile;
     PracticeSessions.userId := user; PracticeSessions.mode := Some "quiz";
     PracticeSessions.startedAt := 1300%Z; PracticeSessions.endedAt := None;
     PracticeSessions.totalQuestions := Some 10%Z;
     PracticeSessions.correctAnswers := None;
     PracticeSessions.notes := Some "warm-up";
     PracticeSessions.createdAt := 1300%Z |}.

Definition sample_db : DB :=
  {| profiles := [spanish; french];
     items := [word "v1" "p1" "alice" "hola" (Some "hello");
               word "v2" "p1" "alice" "adios" (Some "goodbye");
               word "v3" "p1" "alice" "gracias" None;
               word "v4" "p2" "bob" "bonjour" (Some "hello")];
     sessions := [quiz "s1" "p1" "alice"; quiz "s2" "p2" "bob"] |}.

Definition sample_env : Env := {| now := 5000%Z; randomUUID := "uuid-1" |}.

Definition update_p1 : updateLanguageProfile.input :=
  {| updateLanguageProfile.id := "p1";
     updateLanguageProfile.targetLanguage := None;
     updateLanguageProfile.nativeLanguage := Some "ta";
     updateLanguageProfile.proficiencyLevel := None;
     updateLanguageProfile.goals := None;
     updateLanguageProfile.isActive := Some false |}.

Definition start_quiz : startPracticeSession.input :=
  {| startPracticeSession.languageProfileId := "p1";
     startPracticeSession.mode := Some "quiz";
     startPracticeSession.totalQuestions := None;
     startPracticeSession.notes := None |}.

Definition complete_s1 : completePracticeSession.input :=
  {| completePracticeSession.id := "s1";
     completePracticeSession.totalQuestions := None;
     completePracticeSession.correctAnswers := Some 8%Z;
     completePracticeSession.notes := None;
     completePracticeSession.endedAt := None |}.

Definition rename_v1 : upsertVocabularyItem.input :=
  {| upsertVocabularyItem.id := Some "v1";
     upsertVocabularyItem.languageProfileId := "p1";
     upsertVocabularyItem.term := "hola!";
     upsertVocabularyItem.translation := Omitted;
     upsertVocabularyItem.partOfSpeech := Present "interjection";
     upsertVocabularyItem.exampleSentence := Omitted;
     upsertVocabularyItem.exampleTranslation := Omitted;
     upsertVocabularyItem.difficulty := Omitted;
     upsertVocabularyItem.tags := Omitted;
     upsertVocabularyItem.lastReviewedAt := Omitted;
     upsertVocabularyItem.nextReviewAt := Omitted;
     upsertVocabularyItem.successStreak := Omitted;
     upsertVocabularyItem.totalReviews := Omitted |}.

Definition delete_v1 : deleteVocabularyItem.input := {| deleteVocabularyItem.id := "v1" |}.

Definition overwrite_v4 : upsertVocabularyItem.input :=
  {| upsertVocabularyItem.id := Some "v4";
     upsertVocabularyItem.languageProfileId := "p1";
     upsertVocabularyItem.term := "mine";
     upsertVocabularyItem.translation := Present "taken";
     upsertVocabularyItem.partOfSpeech := Omitted;
     upsertVocabularyItem.exampleSentence := Omitted;
     upsertVocabularyItem.exampleTranslation := Omitted;
     upsertVocabularyItem.difficulty := Omitted;
     upsertVocabularyItem.tags := Omitted;
     upsertVocabularyItem.lastReviewedAt := Omitted;
     upsertVocabularyItem.nextReviewAt := Omitted;
     upsertVocabularyItem.successStreak := Omitted;
     upsertVocabularyItem.totalReviews := Omitted |}.

Definition page_of (profile : string) (p n : positive) : page_input :=
  {| languageProfileId := profile; page := p; pageSize := n |}.

Definition update_p2 : updateLanguageProfile.input :=
  {| updateLanguageProfile.id := "p2";
     updateLanguageProfile.targetLanguage := Some "de";
     updateLanguageProfile.nativeLanguage := None;
     updateLanguageProfile.proficiencyLevel := None;
     updateLanguageProfile.goals := None;
     updateLanguageProfile.isActive := Some false |}.

Definition blank_id : upsertVocabularyItem.input :=
  {| upsertVocabularyItem.id := Some "";
     upsertVocabularyItem.languageProfileId := "p1";
     upsertVocabularyItem.term := "perro";
     upsertVocabularyItem.translation := Omitted;
     upsertVocabularyItem.partOfSpeech := Omitted;
     upsertVocabularyItem.exampleSentence := Omitted;
     upsertVocabularyItem.exampleTranslation := Omitted;
     upsertVocabularyItem.difficulty := Omitted;
     upsertVocabularyItem.tags := Omitted;
     upsertVocabularyItem.lastReviewedAt := Omitted;
     upsertVocabularyItem.nextReviewAt := Omitted;
     upsertVocabularyItem.successStreak := Omitted;
     upsertVocabularyItem.totalReviews := Omitted |}.

(** ** Further vocabulary for the properties of the actions *)

Definition signed_out : Context := {| locals_user := None |}.

(** The table an action may write. *)
Inductive TableName : Type := ProfilesTable | ItemsTable | SessionsTable.

Definition written (req : Request) : option TableName :=
  match req with
  | CreateLanguageProfile _ | UpdateLanguageProfile _ => Some ProfilesTable
  | UpsertVocabularyItem _ | DeleteVocabularyItem _ => Some ItemsTable
  | StartPracticeSession _ | CompletePracticeSession _ => Some SessionsTable
  | ListMyLanguageProfiles _ | ListVocabularyItems _ | ListPracticeSessions _ => None
  end.

Definition same_except (t : option TableName) (db db' : DB) : Prop :=
  match t with
  | None => db' = db
  | Some ProfilesTable => items db' = items db /\ sessions db' = sessions db
  | Some ItemsTable => profiles db' = profiles db /\ sessions db' = sessions db
  | Some SessionsTable => profiles db' = profiles db /\ items db' = items db
  end.

(** A sequence of calls, each with its own context and environment. *)
Definition run_all (calls : list (Request * Context * Env)) (db : DB) : DB :=
  fold_left (fun db call =>
               match call with
               | (req, context, env) => snd (server req context env db)
               end) calls db.

Definition owns_item (u k : string) (db : DB) : Prop :=
  exists v, In v (items db) /\ VocabularyItems.id v = k /\ VocabularyItems.userId v = u.

Definition owns_session (u k : string) (db : DB) : Prop :=
  exists s, In s (sessions db)
    /\ PracticeSessions.id s = k /\ PracticeSessions.userId s = u.

(** The request names a row that [u] does not have: the profile to update
    or to attach to, the item to overwrite or delete, the session to
    complete. *)
Definition names_missing (u : string) (req : Request) (db : DB) : Prop :=
  match req with
  | UpdateLanguageProfile i =>
      ~ refers (profiles db) (updateLanguageProfile.id i) u
  | UpsertVocabularyItem i =>
      ~ refers (profiles db) (upsertVocabularyItem.languageProfileId i) u
      \/ (exists k, upsertVocabularyItem.id i = Some k /\ k <> "" /\ ~ owns_item u k db)
  | DeleteVocabularyItem i => ~ owns_item u (deleteVocabularyItem.id i) db
  | StartPracticeSession i =>
      ~ refers (profiles db) (startPracticeSession.languageProfileId i) u
  | CompletePracticeSession i => ~ owns_session u (completePracticeSession.id i) db
  | _ => False
  end.

Definition create_german : createLanguageProfile.input :=
  {| createLanguageProfile.targetLanguage := "de";
     createLanguageProfile.nativeLanguage := Some "en";
     createLanguageProfile.proficiencyLevel := None;
     createLanguageProfile.goals := None |}.

Definition list_all : listMyLanguageProfiles.input :=
  {| listMyLanguageProfiles.includeInactive := true |}.

Definition list_active : listMyLanguageProfiles.input :=
  {| listMyLanguageProfiles.includeInactive := false |}.

Definition deactivate_p1 : updateLanguageProfile.input :=
  {| updateLanguageProfile.id := "p1";
     updateLanguageProfile.targetLanguage := None;
     updateLanguageProfile.nativeLanguage := None;
     updateLanguageProfile.proficiencyLevel := None;
     updateLanguageProfile.goals := None;
     updateLanguageProfile.isActive := Some false |}.

Definition add_perro : upsertVocabularyItem.input :=
  {| upsertVocabularyItem.id := None;
     upsertVocabularyItem.languageProfileId := "p1";
     upsertVocabularyItem.term := "perro";
     upsertVocabularyItem.translation := Present "dog";
     upsertVocabularyItem.partOfSpeech := Omitted;
     upsertVocabularyItem.exampleSentence := Omitted;
     upsertVocabularyItem.exampleTranslation := Omitted;
     upsertVocabularyItem.difficulty := Omitted;
     upsertVocabularyItem.tags := Omitted;
     upsertVocabularyItem.lastReviewedAt := Omitted;
     upsertVocabularyItem.nextReviewAt := Omitted;
     upsertVocabularyItem.successStreak := Omitted;
     upsertVocabularyItem.totalReviews := Omitted |}.

Definition recomplete_s1 : completePracticeSession.input :=
  {| completePracticeSession.id := "s1";
     completePracticeSession.totalQuestions := Some 12%Z;
     completePracticeSession.correctAnswers := None;
     completePracticeSession.notes := None;
     completePracticeSession.endedAt := Some 9000%Z |}.

Definition complete_new : completePracticeSession.input :=
  {| completePracticeSession.id := "uuid-1";
     completePracticeSession.totalQuestions := Some 10%Z;
     completePracticeSession.correctAnswers := Some 8%Z;
     completePracticeSession.notes := None;
     completePracticeSession.endedAt := None |}.

(** The items of page [p] of a caller's vocabulary under a profile, and the
    same for sessions; a call that does not return has no items. *)
Definition vocabulary_page (a : User) (profile : string) (N : positive) (env : Env)
    (db : DB) (p : positive) : list VocabularyItems.row :=
  match fst (listVocabularyItems.handler (page_of profile p N) (signed_in a) env db) with
  | Return d => page_items d
  | _ => []
  end.

Definition session_page (a : User) (profile : string) (N : positive) (env : Env)
    (db : DB) (p : positive) : list PracticeSessions.row :=
  match fst (listPracticeSessions.handler (page_of profile p N) (signed_in a) env db) with
  | Return d => page_items d
  | _ => []
  end.

(** The page numbers 1 .. k. *)
Definition first_pages (k : nat) : list positive := map Pos.of_nat (seq 1 k).


(** What identifies a row for good: its id, its owner, its creation time. *)
Definition profile_identity (r : LanguageProfiles.row) : string * string * Date :=
  (LanguageProfiles.id r, LanguageProfiles.userId r, LanguageProfiles.createdAt r).

Definition item_identity (r : VocabularyItems.row) : string * string * Date :=
  (VocabularyItems.id r, VocabularyItems.userId r, VocabularyItems.createdAt r).

Definition session_identity (r : PracticeSessions.row) : string * string * Date :=
  (PracticeSessions.id r, PracticeSessions.userId r, PracticeSessions.createdAt r).

Definition is_delete (req : Request) : bool :=
  match req with
  | DeleteVocabularyItem _ => true
  | _ => false
  end.

(** [t'] lists the rows of [t] under [k], in the same order, followed by at
    most one more. *)
Definition extends {R K : Type} (k : R -> K) (t t' : list R) : Prop :=
  exists added, map k t' = map k t ++ added /\ List.length added <= 1.

Definition undefine_v1 : upsertVocabularyItem.input :=
  {| upsertVocabularyItem.id := Some "v1";
     upsertVocabularyItem.languageProfileId := "p1";
     upsertVocabularyItem.term := "hola";
     upsertVocabularyItem.translation := PresentUndefined;
     upsertVocabularyItem.partOfSpeech := Omitted;
     upsertVocabularyItem.exampleSentence := Omitted;
     upsertVocabularyItem.exampleTranslation := Omitted;
     upsertVocabularyItem.difficulty := Omitted;
     upsertVocabularyItem.tags := Omitted;
     upsertVocabularyItem.lastReviewedAt := Omitted;
     upsertVocabularyItem.nextReviewAt := Omitted;
     upsertVocabularyItem.successStreak := Omitted;
     upsertVocabularyItem.totalReviews := Omitted |}.

Local Close Scope action_scope.

(** ** Facts about the query layer *)

Section QueryFacts.
Context {R : Type}.
Variable key : R -> string.

(** [const [x] = await db.select()..where(c)] is the first row that
    satisfies [c]. *)
Lemma select_head (c : R -> bool) (t : list R) :
  hd_error (select_where c t) = find c t.
Proof.
  unfold select_where.
  induction t as [|r t IH]; simpl; [reflexivity|].
  destruct (c r); simpl; auto.
Qed.

Lemma select_cons (c : R -> bool) (t : list R) (x : R) (rest : list R) :
  select_where c t = x :: rest -> find c t = Some x /\ In x t /\ c x = true.
Proof.
  intros H. split.
  - rewrite <- select_head, H. reflexivity.
  - assert (Hin : In x (select_where c t)) by (rewrite H; left; reflexivity).
    unfold select_where in Hin. apply filter_In in Hin. exact Hin.
Qed.

Lemma select_nil (c : R -> bool) (t : list R) :
  select_where c t = [] -> forall r, In r t -> c r = false.
Proof.
  intros H r Hin. destruct (c r) eqn:E; [|reflexivity].
  assert (Hf : In r (select_where c t)) by (apply filter_In; auto).
  rewrite H in Hf. destruct Hf.
Qed.

Lemma find_map_stable (c : R -> bool) (g : R -> R) (t : list R) :
  (forall r, c (g r) = c r) -> find c (map g t) = option_map g (find c t).
Proof.
  intros Hc. induction t as [|r t IH]; simpl; [reflexivity|].
  rewrite Hc. destruct (c r); simpl; auto.
Qed.

Lemma map_update_stable {K : Type} (col : R -> K) (f : R -> R) (c : R -> bool)
    (t : list R) :
  (forall r, col (f r) = col r) ->
  map col (update_where f c t) = map col t.
Proof.
  intros Hk. unfold update_where. rewrite map_map.
  apply map_ext. intros r. destruct (c r); auto.
Qed.

Lemma find_key_In (k : string) (t : list R) (x : R) :
  NoDup (map key t) -> In x t -> key x = k ->
  find (fun r => key r =? k) t = Some x.
Proof.
  induction t as [|r t IH]; simpl; intros Hnd Hin Hk; [contradiction|].
  inversion Hnd as [|? ? Hnotin Hnd']; subst.
  destruct Hin as [->|Hin].
  - rewrite String.eqb_refl. reflexivity.
  - destruct (key r =? key x) eqn:E.
    + apply String.eqb_eq in E. exfalso. apply Hnotin. rewrite E.
      apply in_map. exact Hin.
    + apply IH; auto.
Qed.

Lemma has_key_In (k : string) (t : list R) :
  has_key key k t = true <-> In k (map key t).
Proof.
  unfold has_key. rewrite existsb_exists, in_map_iff.
  split; intros [r [H1 H2]]; exists r.
  - apply String.eqb_eq in H2. auto.
  - split; [exact H2|]. apply String.eqb_eq. exact H1.
Qed.

Lemma insert_row_Some (r : R) (t t' : list R) :
  insert_row key r t = Some t' -> t' = t ++ [r] /\ ~ In (key r) (map key t).
Proof.
  unfold insert_row. destruct (has_key key (key r) t) eqn:E; [discriminate|].
  intros H. inversion H; subst. split; [reflexivity|].
  intros Hin. apply has_key_In in Hin. congruence.
Qed.

Lemma insert_row_fresh (r : R) (t : list R) :
  ~ In (key r) (map key t) -> insert_row key r t = Some (t ++ [r]).
Proof.
  intros H. unfold insert_row.
  destruct (has_key key (key r) t) eqn:E; [|reflexivity].
  apply has_key_In in E. contradiction.
Qed.

Lemma NoDup_map_snoc (r : R) (t : list R) :
  NoDup (map key t) -> ~ In (key r) (map key t) -> NoDup (map key (t ++ [r])).
Proof.
  intros Hnd Hnotin. rewrite map_app. simpl.
  apply NoDup_app.
  - exact Hnd.
  - constructor; [intros []|constructor].
  - intros a Ha [<-|[]]. contradiction.
Qed.

Lemma NoDup_map_filter (c : R -> bool) (t : list R) :
  NoDup (map key t) -> NoDup (map key (filter c t)).
Proof.
  induction t as [|r t IH]; simpl; intros Hnd; [constructor|].
  inversion Hnd as [|? ? Hnotin Hnd']; subst.
  destruct (c r); simpl; auto.
  constructor; auto.
  intros Hin. apply Hnotin. apply in_map_iff in Hin.
  destruct Hin as [x [Hx Hin]]. apply filter_In in Hin.
  rewrite <- Hx. apply in_map. tauto.
Qed.

Lemma In_update_where (f : R -> R) (c : R -> bool) (t : list R) (x : R) :
  In x (update_where f c t) <->
  exists r, In r t /\ x = (if c r then f r else r).
Proof.
  unfold update_where. rewrite in_map_iff.
  split; intros [r [H1 H2]]; exists r; auto.
Qed.
End QueryFacts.

Lemma sample_db_wf : wf sample_db.
Proof.
  split.
  - repeat split; simpl;
      repeat (constructor; [simpl; intuition discriminate|]); constructor.
  - split; simpl; intros r Hin;
      repeat (destruct Hin as [<-|Hin];
              [(exists spanish; simpl; intuition congruence)
               || (exists french; simpl; intuition congruence)|]);
      destruct Hin.
Qed.

(** ** Profile update *)

Ltac run_handler H :=
  cbv beta delta [bind requireUser read write ret throw insert_into respond] in H;
  cbv beta iota in H.

(** C3: a successful [updateLanguageProfile] stores, for the profile it
    names, the supplied value of every supplied field and the previous value
    of every omitted one, refreshes [updatedAt], and leaves [id], [userId]
    and [createdAt] of every row as they were; the returned profile is the
    stored one. *)
Theorem updateLanguageProfile_merges :
  forall i context env db profile db',
    primary_keys db ->
    updateLanguageProfile.handler i context env db = (Return profile, db') ->
    exists existing,
      profile_by_id (updateLanguageProfile.id i) db = Some existing
      /\ profile_by_id (updateLanguageProfile.id i) db' = Some profile
      /\ keeps_or_overwrites (updateLanguageProfile.targetLanguage i)
           (LanguageProfiles.targetLanguage existing)
           (LanguageProfiles.targetLanguage profile)
      /\ keeps_or_overwrites_opt (updateLanguageProfile.nativeLanguage i)
           (LanguageProfiles.nativeLanguage existing)
           (LanguageProfiles.nativeLanguage profile)
      /\ keeps_or_overwrites_opt (updateLanguageProfile.proficiencyLevel i)
           (LanguageProfiles.proficiencyLevel existing)
           (LanguageProfiles.proficiencyLevel profile)
      /\ keeps_or_overwrites_opt (updateLanguageProfile.goals i)
           (LanguageProfiles.goals existing) (LanguageProfiles.goals profile)
      /\ keeps_or_overwrites (updateLanguageProfile.isActive i)
           (LanguageProfiles.isActive existing) (LanguageProfiles.isActive profile)
      /\ LanguageProfiles.updatedAt profile = now env
      /\ map LanguageProfiles.id (profiles db') = map LanguageProfiles.id (profiles db)
      /\ map LanguageProfiles.userId (profiles db')
         = map LanguageProfiles.userId (profiles db)
      /\ map LanguageProfiles.createdAt (profiles db')
         = map LanguageProfiles.createdAt (profiles db)
      /\ (forall k, k <> updateLanguageProfile.id i ->
            profile_by_id k db' = profile_by_id k db)
      /\ items db' = items db /\ sessions db' = sessions db.
Proof.
  intros i context env db profile db' [Hpk _] H.
  unfold updateLanguageProfile.handler in H. run_handler H.
  destruct (locals_user context) as [user|]; [|discriminate].
  destruct (select_where (updateLanguageProfile.where_ i user) (profiles db))
    as [|existing rest] eqn:Hsel; [discriminate|].
  apply select_cons in Hsel. destruct Hsel as [_ [Hin Hc]].
  unfold updateLanguageProfile.where_ in Hc.
  apply andb_prop in Hc. destruct Hc as [Hid Hown].
  apply String.eqb_eq in Hid.
  injection H as <- <-.
  exists existing.
  assert (Hbefore : profile_by_id (updateLanguageProfile.id i) db = Some existing)
    by (apply (find_key_In LanguageProfiles.id); assumption).
  split; [exact Hbefore|].
  split.
  { unfold profile_by_id in *. simpl. unfold update_where.
    rewrite find_map_stable.
    - rewrite Hbefore. simpl.
      unfold updateLanguageProfile.where_ at 1.
      rewrite Hid, String.eqb_refl, Hown. simpl.
      unfold LanguageProfiles.apply, updateLanguageProfile.returned. simpl.
      rewrite Hid. reflexivity.
    - intros r. destruct (updateLanguageProfile.where_ i user r); reflexivity. }
  unfold keeps_or_overwrites, keeps_or_overwrites_opt. simpl.
  repeat split.
  - destruct (updateLanguageProfile.targetLanguage i); reflexivity.
  - destruct (updateLanguageProfile.nativeLanguage i); reflexivity.
  - destruct (updateLanguageProfile.proficiencyLevel i); reflexivity.
  - destruct (updateLanguageProfile.goals i); reflexivity.
  - destruct (updateLanguageProfile.isActive i); reflexivity.
  - apply map_update_stable. reflexivity.
  - apply map_update_stable. reflexivity.
  - apply map_update_stable. reflexivity.
  - intros k Hk. unfold profile_by_id. simpl. unfold update_where.
    rewrite find_map_stable.
    + destruct (find (fun r => LanguageProfiles.id r =? k) (profiles db)) as [r|] eqn:Hf;
        [|reflexivity].
      simpl. apply find_some in Hf. destruct Hf as [_ Hrk].
      apply String.eqb_eq in Hrk.
      unfold updateLanguageProfile.where_.
      destruct (LanguageProfiles.id r =? updateLanguageProfile.id i) eqn:E;
        [|reflexivity].
      apply String.eqb_eq in E. congruence.
    + intros r. destruct (updateLanguageProfile.where_ i user r); reflexivity.
Qed.

Lemma updateLanguageProfile_merges_witness :
  primary_keys sample_db
  /\ exists profile db',
       updateLanguageProfile.handler update_p1 (signed_in alice) sample_env sample_db
       = (Return profile, db')
       /\ profile_by_id "p1" db' = Some profile
       /\ LanguageProfiles.targetLanguage profile = "es"
       /\ LanguageProfiles.nativeLanguage profile = Some "ta"
       /\ LanguageProfiles.goals profile = Some "travel"
       /\ LanguageProfiles.isActive profile = false
       /\ LanguageProfiles.updatedAt profile = 5000%Z.
Proof.
  split; [exact (proj1 sample_db_wf)|].
  eexists. eexists. split; [vm_compute; reflexivity|].
  destruct (updateLanguageProfile_merges update_p1 (signed_in alice) sample_env
              sample_db _ _ (proj1 sample_db_wf) eq_refl)
    as [existing [Hb [Ha [Ht [Hn [_ [Hg [Hact [Hup _]]]]]]]]].
  vm_compute in Hb. injection Hb as <-.
  repeat split; assumption.
Defined.

(** ** Practice sessions *)

Lemma startPracticeSession_returns i context env db session db' :
  startPracticeSession.handler i context env db = (Return session, db') ->
  exists user profile,
    locals_user context = Some user
    /\ In profile (profiles db)
    /\ LanguageProfiles.id profile = startPracticeSession.languageProfileId i
    /\ LanguageProfiles.userId profile = user_id user
    /\ ~ In (randomUUID env) (map PracticeSessions.id (sessions db))
    /\ session = startPracticeSession.session i user (randomUUID env) (now env)
    /\ db' = with_sessions (sessions db ++ [session]) db.
Proof.
  intros H. unfold startPracticeSession.handler in H. run_handler H.
  destruct (locals_user context) as [user|]; [|discriminate].
  destruct (select_where (startPracticeSession.where_profile i user) (profiles db))
    as [|profile rest] eqn:Hsel; [discriminate|].
  apply select_cons in Hsel. destruct Hsel as [_ [Hin Hc]].
  apply andb_prop in Hc. destruct Hc as [Hid Hown].
  apply String.eqb_eq in Hid, Hown.
  destruct (insert_row PracticeSessions.id
              (startPracticeSession.session i user (randomUUID env) (now env))
              (sessions db)) as [t|] eqn:Hins; [|discriminate].
  apply insert_row_Some in Hins. destruct Hins as [-> Hfresh].
  injection H as <- <-.
  exists user, profile. repeat split; auto.
Qed.

Lemma completePracticeSession_returns i context env db session db' :
  primary_keys db ->
  completePracticeSession.handler i context env db = (Return session, db') ->
  exists user before,
    locals_user context = Some user
    /\ session_by_id (completePracticeSession.id i) db = Some before
    /\ PracticeSessions.userId before = user_id user
    /\ session = completePracticeSession.returned i before
         (nullish_or (completePracticeSession.endedAt i) (now env))
    /\ session_by_id (completePracticeSession.id i) db' = Some session
    /\ db' = with_sessions
         (update_where
            (PracticeSessions.apply
               (completePracticeSession.payload i before
                  (nullish_or (completePracticeSession.endedAt i) (now env))))
            (completePracticeSession.where_ i user) (sessions db)) db.
Proof.
  intros [_ [_ Hpk]] H.
  unfold completePracticeSession.handler in H. run_handler H.
  destruct (locals_user context) as [user|]; [|discriminate].
  destruct (select_where (completePracticeSession.where_ i user) (sessions db))
    as [|before rest] eqn:Hsel; [discriminate|].
  apply select_cons in Hsel. destruct Hsel as [_ [Hin Hc]].
  apply andb_prop in Hc. destruct Hc as [Hid Hown].
  apply String.eqb_eq in Hid.
  injection H as <- <-.
  assert (Hbefore : session_by_id (completePracticeSession.id i) db = Some before)
    by (apply (find_key_In PracticeSessions.id); assumption).
  exists user, before.
  split; [reflexivity|]. split; [exact Hbefore|].
  split; [apply String.eqb_eq; exact Hown|]. split; [reflexivity|].
  split; [|reflexivity].
  unfold session_by_id in *. simpl. unfold update_where.
  rewrite find_map_stable.
  - rewrite Hbefore. simpl. unfold completePracticeSession.where_ at 1.
    rewrite Hid, String.eqb_refl, Hown. reflexivity.
  - intros r. destruct (completePracticeSession.where_ i user r); reflexivity.
Qed.

(** C8: a successful [startPracticeSession] stores and returns a session
    with [endedAt] and [correctAnswers] null and [startedAt = createdAt] the
    call time; a successful [completePracticeSession] sets [endedAt] to the
    supplied value, or to the call time when none is supplied, and each of
    [totalQuestions], [correctAnswers] and [notes] keeps its stored value
    when omitted and takes the supplied one otherwise. *)
Theorem session_lifecycle :
  forall context env db db',
    (forall i session,
        startPracticeSession.handler i context env db = (Return session, db') ->
        PracticeSessions.endedAt session = None
        /\ PracticeSessions.correctAnswers session = None
        /\ PracticeSessions.startedAt session = now env
        /\ PracticeSessions.createdAt session = now env
        /\ sessions db' = sessions db ++ [session]
        /\ session_by_id (PracticeSessions.id session) db' = Some session)
    /\ (forall i session,
        primary_keys db ->
        completePracticeSession.handler i context env db = (Return session, db') ->
        exists before,
          session_by_id (completePracticeSession.id i) db = Some before
          /\ session_by_id (completePracticeSession.id i) db' = Some session
          /\ PracticeSessions.endedAt session
             = Some (match completePracticeSession.endedAt i with
                     | Some supplied => supplied
                     | None => now env
                     end)
          /\ keeps_or_overwrites_opt (completePracticeSession.totalQuestions i)
               (PracticeSessions.totalQuestions before)
               (PracticeSessions.totalQuestions session)
          /\ keeps_or_overwrites_opt (completePracticeSession.correctAnswers i)
               (PracticeSessions.correctAnswers before)
               (PracticeSessions.correctAnswers session)
          /\ keeps_or_overwrites_opt (completePracticeSession.notes i)
               (PracticeSessions.notes before) (PracticeSessions.notes session)).
Proof.
  intros context env db db'. split.
  - intros i session H.
    apply startPracticeSession_returns in H.
    destruct H as [user [profile [_ [_ [_ [_ [Hfresh [-> ->]]]]]]]].
    simpl. repeat split.
    unfold session_by_id. simpl.
    induction (sessions db) as [|r t IH]; simpl.
    + rewrite String.eqb_refl. reflexivity.
    + simpl in Hfresh. destruct (PracticeSessions.id r =? randomUUID env) eqn:E.
      * apply String.eqb_eq in E. tauto.
      * apply IH. tauto.
  - intros i session Hpk H.
    destruct (completePracticeSession_returns _ _ _ _ _ _ Hpk H)
      as [user [before [_ [Hb [_ [-> [Ha _]]]]]]].
    exists before. split; [exact Hb|]. split; [exact Ha|].
    unfold keeps_or_overwrites_opt. simpl. repeat split.
    + destruct (completePracticeSession.totalQuestions i); reflexivity.
    + destruct (completePracticeSession.correctAnswers i); reflexivity.
    + destruct (completePracticeSession.notes i); reflexivity.
Qed.

Lemma session_lifecycle_witness :
  (exists session db',
      startPracticeSession.handler start_quiz (signed_in alice) sample_env sample_db
      = (Return session, db')
      /\ PracticeSessions.endedAt session = None
      /\ PracticeSessions.correctAnswers session = None
      /\ PracticeSessions.startedAt session = 5000%Z
      /\ PracticeSessions.createdAt session = 5000%Z)
  /\ primary_keys sample_db
  /\ (exists session db',
      completePracticeSession.handler complete_s1 (signed_in alice) sample_env sample_db
      = (Return session, db')
      /\ session_by_id "s1" db' = Some session
      /\ PracticeSessions.endedAt session = Some 5000%Z
      /\ PracticeSessions.totalQuestions session = Some 10%Z
      /\ PracticeSessions.correctAnswers session = Some 8%Z
      /\ PracticeSessions.notes session = Some "warm-up").
Proof.
  split; [|split; [exact (proj1 sample_db_wf)|]].
  - eexists. eexists. split; [vm_compute; reflexivity|].
    destruct (proj1 (session_lifecycle (signed_in alice) sample_env sample_db _)
                start_quiz _ eq_refl) as [H1 [H2 [H3 [H4 _]]]].
    repeat split; assumption.
  - eexists. eexists. split; [vm_compute; reflexivity|].
    destruct (proj2 (session_lifecycle (signed_in alice) sample_env sample_db _)
                complete_s1 _ (proj1 sample_db_wf) eq_refl)
      as [before [Hb [Ha [He [Ht [Hc Hn]]]]]].
    vm_compute in Hb. injection Hb as <-.
    repeat split; assumption.
Defined.

(** C10: a successful [completePracticeSession] leaves [id],
    [languageProfileId], [userId], [mode], [startedAt] and [createdAt] as
    they were, in the stored session and in the returned one, and in every
    other row of the table; the other two tables are not written. *)
Theorem completePracticeSession_frame :
  forall i context env db session db',
    primary_keys db ->
    completePracticeSession.handler i context env db = (Return session, db') ->
    exists before,
      session_by_id (completePracticeSession.id i) db = Some before
      /\ session_by_id (completePracticeSession.id i) db' = Some session
      /\ PracticeSessions.id session = PracticeSessions.id before
      /\ PracticeSessions.languageProfileId session
         = PracticeSessions.languageProfileId before
      /\ PracticeSessions.userId session = PracticeSessions.userId before
      /\ PracticeSessions.mode session = PracticeSessions.mode before
      /\ PracticeSessions.startedAt session = PracticeSessions.startedAt before
      /\ PracticeSessions.createdAt session = PracticeSessions.createdAt before
      /\ map PracticeSessions.id (sessions db') = map PracticeSessions.id (sessions db)
      /\ map PracticeSessions.languageProfileId (sessions db')
         = map PracticeSessions.languageProfileId (sessions db)
      /\ map PracticeSessions.userId (sessions db')
         = map PracticeSessions.userId (sessions db)
      /\ map PracticeSessions.mode (sessions db') = map PracticeSessions.mode (sessions db)
      /\ map PracticeSessions.startedAt (sessions db')
         = map PracticeSessions.startedAt (sessions db)
      /\ map PracticeSessions.createdAt (sessions db')
         = map PracticeSessions.createdAt (sessions db)
      /\ (forall k, k <> completePracticeSession.id i ->
            session_by_id k db' = session_by_id k db)
      /\ profiles db' = profiles db /\ items db' = items db.
Proof.
  intros i context env db session db' Hpk H.
  destruct (completePracticeSession_returns _ _ _ _ _ _ Hpk H)
    as [user [before [_ [Hb [_ [-> [Ha ->]]]]]]].
  exists before. split; [exact Hb|]. split; [exact Ha|].
  simpl. repeat split; try (apply map_update_stable; reflexivity).
  intros k Hk. unfold session_by_id. simpl. unfold update_where.
  rewrite find_map_stable.
  - destruct (find (fun r => PracticeSessions.id r =? k) (sessions db)) as [r|] eqn:Hf;
      [|reflexivity].
    simpl. apply find_some in Hf. destruct Hf as [_ Hrk].
    apply String.eqb_eq in Hrk.
    unfold completePracticeSession.where_.
    destruct (PracticeSessions.id r =? completePracticeSession.id i) eqn:E;
      [|reflexivity].
    apply String.eqb_eq in E. congruence.
  - intros r. destruct (completePracticeSession.where_ i user r); reflexivity.
Qed.

Lemma completePracticeSession_frame_witness :
  primary_keys sample_db
  /\ exists session db',
       completePracticeSession.handler complete_s1 (signed_in alice) sample_env sample_db
       = (Return session, db')
       /\ session_by_id "s1" db' = Some session
       /\ PracticeSessions.id session = "s1"
       /\ PracticeSessions.languageProfileId session = "p1"
       /\ PracticeSessions.userId session = "alice"
       /\ PracticeSessions.mode session = Some "quiz"
       /\ PracticeSessions.startedAt session = 1300%Z
       /\ PracticeSessions.createdAt session = 1300%Z.
Proof.
  split; [exact (proj1 sample_db_wf)|].
  eexists. eexists. split; [vm_compute; reflexivity|].
  destruct (completePracticeSession_frame complete_s1 (signed_in alice) sample_env
              sample_db _ _ (proj1 sample_db_wf) eq_refl)
    as [before [Hb [Ha [H1 [H2 [H3 [H4 [H5 [H6 _]]]]]]]]].
  vm_compute in Hb. injection Hb as <-.
  repeat split; assumption.
Defined.

(** ** Vocabulary upsert *)

Lemma upsertVocabularyItem_updates i context env db item db' k :
  primary_keys db ->
  upsertVocabularyItem.id i = Some k -> k <> "" ->
  upsertVocabularyItem.handler i context env db = (Return item, db') ->
  exists user before,
    locals_user context = Some user
    /\ item_by_id k db = Some before
    /\ VocabularyItems.userId before = user_id user
    /\ item = upsertVocabularyItem.returned i user before (now env)
    /\ item_by_id k db'
       = Some (VocabularyItems.apply (upsertVocabularyItem.payload i (now env)) before)
    /\ db' = with_items
         (update_where (VocabularyItems.apply (upsertVocabularyItem.payload i (now env)))
            (upsertVocabularyItem.where_ i user) (items db)) db.
Proof.
  intros [_ [Hpk _]] Hk Hne H.
  unfold upsertVocabularyItem.handler in H. run_handler H.
  destruct (locals_user context) as [user|]; [|discriminate].
  destruct (select_where (upsertVocabularyItem.where_profile i user) (profiles db))
    as [|profile rest]; [discriminate|].
  assert (Ht : truthy (upsertVocabularyItem.id i) = true).
  { rewrite Hk. simpl. destruct (k =? "") eqn:E; [|reflexivity].
    apply String.eqb_eq in E. contradiction. }
  rewrite Ht in H.
  destruct (select_where (upsertVocabularyItem.where_ i user) (items db))
    as [|before rest'] eqn:Hsel; [discriminate|].
  apply select_cons in Hsel. destruct Hsel as [_ [Hin Hc]].
  assert (Hw : forall r, upsertVocabularyItem.where_ i user r
                 = (VocabularyItems.id r =? k) && (VocabularyItems.userId r =? user_id user))
    by (intros r; unfold upsertVocabularyItem.where_; rewrite Hk; reflexivity).
  rewrite Hw in Hc. apply andb_prop in Hc. destruct Hc as [Hid Hown].
  apply String.eqb_eq in Hid.
  injection H as <- <-.
  assert (Hbefore : item_by_id k db = Some before)
    by (apply (find_key_In VocabularyItems.id); assumption).
  exists user, before.
  split; [reflexivity|]. split; [exact Hbefore|].
  split; [apply String.eqb_eq; exact Hown|]. split; [reflexivity|].
  split; [|reflexivity].
  unfold item_by_id in *. simpl. unfold update_where.
  rewrite find_map_stable.
  - rewrite Hbefore. simpl. rewrite Hw, Hid, String.eqb_refl, Hown. reflexivity.
  - intros r. destruct (upsertVocabularyItem.where_ i user r); reflexivity.
Qed.

(** C2 (as stated) fails: renaming "hola" without repeating its
    translation leaves the stored translation in place. *)
Lemma upsert_keeps_omitted_fields : ~ upsert_overwrites_as_specified.
Proof.
  intros Hspec.
  destruct (Hspec rename_v1 (signed_in alice) sample_env sample_db _ _ "v1"
              (proj1 sample_db_wf) eq_refl eq_refl)
    as [stored [Hs [_ [_ [Ht _]]]]].
  vm_compute in Hs. injection Hs as <-.
  vm_compute in Ht. discriminate.
Qed.

(** C2 (amended): a successful upsert that supplies a non-empty id leaves,
    in the stored row of that id, the input's [languageProfileId] and [term]
    and the supplied value of every supplied optional field; an optional
    field for which the input gives no value keeps its stored value;
    [updatedAt] is the call time; [id], [userId] and [createdAt] stay. *)
Theorem upsertVocabularyItem_merges :
  forall i context env db item db' k,
    primary_keys db ->
    upsertVocabularyItem.id i = Some k -> k <> "" ->
    upsertVocabularyItem.handler i context env db = (Return item, db') ->
    exists before stored,
      item_by_id k db = Some before
      /\ item_by_id k db' = Some stored
      /\ VocabularyItems.languageProfileId stored
         = upsertVocabularyItem.languageProfileId i
      /\ VocabularyItems.term stored = upsertVocabularyItem.term i
      /\ keeps_or_overwrites_opt (upsertVocabularyItem.translation i)
           (VocabularyItems.translation before) (VocabularyItems.translation stored)
      /\ keeps_or_overwrites_opt (upsertVocabularyItem.partOfSpeech i)
           (VocabularyItems.partOfSpeech before) (VocabularyItems.partOfSpeech stored)
      /\ keeps_or_overwrites_opt (upsertVocabularyItem.exampleSentence i)
           (VocabularyItems.exampleSentence before)
           (VocabularyItems.exampleSentence stored)
      /\ keeps_or_overwrites_opt (upsertVocabularyItem.exampleTranslation i)
           (VocabularyItems.exampleTranslation before)
           (VocabularyItems.exampleTranslation stored)
      /\ keeps_or_overwrites_opt (upsertVocabularyItem.difficulty i)
           (VocabularyItems.difficulty before) (VocabularyItems.difficulty stored)
      /\ keeps_or_overwrites_opt (upsertVocabularyItem.tags i)
           (VocabularyItems.tags before) (VocabularyItems.tags stored)
      /\ keeps_or_overwrites_opt (upsertVocabularyItem.lastReviewedAt i)
           (VocabularyItems.lastReviewedAt before)
           (VocabularyItems.lastReviewedAt stored)
      /\ keeps_or_overwrites_opt (upsertVocabularyItem.nextReviewAt i)
           (VocabularyItems.nextReviewAt before) (VocabularyItems.nextReviewAt stored)
      /\ keeps_or_overwrites_opt (upsertVocabularyItem.successStreak i)
           (VocabularyItems.successStreak before)
           (VocabularyItems.successStreak stored)
      /\ keeps_or_overwrites_opt (upsertVocabularyItem.totalReviews i)
           (VocabularyItems.totalReviews before) (VocabularyItems.totalReviews stored)
      /\ VocabularyItems.updatedAt stored = now env
      /\ VocabularyItems.id stored = VocabularyItems.id before
      /\ VocabularyItems.userId stored = VocabularyItems.userId before
      /\ VocabularyItems.createdAt stored = VocabularyItems.createdAt before.
Proof.
  intros i context env db item db' k Hpk Hk Hne H.
  destruct (upsertVocabularyItem_updates _ _ _ _ _ _ _ Hpk Hk Hne H)
    as [user [before [_ [Hb [_ [_ [Ha _]]]]]]].
  exists before. eexists. split; [exact Hb|]. split; [exact Ha|].
  unfold keeps_or_overwrites_opt. simpl. repeat split.
  - destruct (upsertVocabularyItem.translation i); reflexivity.
  - destruct (upsertVocabularyItem.partOfSpeech i); reflexivity.
  - destruct (upsertVocabularyItem.exampleSentence i); reflexivity.
  - destruct (upsertVocabularyItem.exampleTranslation i); reflexivity.
  - destruct (upsertVocabularyItem.difficulty i); reflexivity.
  - destruct (upsertVocabularyItem.tags i); reflexivity.
  - destruct (upsertVocabularyItem.lastReviewedAt i); reflexivity.
  - destruct (upsertVocabularyItem.nextReviewAt i); reflexivity.
  - destruct (upsertVocabularyItem.successStreak i); reflexivity.
  - destruct (upsertVocabularyItem.totalReviews i); reflexivity.
Qed.

Lemma upsertVocabularyItem_merges_witness :
  primary_keys sample_db
  /\ upsertVocabularyItem.id rename_v1 = Some "v1" /\ "v1" <> ""
  /\ exists item db' stored,
       upsertVocabularyItem.handler rename_v1 (signed_in alice) sample_env sample_db
       = (Return item, db')
       /\ item_by_id "v1" db' = Some stored
       /\ VocabularyItems.term stored = "hola!"
       /\ VocabularyItems.translation stored = Some "hello"
       /\ VocabularyItems.partOfSpeech stored = Some "interjection"
       /\ VocabularyItems.successStreak stored = Some 2%Z
       /\ VocabularyItems.updatedAt stored = 5000%Z.
Proof.
  split; [exact (proj1 sample_db_wf)|].
  split; [reflexivity|]. split; [discriminate|].
  eexists. eexists.
  destruct (upsertVocabularyItem_merges rename_v1 (signed_in alice) sample_env
              sample_db _ _ "v1" (proj1 sample_db_wf) eq_refl
              ltac:(discriminate) eq_refl)
    as (before & stored & Hb & Ha & _ & Ht & Htr & Hp & _ & _ & _ & _ & _ & _
        & Hs & _ & Hu & _).
  exists stored. split; [vm_compute; reflexivity|]. split; [exact Ha|].
  vm_compute in Hb. injection Hb as <-.
  repeat split; assumption.
Defined.

(** A key sent with the value [undefined] shows in the returned item and
    not in the stored row. *)
Example upsert_undefined_key_is_returned_not_stored :
  exists item db' stored,
    upsertVocabularyItem.handler undefine_v1 (signed_in alice) sample_env sample_db
    = (Return item, db')
    /\ item_by_id "v1" db' = Some stored
    /\ VocabularyItems.translation item = None
    /\ VocabularyItems.translation stored = Some "hello".
Proof. eexists. eexists. eexists. vm_compute. repeat split. Qed.

(** An empty id is falsy at [if (input.id)]: the call inserts a new row
    under the drawn identifier. *)
Example upsert_blank_id_inserts :
  exists item db',
    upsertVocabularyItem.handler blank_id (signed_in alice) sample_env sample_db
    = (Return item, db')
    /\ VocabularyItems.id item = "uuid-1"
    /\ items db' = items sample_db ++ [item]
    /\ item_by_id "" db' = None.
Proof. eexists. eexists. vm_compute. repeat split. Qed.

(** C7: an [upsertVocabularyItem] that does not return leaves the three
    tables exactly as they were; and with a non-empty id that names no item
    of the caller (absent, or owned by another identity) the call throws
    NOT_FOUND. *)
Theorem upsertVocabularyItem_atomic :
  forall i context env db,
    (forall code db',
        upsertVocabularyItem.handler i context env db = (Throw code, db') -> db' = db)
    /\ (forall db',
        upsertVocabularyItem.handler i context env db = (StoreFault, db') -> db' = db)
    /\ (forall user k,
        locals_user context = Some user ->
        upsertVocabularyItem.id i = Some k -> k <> "" ->
        (forall v, In v (items db) -> VocabularyItems.id v = k ->
                   VocabularyItems.userId v <> user_id user) ->
        upsertVocabularyItem.handler i context env db = (Throw NOT_FOUND, db)).
Proof.
  intros i context env db.
  unfold upsertVocabularyItem.handler.
  cbv beta delta [bind requireUser read write ret throw insert_into]. cbv beta iota.
  split; [|split].
  - intros code db' H.
    destruct (locals_user context) as [user|]; [|injection H as _ <-; reflexivity].
    destruct (select_where (upsertVocabularyItem.where_profile i user) (profiles db));
      [injection H as _ <-; reflexivity|].
    destruct (truthy (upsertVocabularyItem.id i)).
    + destruct (select_where (upsertVocabularyItem.where_ i user) (items db));
        [injection H as _ <-; reflexivity|discriminate].
    + destruct (insert_row _ _ _); discriminate.
  - intros db' H.
    destruct (locals_user context) as [user|]; [|discriminate].
    destruct (select_where (upsertVocabularyItem.where_profile i user) (profiles db));
      [discriminate|].
    destruct (truthy (upsertVocabularyItem.id i)).
    + destruct (select_where (upsertVocabularyItem.where_ i user) (items db));
        discriminate.
    + destruct (insert_row _ _ _); [discriminate|].
      injection H as <-. reflexivity.
  - intros user k Hu Hk Hne Hnone. rewrite Hu.
    destruct (select_where (upsertVocabularyItem.where_profile i user) (profiles db));
      [reflexivity|].
    assert (Ht : truthy (upsertVocabularyItem.id i) = true).
    { rewrite Hk. simpl. destruct (k =? "") eqn:E; [|reflexivity].
      apply String.eqb_eq in E. contradiction. }
    rewrite Ht.
    destruct (select_where (upsertVocabularyItem.where_ i user) (items db))
      as [|v rest] eqn:Hsel; [reflexivity|].
    apply select_cons in Hsel. destruct Hsel as [_ [Hin Hc]].
    unfold upsertVocabularyItem.where_ in Hc. rewrite Hk in Hc.
    apply andb_prop in Hc. destruct Hc as [Hid Hown].
    apply String.eqb_eq in Hid, Hown.
    exfalso. exact (Hnone v Hin Hid Hown).
Qed.

Lemma upsertVocabularyItem_atomic_witness :
  upsertVocabularyItem.handler overwrite_v4 (signed_in alice) sample_env sample_db
  = (Throw NOT_FOUND, sample_db).
Proof.
  apply (proj2 (proj2 (upsertVocabularyItem_atomic overwrite_v4 (signed_in alice)
                         sample_env sample_db)) alice "v4");
    [reflexivity|reflexivity|discriminate|].
  simpl. intros v Hin Hid.
  repeat (destruct Hin as [<-|Hin]; [try discriminate Hid; simpl; discriminate|]).
  destruct Hin.
Defined.

(** ** Vocabulary delete *)

Lemma rowsAffected_zero {R : Type} (c : R -> bool) (t : list R) :
  rowsAffected c t = 0 <-> (forall r, In r t -> c r = false).
Proof.
  unfold rowsAffected. split.
  - intros H. apply select_nil. unfold select_where.
    destruct (filter c t); [reflexivity|discriminate].
  - intros H. induction t as [|r t IH]; simpl; [reflexivity|].
    rewrite (H r (or_introl eq_refl)). apply IH.
    intros x Hx. apply H. right. exact Hx.
Qed.

Lemma delete_where_none {R : Type} (c : R -> bool) (t : list R) :
  forall r, In r (delete_where c t) -> c r = false.
Proof.
  intros r Hin. unfold delete_where in Hin. apply filter_In in Hin.
  destruct Hin as [_ H]. destruct (c r); [discriminate|reflexivity].
Qed.

(** C6: for a signed-in caller, [deleteVocabularyItem] throws NOT_FOUND
    exactly when no item has the given id and the caller as owner (then
    nothing is removed), and otherwise answers success after removing the
    matching rows and nothing else; a second call with the same id by the
    same caller throws NOT_FOUND. *)
Theorem deleteVocabularyItem_not_found_iff :
  forall i user env db,
    let context := signed_in user in
    let matches v :=
      VocabularyItems.id v = deleteVocabularyItem.id i
      /\ VocabularyItems.userId v = user_id user in
    let result := deleteVocabularyItem.handler i context env db in
    (rowsAffected (deleteVocabularyItem.where_ i user) (items db) = 0
       <-> ~ exists v, In v (items db) /\ matches v)
    /\ (fst result = Throw NOT_FOUND
        <-> rowsAffected (deleteVocabularyItem.where_ i user) (items db) = 0)
    /\ (fst result = Return tt
        <-> rowsAffected (deleteVocabularyItem.where_ i user) (items db) <> 0)
    /\ (fst result = Throw NOT_FOUND -> snd result = db)
    /\ (forall v, In v (items (snd result)) <-> In v (items db) /\ ~ matches v)
    /\ profiles (snd result) = profiles db
    /\ sessions (snd result) = sessions db
    /\ fst (deleteVocabularyItem.handler i context env (snd result)) = Throw NOT_FOUND.
Proof.
  intros i user env db context matches result.
  assert (Hm : forall v, deleteVocabularyItem.where_ i user v = true <-> matches v).
  { intros v. unfold deleteVocabularyItem.where_, matches.
    rewrite andb_true_iff, !String.eqb_eq. tauto. }
  assert (Hz : rowsAffected (deleteVocabularyItem.where_ i user) (items db) = 0
               <-> ~ exists v, In v (items db) /\ matches v).
  { rewrite rowsAffected_zero. split.
    - intros H [v [Hin Hv]]. apply Hm in Hv. rewrite (H v Hin) in Hv. discriminate.
    - intros H v Hin.
      destruct (deleteVocabularyItem.where_ i user v) eqn:E; [|reflexivity].
      exfalso. apply H. exists v. split; [exact Hin|]. apply Hm. exact E. }
  assert (Hres : result
    = if (rowsAffected (deleteVocabularyItem.where_ i user) (items db) =? 0)%nat
      then (Throw NOT_FOUND,
            with_items (delete_where (deleteVocabularyItem.where_ i user) (items db)) db)
      else (Return tt,
            with_items (delete_where (deleteVocabularyItem.where_ i user) (items db)) db)).
  { unfold result, deleteVocabularyItem.handler, context, signed_in,
      deleteVocabularyItem.delete_items.
    cbv beta delta [bind requireUser ret throw]. cbv beta iota. simpl.
    destruct (rowsAffected _ _ =? 0)%nat; reflexivity. }
  assert (Hin : forall v,
             In v (delete_where (deleteVocabularyItem.where_ i user) (items db))
             <-> In v (items db) /\ ~ matches v).
  { intros v. unfold delete_where. rewrite filter_In, negb_true_iff.
    rewrite <- Hm. destruct (deleteVocabularyItem.where_ i user v); intuition congruence. }
  split; [exact Hz|].
  destruct (Nat.eqb_spec
              (rowsAffected (deleteVocabularyItem.where_ i user) (items db)) 0)
    as [E|E]; rewrite Hres; simpl.
  - split; [tauto|]. split; [split; [discriminate|contradiction]|].
    split.
    { intros _. destruct db as [ps vs ss]. unfold with_items. simpl. f_equal.
      unfold delete_where. simpl in E.
      pose proof (proj1 (rowsAffected_zero _ _) E) as E'.
      clear -E'. induction vs as [|r t IH]; simpl; [reflexivity|].
      rewrite (E' r (or_introl eq_refl)). simpl. f_equal. apply IH.
      intros x Hx. apply E'. right. exact Hx. }
    split; [exact Hin|]. split; [reflexivity|]. split; [reflexivity|].
    unfold deleteVocabularyItem.handler, context, signed_in,
      deleteVocabularyItem.delete_items.
    cbv beta delta [bind requireUser ret throw]. cbv beta iota. simpl.
    assert (Hz2 : rowsAffected (deleteVocabularyItem.where_ i user)
                    (delete_where (deleteVocabularyItem.where_ i user) (items db)) = 0)
      by (apply rowsAffected_zero, delete_where_none).
    rewrite Hz2. reflexivity.
  - split; [split; [discriminate|contradiction]|]. split; [tauto|].
    split; [discriminate|].
    split; [exact Hin|]. split; [reflexivity|]. split; [reflexivity|].
    unfold deleteVocabularyItem.handler, context, signed_in,
      deleteVocabularyItem.delete_items.
    cbv beta delta [bind requireUser ret throw]. cbv beta iota. simpl.
    assert (Hz2 : rowsAffected (deleteVocabularyItem.where_ i user)
                    (delete_where (deleteVocabularyItem.where_ i user) (items db)) = 0)
      by (apply rowsAffected_zero, delete_where_none).
    rewrite Hz2. reflexivity.
Qed.

Example delete_twice :
  let first := deleteVocabularyItem.handler delete_v1 (signed_in alice) sample_env
                 sample_db in
  fst first = Return tt
  /\ fst (deleteVocabularyItem.handler delete_v1 (signed_in alice) sample_env (snd first))
     = Throw NOT_FOUND
  /\ fst (deleteVocabularyItem.handler delete_v1 (signed_in bob) sample_env sample_db)
     = Throw NOT_FOUND.
Proof. vm_compute. repeat split. Qed.

Lemma deleteVocabularyItem_not_found_iff_witness :
  fst (deleteVocabularyItem.handler delete_v1 (signed_in alice) sample_env
         (snd (deleteVocabularyItem.handler delete_v1 (signed_in alice) sample_env
                 sample_db)))
  = Throw NOT_FOUND.
Proof.
  destruct (deleteVocabularyItem_not_found_iff delete_v1 alice sample_env sample_db)
    as [_ [_ [_ [_ [_ [_ [_ H]]]]]]].
  exact H.
Defined.

(** ** The paginated lists *)

Lemma offset_nat (i : page_input) :
  Z.to_nat (page_offset i) = (Pos.to_nat (page i) - 1) * Pos.to_nat (pageSize i).
Proof.
  unfold page_offset.
  rewrite Z2Nat.inj_mul by lia.
  rewrite Z2Nat.inj_sub by lia.
  rewrite !Z2Nat.inj_pos. reflexivity.
Qed.

Lemma listVocabularyItems_run i context env db :
  listVocabularyItems.handler i context env db
  = match locals_user context with
    | None => (Throw UNAUTHORIZED, db)
    | Some user =>
        let items :=
          firstn (Pos.to_nat (pageSize i))
            (skipn ((Pos.to_nat (page i) - 1) * Pos.to_nat (pageSize i))
               (select_where (listVocabularyItems.where_ i user) (items db))) in
        (Return {| page_items := items; page_total := List.length items;
                   page_page := page i; page_pageSize := pageSize i |}, db)
    end.
Proof.
  unfold listVocabularyItems.handler, limit_offset.
  cbv beta delta [bind requireUser read ret throw]. cbv beta iota.
  destruct (locals_user context); [|reflexivity].
  rewrite offset_nat, Z2Nat.inj_pos. reflexivity.
Qed.

Lemma listPracticeSessions_run i context env db :
  listPracticeSessions.handler i context env db
  = match locals_user context with
    | None => (Throw UNAUTHORIZED, db)
    | Some user =>
        let items :=
          firstn (Pos.to_nat (pageSize i))
            (skipn ((Pos.to_nat (page i) - 1) * Pos.to_nat (pageSize i))
               (select_where (listPracticeSessions.where_ i user) (sessions db))) in
        (Return {| page_items := items; page_total := List.length items;
                   page_page := page i; page_pageSize := pageSize i |}, db)
    end.
Proof.
  unfold listPracticeSessions.handler, limit_offset.
  cbv beta delta [bind requireUser read ret throw]. cbv beta iota.
  destruct (locals_user context); [|reflexivity].
  rewrite offset_nat, Z2Nat.inj_pos. reflexivity.
Qed.

Lemma page_length {R : Type} (n k : nat) (rows : list R) :
  List.length (firstn n (skipn k rows)) = Nat.min n (List.length rows - k).
Proof. rewrite length_firstn, length_skipn. reflexivity. Qed.

(** C4 (as stated) fails: with three matching rows and pages of two, the
    second page has one row and reports a total of one. *)
Lemma total_of_last_page : ~ total_is_pageSize_as_specified.
Proof.
  intros Hspec.
  destruct (Hspec (page_of "p1" 2 2) alice sample_env sample_db _ _ eq_refl)
    as [_ H].
  vm_compute in H.
  assert (Hlt : 2 < 3) by lia.
  specialize (H Hlt). discriminate.
Qed.

(** C4 (amended): in both paginated lists the total is the number of items
    on the returned page, that is [min pageSize (max 0 (M - offset))] for
    [M] matching rows and [offset = (page - 1) * pageSize]; it never exceeds
    the page size, so it is below [M] when more than a page of rows match;
    and it is the page size exactly on the full pages, those with
    [offset + pageSize <= M], the first one among them. *)
Theorem total_is_page_length :
  forall i user env db,
    let n := Pos.to_nat (pageSize i) in
    let offset := (Pos.to_nat (page i) - 1) * n in
    (forall d db',
        listVocabularyItems.handler i (signed_in user) env db = (Return d, db') ->
        let m := List.length (select_where (listVocabularyItems.where_ i user) (items db)) in
        page_total d = List.length (page_items d)
        /\ Z.of_nat (page_total d)
           = Z.min (Z.pos (pageSize i)) (Z.max 0 (Z.of_nat m - page_offset i))
        /\ page_total d <= n
        /\ (n < m -> page_total d < m)
        /\ (offset + n <= m -> page_total d = n)
        /\ (page i = 1%positive -> n <= m -> page_total d = n))
    /\ (forall d db',
        listPracticeSessions.handler i (signed_in user) env db = (Return d, db') ->
        let m := List.length (select_where (listPracticeSessions.where_ i user)
                                (sessions db)) in
        page_total d = List.length (page_items d)
        /\ Z.of_nat (page_total d)
           = Z.min (Z.pos (pageSize i)) (Z.max 0 (Z.of_nat m - page_offset i))
        /\ page_total d <= n
        /\ (n < m -> page_total d < m)
        /\ (offset + n <= m -> page_total d = n)
        /\ (page i = 1%positive -> n <= m -> page_total d = n)).
Proof.
  intros i user env db n offset.
  assert (Hoff : Z.to_nat (page_offset i) = offset) by apply offset_nat.
  assert (Hpos : (0 <= page_offset i)%Z)
    by (unfold page_offset; apply Z.mul_nonneg_nonneg; lia).
  split.
  - intros d db' H m. rewrite listVocabularyItems_run in H. simpl in H.
    injection H as <- _. simpl. rewrite page_length.
    fold n. fold offset. fold m.
    repeat split; lia.
  - intros d db' H m. rewrite listPracticeSessions_run in H. simpl in H.
    injection H as <- _. simpl. rewrite page_length.
    fold n. fold offset. fold m.
    repeat split; lia.
Qed.

Lemma total_is_page_length_witness :
  exists d db',
    listVocabularyItems.handler (page_of "p1" 1 2) (signed_in alice) sample_env sample_db
    = (Return d, db')
    /\ page_total d = 2 /\ List.length (page_items d) = 2.
Proof.
  eexists. eexists. split; [vm_compute; reflexivity|].
  destruct (proj1 (total_is_page_length (page_of "p1" 1 2) alice sample_env sample_db)
              _ _ eq_refl) as [H1 [_ [_ [_ [_ H6]]]]].
  assert (Hfull : Pos.to_nat 2 <= 3) by (vm_compute; lia).
  split.
  - exact (H6 eq_refl Hfull).
  - exact (eq_trans (eq_sym H1) (H6 eq_refl Hfull)).
Defined.

Lemma NoDup_app_disjoint {A : Type} (l1 l2 : list A) (x : A) :
  NoDup (l1 ++ l2) -> In x l1 -> In x l2 -> False.
Proof.
  induction l1 as [|a l1 IH]; simpl; intros Hnd H1 H2; [contradiction|].
  inversion Hnd as [|? ? Hnotin Hnd']; subst.
  destruct H1 as [->|H1].
  - apply Hnotin. apply in_or_app. right. exact H2.
  - exact (IH Hnd' H1 H2).
Qed.

(** C5: with [N+1] or more matching items in a store that does not change
    between the calls, every page [p] of size [N] is the [N] matching rows
    after the first [(p-1)*N]; page 1 is the first [N] matching rows, page 2
    starts right after them and is not empty, the matching rows are page 1,
    then page 2, then the rest, and no item is on both pages. *)
Theorem pagination_coherent :
  forall user profile (N : positive) env db,
    primary_keys db ->
    let n := Pos.to_nat N in
    let matching :=
      select_where (listVocabularyItems.where_ (page_of profile 1 N) user) (items db) in
    n + 1 <= List.length matching ->
    (forall p,
        exists d,
          listVocabularyItems.handler (page_of profile p N) (signed_in user) env db
          = (Return d, db)
          /\ page_items d = firstn n (skipn ((Pos.to_nat p - 1) * n) matching))
    /\ exists first second,
         listVocabularyItems.handler (page_of profile 1 N) (signed_in user) env db
         = (Return first, db)
         /\ listVocabularyItems.handler (page_of profile 2 N) (signed_in user) env db
            = (Return second, db)
         /\ page_items first = firstn n matching
         /\ page_items second = firstn n (skipn n matching)
         /\ List.length (page_items first) = n
         /\ page_items second <> []
         /\ matching = page_items first ++ page_items second ++ skipn (n + n) matching
         /\ (forall v w, In v (page_items first) -> In w (page_items second) ->
               VocabularyItems.id v <> VocabularyItems.id w).
Proof.
  intros user profile N env db [_ [Hpk _]] n matching Hlen.
  assert (Hpage : forall p,
    listVocabularyItems.handler (page_of profile p N) (signed_in user) env db
    = (Return {| page_items := firstn n (skipn ((Pos.to_nat p - 1) * n) matching);
                 page_total := List.length
                   (firstn n (skipn ((Pos.to_nat p - 1) * n) matching));
                 page_page := p; page_pageSize := N |}, db)).
  { intros p. rewrite listVocabularyItems_run. reflexivity. }
  split.
  - intros p. eexists. split; [apply Hpage|reflexivity].
  - eexists. eexists.
    split; [apply Hpage|]. split; [apply Hpage|].
    cbn [page_items].
    replace ((Pos.to_nat 1 - 1) * n) with 0 by (simpl; lia).
    replace ((Pos.to_nat 2 - 1) * n) with n by (simpl; lia).
    cbn [skipn].
    assert (Hsplit : matching
              = firstn n matching ++ firstn n (skipn n matching)
                ++ skipn (n + n) matching).
    { rewrite <- skipn_skipn, firstn_skipn, firstn_skipn. reflexivity. }
    split; [reflexivity|]. split; [reflexivity|].
    split; [rewrite length_firstn; lia|].
    split.
    { intros Hnil.
      assert (Hl : List.length (firstn n (skipn n matching)) = 0)
        by (rewrite Hnil; reflexivity).
      rewrite page_length in Hl. lia. }
    split; [exact Hsplit|].
    intros v w Hv Hw Heq.
    assert (Hnd : NoDup (map VocabularyItems.id matching))
      by (apply NoDup_map_filter; exact Hpk).
    rewrite Hsplit, map_app in Hnd.
    apply (NoDup_app_disjoint _ _ (VocabularyItems.id v) Hnd).
    + apply in_map. exact Hv.
    + rewrite Heq, map_app. apply in_or_app. left. apply in_map. exact Hw.
Qed.

Lemma pagination_coherent_witness :
  primary_keys sample_db
  /\ Pos.to_nat 2 + 1
     <= List.length (select_where (listVocabularyItems.where_ (page_of "p1" 1 2) alice)
                       (items sample_db))
  /\ exists first second,
       listVocabularyItems.handler (page_of "p1" 1 2) (signed_in alice) sample_env
         sample_db = (Return first, sample_db)
       /\ listVocabularyItems.handler (page_of "p1" 2 2) (signed_in alice) sample_env
            sample_db = (Return second, sample_db)
       /\ map VocabularyItems.id (page_items first) = ["v1"; "v2"]
       /\ map VocabularyItems.id (page_items second) = ["v3"].
Proof.
  assert (Hlen : Pos.to_nat 2 + 1
     <= List.length (select_where (listVocabularyItems.where_ (page_of "p1" 1 2) alice)
                       (items sample_db))) by (vm_compute; lia).
  split; [exact (proj1 sample_db_wf)|]. split; [exact Hlen|].
  destruct (proj2 (pagination_coherent alice "p1" 2 sample_env sample_db
                     (proj1 sample_db_wf) Hlen))
    as [first [second [H1 [H2 [H3 [H4 _]]]]]].
  exists first, second.
  split; [exact H1|]. split; [exact H2|].
  rewrite H3, H4. split; reflexivity.
Defined.

(** C9: [listVocabularyItems] does not read the profiles table: replacing
    that table by any other leaves the outcome unchanged; for a signed-in
    caller it always returns, whatever [languageProfileId] is, and writes
    nothing; and when the caller owns no item under that
    [languageProfileId] the page is empty with total 0. *)
Theorem listVocabularyItems_ignores_profiles :
  forall i user env db,
    (forall other_profiles,
        fst (listVocabularyItems.handler i (signed_in user) env
               (with_profiles other_profiles db))
        = fst (listVocabularyItems.handler i (signed_in user) env db))
    /\ (exists d, listVocabularyItems.handler i (signed_in user) env db = (Return d, db))
    /\ ((forall v, In v (items db) ->
           VocabularyItems.languageProfileId v = languageProfileId i ->
           VocabularyItems.userId v <> user_id user) ->
        listVocabularyItems.handler i (signed_in user) env db
        = (Return {| page_items := []; page_total := 0;
                     page_page := page i; page_pageSize := pageSize i |}, db)).
Proof.
  intros i user env db. split; [|split].
  - intros other_profiles. rewrite !listVocabularyItems_run. reflexivity.
  - rewrite listVocabularyItems_run. simpl. eexists. reflexivity.
  - intros Hnone. rewrite listVocabularyItems_run. simpl.
    assert (Hsel : select_where (listVocabularyItems.where_ i user) (items db) = []).
    { destruct (select_where (listVocabularyItems.where_ i user) (items db))
        as [|v rest] eqn:E; [reflexivity|].
      apply select_cons in E. destruct E as [_ [Hin Hc]].
      apply andb_prop in Hc. destruct Hc as [Hp Hu].
      apply String.eqb_eq in Hp, Hu.
      exfalso. exact (Hnone v Hin Hp Hu). }
    rewrite Hsel, skipn_nil, firstn_nil. reflexivity.
Qed.

Lemma listVocabularyItems_ignores_profiles_witness :
  listVocabularyItems.handler (page_of "p2" 1 20) (signed_in alice) sample_env sample_db
  = (Return {| page_items := []; page_total := 0;
               page_page := 1; page_pageSize := 20 |}, sample_db)
  /\ listVocabularyItems.handler (page_of "no-such-profile" 1 20) (signed_in alice)
       sample_env sample_db
     = (Return {| page_items := []; page_total := 0;
                  page_page := 1; page_pageSize := 20 |}, sample_db).
Proof.
  split.
  - apply (proj2 (proj2 (listVocabularyItems_ignores_profiles (page_of "p2" 1 20)
                           alice sample_env sample_db))).
    simpl. intros v Hin Hp.
    repeat (destruct Hin as [<-|Hin]; [try discriminate Hp; simpl; discriminate|]).
    destruct Hin.
  - apply (proj2 (proj2 (listVocabularyItems_ignores_profiles
                           (page_of "no-such-profile" 1 20) alice sample_env sample_db))).
    simpl. intros v Hin Hp.
    repeat (destruct Hin as [<-|Hin]; [try discriminate Hp; simpl; discriminate|]).
    destruct Hin.
Defined.

(** ** Cross-user isolation *)

Section Ownership.
Context {R : Type}.
Variable owner : R -> string.
Variable u : string.

Lemma owned_select (c : R -> bool) (t : list R) :
  scoped owner u c -> select_where c (owned owner u t) = select_where c t.
Proof.
  intros Hc. unfold select_where, owned.
  induction t as [|r t IH]; simpl; [reflexivity|].
  destruct (owner r =? u) eqn:E; simpl.
  - rewrite IH. reflexivity.
  - destruct (c r) eqn:Ec; [|exact IH].
    apply Hc in Ec. apply String.eqb_neq in E. contradiction.
Qed.

Lemma select_owned (c : R -> bool) (t : list R) :
  scoped owner u c -> Forall (fun r => owner r = u) (select_where c t).
Proof.
  intros Hc. apply Forall_forall. intros r Hin.
  unfold select_where in Hin. apply filter_In in Hin. apply Hc. tauto.
Qed.

Lemma foreign_update_kept (f : R -> R) (c : R -> bool) (t : list R) :
  scoped owner u c -> (forall r, owner (f r) = owner r) ->
  foreign owner u (update_where f c t) = foreign owner u t.
Proof.
  intros Hc Hf. unfold foreign, update_where.
  induction t as [|r t IH]; simpl; [reflexivity|].
  destruct (c r) eqn:Ec.
  - rewrite Hf, IH. apply Hc in Ec. rewrite Ec, String.eqb_refl. reflexivity.
  - rewrite IH. reflexivity.
Qed.

Lemma owned_update (f : R -> R) (c : R -> bool) (t : list R) :
  (forall r, owner (f r) = owner r) ->
  owned owner u (update_where f c t) = update_where f c (owned owner u t).
Proof.
  intros Hf. unfold owned, update_where.
  induction t as [|r t IH]; simpl; [reflexivity|].
  destruct (c r) eqn:Ec.
  - rewrite Hf. destruct (owner r =? u); simpl; rewrite ?Ec, IH; reflexivity.
  - destruct (owner r =? u); simpl; rewrite ?Ec, IH; reflexivity.
Qed.

Lemma foreign_delete (c : R -> bool) (t : list R) :
  scoped owner u c -> foreign owner u (delete_where c t) = foreign owner u t.
Proof.
  intros Hc. unfold foreign, delete_where.
  induction t as [|r t IH]; simpl; [reflexivity|].
  destruct (c r) eqn:Ec; simpl.
  - apply Hc in Ec. rewrite Ec, String.eqb_refl. simpl. exact IH.
  - rewrite IH. reflexivity.
Qed.

Lemma owned_delete (c : R -> bool) (t : list R) :
  owned owner u (delete_where c t) = delete_where c (owned owner u t).
Proof.
  unfold owned, delete_where.
  induction t as [|r t IH]; simpl; [reflexivity|].
  destruct (c r) eqn:Ec, (owner r =? u) eqn:E; simpl;
    rewrite ?Ec, ?E; simpl; rewrite ?IH; reflexivity.
Qed.

Lemma owned_rowsAffected (c : R -> bool) (t : list R) :
  scoped owner u c -> rowsAffected c (owned owner u t) = rowsAffected c t.
Proof.
  intros Hc. unfold rowsAffected. f_equal. apply (owned_select c t Hc).
Qed.

Lemma foreign_snoc (r : R) (t : list R) :
  owner r = u -> foreign owner u (t ++ [r]) = foreign owner u t.
Proof.
  intros Hr. unfold foreign. rewrite filter_app. simpl.
  rewrite Hr, String.eqb_refl. simpl. apply app_nil_r.
Qed.

Lemma owned_snoc (r : R) (t : list R) :
  owner r = u -> owned owner u (t ++ [r]) = owned owner u t ++ [r].
Proof.
  intros Hr. unfold owned. rewrite filter_app. simpl.
  rewrite Hr, String.eqb_refl. reflexivity.
Qed.

Lemma owned_fresh (key : R -> string) (k : string) (t : list R) :
  ~ In k (map key t) -> ~ In k (map key (owned owner u t)).
Proof.
  intros Hk Hin. apply Hk. apply in_map_iff in Hin.
  destruct Hin as [r [Hr Hin]]. unfold owned in Hin. apply filter_In in Hin.
  apply in_map_iff. exists r. tauto.
Qed.

Lemma owned_idem (t : list R) :
  owned owner u (owned owner u t) = owned owner u t.
Proof.
  unfold owned. induction t as [|r t IH]; simpl; [reflexivity|].
  destruct (owner r =? u) eqn:E; simpl; rewrite ?E, ?IH; reflexivity.
Qed.
End Ownership.

Lemma scoped_update_profile i a :
  scoped LanguageProfiles.userId (user_id a) (updateLanguageProfile.where_ i a).
Proof.
  intros r H. apply andb_prop in H. apply String.eqb_eq. tauto.
Qed.

Lemma scoped_list_profiles i a :
  scoped LanguageProfiles.userId (user_id a) (listMyLanguageProfiles.where_ i a).
Proof.
  intros r H. unfold listMyLanguageProfiles.where_ in H.
  destruct (listMyLanguageProfiles.includeInactive i).
  - apply String.eqb_eq. exact H.
  - apply andb_prop in H. apply String.eqb_eq. tauto.
Qed.

Lemma scoped_upsert_profile i a :
  scoped LanguageProfiles.userId (user_id a) (upsertVocabularyItem.where_profile i a).
Proof.
  intros r H. apply andb_prop in H. apply String.eqb_eq. tauto.
Qed.

Lemma scoped_upsert i a :
  scoped VocabularyItems.userId (user_id a) (upsertVocabularyItem.where_ i a).
Proof.
  intros r H. unfold upsertVocabularyItem.where_ in H.
  destruct (upsertVocabularyItem.id i); [|discriminate].
  apply andb_prop in H. apply String.eqb_eq. tauto.
Qed.

Lemma scoped_delete i a :
  scoped VocabularyItems.userId (user_id a) (deleteVocabularyItem.where_ i a).
Proof.
  intros r H. apply andb_prop in H. apply String.eqb_eq. tauto.
Qed.

Lemma scoped_list_items i a :
  scoped VocabularyItems.userId (user_id a) (listVocabularyItems.where_ i a).
Proof.
  intros r H. apply andb_prop in H. apply String.eqb_eq. tauto.
Qed.

Lemma scoped_start_profile i a :
  scoped LanguageProfiles.userId (user_id a) (startPracticeSession.where_profile i a).
Proof.
  intros r H. apply andb_prop in H. apply String.eqb_eq. tauto.
Qed.

Lemma scoped_complete i a :
  scoped PracticeSessions.userId (user_id a) (completePracticeSession.where_ i a).
Proof.
  intros r H. apply andb_prop in H. apply String.eqb_eq. tauto.
Qed.

Lemma scoped_list_sessions i a :
  scoped PracticeSessions.userId (user_id a) (listPracticeSessions.where_ i a).
Proof.
  intros r H. apply andb_prop in H. apply String.eqb_eq. tauto.
Qed.

Create HintDb scoped.

#[local] Hint Resolve scoped_update_profile scoped_list_profiles scoped_upsert_profile
  scoped_upsert scoped_delete scoped_list_items scoped_start_profile scoped_complete
  scoped_list_sessions : scoped.

Ltac exec :=
  unfold server, respond,
    createLanguageProfile.handler, updateLanguageProfile.handler,
    listMyLanguageProfiles.handler, upsertVocabularyItem.handler,
    deleteVocabularyItem.handler, deleteVocabularyItem.delete_items,
    listVocabularyItems.handler, startPracticeSession.handler,
    completePracticeSession.handler, listPracticeSessions.handler;
  cbv beta delta [bind requireUser read write ret throw insert_into signed_in
                  locals_user];
  cbv beta iota.

Ltac case_insert :=
  match goal with
  | |- context [insert_row ?k ?r ?t] =>
      let E := fresh "Hins" in
      destruct (insert_row k r t) eqn:E;
      [apply insert_row_Some in E; destruct E as [-> ?]|]
  end.

Ltac case_select c t :=
  let E := fresh "Hsel" in
  destruct (select_where c t) eqn:E.

Lemma server_keeps_others a req env db :
  others (user_id a) (snd (server req (signed_in a) env db)) = others (user_id a) db.
Proof.
  destruct req; exec.
  - case_insert; cbn [fst snd]; [|reflexivity].
    unfold others, with_profiles; cbn [profiles items sessions]. f_equal.
    apply foreign_snoc. reflexivity.
  - case_select (updateLanguageProfile.where_ i a) (profiles db);
      cbn [fst snd]; [reflexivity|].
    unfold others, with_profiles; cbn [profiles items sessions]. f_equal.
    apply foreign_update_kept; [auto with scoped|reflexivity].
  - reflexivity.
  - case_select (upsertVocabularyItem.where_profile i a) (profiles db);
      cbn [fst snd]; [reflexivity|].
    destruct (truthy (upsertVocabularyItem.id i)).
    + case_select (upsertVocabularyItem.where_ i a) (items db);
        cbn [fst snd]; [reflexivity|].
      unfold others, with_items; cbn [profiles items sessions]. f_equal.
      apply foreign_update_kept; [auto with scoped|reflexivity].
    + case_insert; cbn [fst snd]; [|reflexivity].
      unfold others, with_items; cbn [profiles items sessions]. f_equal.
      apply foreign_snoc. reflexivity.
  - destruct (rowsAffected _ _ =? 0)%nat; cbn [fst snd];
      unfold others, with_items; cbn [profiles items sessions]; f_equal;
      apply foreign_delete; auto with scoped.
  - reflexivity.
  - case_select (startPracticeSession.where_profile i a) (profiles db);
      cbn [fst snd]; [reflexivity|].
    case_insert; cbn [fst snd]; [|reflexivity].
    unfold others, with_sessions; cbn [profiles items sessions]. f_equal.
    apply foreign_snoc. reflexivity.
  - case_select (completePracticeSession.where_ i a) (sessions db);
      cbn [fst snd]; [reflexivity|].
    unfold others, with_sessions; cbn [profiles items sessions]. f_equal.
    apply foreign_update_kept; [auto with scoped|reflexivity].
  - reflexivity.
Qed.

Lemma Forall_page {R : Type} (P : R -> Prop) (n k : Z) (rows : list R) :
  Forall P rows -> Forall P (limit_offset n k rows).
Proof.
  intros H. rewrite Forall_forall in *. intros r Hin. apply H.
  unfold limit_offset in Hin.
  rewrite <- (firstn_skipn (Z.to_nat k) rows). apply in_or_app. right.
  rewrite <- (firstn_skipn (Z.to_nat n) (skipn (Z.to_nat k) rows)).
  apply in_or_app. left. exact Hin.
Qed.

Lemma server_returns_owned a req env db d :
  fst (server req (signed_in a) env db) = Return d -> data_owned (user_id a) d.
Proof.
  destruct req; exec.
  - case_insert; cbn [fst snd]; intros Hret; [|discriminate].
    injection Hret as <-. reflexivity.
  - case_select (updateLanguageProfile.where_ i a) (profiles db);
      cbn [fst snd]; intros Hret; [discriminate|].
    injection Hret as <-. simpl.
    apply select_cons in Hsel. destruct Hsel as [_ [_ Hc]].
    exact (scoped_update_profile i a _ Hc).
  - cbn [fst snd]. intros Hret. injection Hret as <-. simpl.
    apply select_owned. auto with scoped.
  - case_select (upsertVocabularyItem.where_profile i a) (profiles db);
      cbn [fst snd]; [discriminate|].
    destruct (truthy (upsertVocabularyItem.id i)).
    + case_select (upsertVocabularyItem.where_ i a) (items db);
        cbn [fst snd]; intros Hret; [discriminate|].
      injection Hret as <-. reflexivity.
    + case_insert; cbn [fst snd]; intros Hret; [|discriminate].
      injection Hret as <-. reflexivity.
  - destruct (rowsAffected _ _ =? 0)%nat; cbn [fst snd]; intros Hret; [discriminate|].
    injection Hret as <-. exact I.
  - cbn [fst snd]. intros Hret. injection Hret as <-. simpl.
    apply Forall_page. apply select_owned. auto with scoped.
  - case_select (startPracticeSession.where_profile i a) (profiles db);
      cbn [fst snd]; [discriminate|].
    case_insert; cbn [fst snd]; intros Hret; [|discriminate].
    injection Hret as <-. reflexivity.
  - case_select (completePracticeSession.where_ i a) (sessions db);
      cbn [fst snd]; intros Hret; [discriminate|].
    injection Hret as <-. simpl.
    apply select_cons in Hsel. destruct Hsel as [_ [_ Hc]].
    exact (scoped_complete i a _ Hc).
  - cbn [fst snd]. intros Hret. injection Hret as <-. simpl.
    apply Forall_page. apply select_owned. auto with scoped.
Qed.

Ltac on_tables :=
  unfold view, with_profiles, with_items, with_sessions; cbn [profiles items sessions].

(** What a signed-in caller gets, and what becomes of its own rows, is
    what the same request gives on a store that holds its rows only. *)
Lemma server_on_view a req env db :
  fresh_uuid env db ->
  fst (server req (signed_in a) env (view (user_id a) db))
  = fst (server req (signed_in a) env db)
  /\ snd (server req (signed_in a) env (view (user_id a) db))
     = view (user_id a) (snd (server req (signed_in a) env db)).
Proof.
  intros [Hfp [Hfv Hfs]].
  destruct req; exec; on_tables.
  - rewrite !insert_row_fresh by (try apply owned_fresh; exact Hfp).
    cbn [fst snd]. split; [reflexivity|].
    on_tables. f_equal. symmetry. apply owned_snoc. reflexivity.
  - rewrite !owned_select by auto with scoped.
    case_select (updateLanguageProfile.where_ i a) (profiles db);
      cbn [fst snd]; split; try reflexivity.
    on_tables. f_equal. symmetry. apply owned_update. reflexivity.
  - rewrite !owned_select by auto with scoped. split; reflexivity.
  - rewrite !owned_select by auto with scoped.
    case_select (upsertVocabularyItem.where_profile i a) (profiles db);
      cbn [fst snd]; [split; reflexivity|].
    destruct (truthy (upsertVocabularyItem.id i)).
    + cbv beta iota. on_tables. rewrite !owned_select by auto with scoped.
      case_select (upsertVocabularyItem.where_ i a) (items db);
        cbn [fst snd]; split; try reflexivity.
      on_tables. f_equal. symmetry. apply owned_update. reflexivity.
    + rewrite !insert_row_fresh by (try apply owned_fresh; exact Hfv).
      cbn [fst snd]. split; [reflexivity|].
      on_tables. f_equal. symmetry. apply owned_snoc. reflexivity.
  - rewrite owned_rowsAffected by auto with scoped.
    destruct (rowsAffected _ _ =? 0)%nat; cbn [fst snd]; split; try reflexivity;
      unfold view; on_tables; f_equal; symmetry; apply owned_delete.
  - rewrite !owned_select by auto with scoped. split; reflexivity.
  - rewrite !owned_select by auto with scoped.
    case_select (startPracticeSession.where_profile i a) (profiles db);
      cbn [fst snd]; [split; reflexivity|].
    rewrite !insert_row_fresh by (try apply owned_fresh; exact Hfs).
    cbn [fst snd]. split; [reflexivity|].
    on_tables. f_equal. symmetry. apply owned_snoc. reflexivity.
  - rewrite !owned_select by auto with scoped.
    case_select (completePracticeSession.where_ i a) (sessions db);
      cbn [fst snd]; split; try reflexivity.
    on_tables. f_equal. symmetry. apply owned_update. reflexivity.
  - rewrite !owned_select by auto with scoped. split; reflexivity.
Qed.

Lemma pk_unique {R : Type} (key : R -> string) (t : list R) (x y : R) :
  NoDup (map key t) -> In x t -> In y t -> key x = key y -> x = y.
Proof.
  induction t as [|r t IH]; simpl; intros Hnd Hx Hy Hk; [contradiction|].
  inversion Hnd as [|? ? Hnotin Hnd']; subst.
  destruct Hx as [->|Hx], Hy as [->|Hy].
  - reflexivity.
  - exfalso. apply Hnotin. rewrite Hk. apply in_map. exact Hy.
  - exfalso. apply Hnotin. rewrite <- Hk. apply in_map. exact Hx.
  - apply IH; assumption.
Qed.

(** A row of another identity under key [k] leaves nothing for a condition
    on [k] and the caller. *)
Lemma select_other {R : Type} (key owner : R -> string) (k u : string)
    (c : R -> bool) (t : list R) (p : R) :
  NoDup (map key t) -> In p t -> key p = k -> owner p <> u ->
  (forall r, c r = true -> key r = k /\ owner r = u) ->
  select_where c t = [].
Proof.
  intros Hnd Hp Hk Hu Hc.
  destruct (select_where c t) as [|r rest] eqn:E; [reflexivity|].
  apply select_cons in E. destruct E as [_ [Hin Hr]].
  apply Hc in Hr. destruct Hr as [Hrk Hru].
  assert (r = p) by (apply (pk_unique key t); congruence).
  subst r. contradiction.
Qed.

Lemma delete_where_nothing {R : Type} (c : R -> bool) (t : list R) :
  select_where c t = [] -> delete_where c t = t /\ rowsAffected c t = 0.
Proof.
  intros H. split; [|unfold rowsAffected, select_where in *; rewrite H; reflexivity].
  pose proof (select_nil c t H) as Hn. clear H.
  unfold delete_where. induction t as [|r t IH]; simpl; [reflexivity|].
  rewrite (Hn r (or_introl eq_refl)). simpl. f_equal. apply IH.
  intros x Hx. apply Hn. right. exact Hx.
Qed.

Lemma with_items_same db : with_items (items db) db = db.
Proof. destruct db; reflexivity. Qed.

Lemma server_refuses_others a req env db :
  primary_keys db -> targets_other (user_id a) req db ->
  server req (signed_in a) env db = (Throw NOT_FOUND, db).
Proof.
  intros [Hpp [Hpv Hps]] Ht.
  destruct req; simpl in Ht; try contradiction; exec.
  - destruct Ht as [p [Hin [Hk Hu]]].
    rewrite (select_other LanguageProfiles.id LanguageProfiles.userId
               (updateLanguageProfile.id i) (user_id a) _ _ p Hpp Hin Hk Hu);
      [reflexivity|].
    intros r Hr. apply andb_prop in Hr. rewrite <- !String.eqb_eq. exact Hr.
  - destruct Ht as [[p [Hin [Hk Hu]]]|[k [Hid [Hne [v [Hin [Hk Hu]]]]]]].
    + rewrite (select_other LanguageProfiles.id LanguageProfiles.userId
                 (upsertVocabularyItem.languageProfileId i) (user_id a) _ _ p
                 Hpp Hin Hk Hu);
        [reflexivity|].
      intros r Hr. apply andb_prop in Hr. rewrite <- !String.eqb_eq. exact Hr.
    + case_select (upsertVocabularyItem.where_profile i a) (profiles db);
        [reflexivity|].
      assert (Htr : truthy (upsertVocabularyItem.id i) = true).
      { rewrite Hid. simpl. destruct (k =? "") eqn:E; [|reflexivity].
        apply String.eqb_eq in E. contradiction. }
      rewrite Htr.
      rewrite (select_other VocabularyItems.id VocabularyItems.userId
                 k (user_id a) _ _ v Hpv Hin Hk Hu);
        [reflexivity|].
      intros r0 Hr. unfold upsertVocabularyItem.where_ in Hr. rewrite Hid in Hr.
      apply andb_prop in Hr. rewrite <- !String.eqb_eq. exact Hr.
  - destruct Ht as [v [Hin [Hk Hu]]].
    assert (Hsel : select_where (deleteVocabularyItem.where_ i a) (items db) = []).
    { apply (select_other VocabularyItems.id VocabularyItems.userId
               (deleteVocabularyItem.id i) (user_id a) _ _ v Hpv Hin Hk Hu).
      intros r Hr. apply andb_prop in Hr. rewrite <- !String.eqb_eq. exact Hr. }
    apply delete_where_nothing in Hsel. destruct Hsel as [-> ->].
    simpl. rewrite with_items_same. reflexivity.
  - destruct Ht as [p [Hin [Hk Hu]]].
    rewrite (select_other LanguageProfiles.id LanguageProfiles.userId
               (startPracticeSession.languageProfileId i) (user_id a) _ _ p
               Hpp Hin Hk Hu);
      [reflexivity|].
    intros r Hr. apply andb_prop in Hr. rewrite <- !String.eqb_eq. exact Hr.
  - destruct Ht as [s [Hin [Hk Hu]]].
    rewrite (select_other PracticeSessions.id PracticeSessions.userId
               (completePracticeSession.id i) (user_id a) _ _ s Hps Hin Hk Hu);
      [reflexivity|].
    intros r Hr. apply andb_prop in Hr. rewrite <- !String.eqb_eq. exact Hr.
Qed.

Lemma limit_offset_nil {R : Type} (n k : Z) : limit_offset n k (@nil R) = [].
Proof. unfold limit_offset. rewrite skipn_nil, firstn_nil. reflexivity. Qed.

Lemma server_lists_nothing_of_others a req env db :
  wf db -> lists_other (user_id a) req db ->
  exists d, empty_page req = Some d /\ server req (signed_in a) env db = (Return d, db).
Proof.
  intros [[Hpp _] [Hrv Hrs]] Hl.
  destruct req; simpl in Hl; try contradiction;
    destruct Hl as [p [Hin [Hk Hu]]]; simpl; eexists; (split; [reflexivity|]); exec.
  - assert (Hsel : select_where (listVocabularyItems.where_ i a) (items db) = []).
    { destruct (select_where (listVocabularyItems.where_ i a) (items db))
        as [|v rest] eqn:E; [reflexivity|].
      apply select_cons in E. destruct E as [_ [Hv Hc]].
      apply andb_prop in Hc. destruct Hc as [Hc1 Hc2].
      apply String.eqb_eq in Hc1, Hc2.
      destruct (Hrv v Hv) as [q [Hq [Hqk Hqu]]].
      assert (q = p) by (apply (pk_unique LanguageProfiles.id (profiles db)); congruence).
      subst q. exfalso. apply Hu. congruence. }
    rewrite Hsel, limit_offset_nil. reflexivity.
  - assert (Hsel : select_where (listPracticeSessions.where_ i a) (sessions db) = []).
    { destruct (select_where (listPracticeSessions.where_ i a) (sessions db))
        as [|s rest] eqn:E; [reflexivity|].
      apply select_cons in E. destruct E as [_ [Hs Hc]].
      apply andb_prop in Hc. destruct Hc as [Hc1 Hc2].
      apply String.eqb_eq in Hc1, Hc2.
      destruct (Hrs s Hs) as [q [Hq [Hqk Hqu]]].
      assert (q = p) by (apply (pk_unique LanguageProfiles.id (profiles db)); congruence).
      subst q. exfalso. apply Hu. congruence. }
    rewrite Hsel, limit_offset_nil. reflexivity.
Qed.

(** C1: for a signed-in caller [a] and any request,
    - no row owned by another identity is added, changed or removed;
    - every row in the response is owned by [a];
    - the response, and what becomes of [a]'s own rows, are the same on any
      two stores that hold the same rows of [a] (the identifier drawn for
      an insert being unused in both);
    - naming a profile, item or session of another identity to update,
      attach to, overwrite, delete or complete throws NOT_FOUND and writes
      nothing;
    - listing under a profile of another identity returns the empty page. *)
Theorem cross_user_isolation :
  forall a req env db,
    others (user_id a) (snd (server req (signed_in a) env db)) = others (user_id a) db
    /\ (forall d, fst (server req (signed_in a) env db) = Return d ->
          data_owned (user_id a) d)
    /\ (forall db2,
          view (user_id a) db = view (user_id a) db2 ->
          fresh_uuid env db -> fresh_uuid env db2 ->
          fst (server req (signed_in a) env db) = fst (server req (signed_in a) env db2)
          /\ view (user_id a) (snd (server req (signed_in a) env db))
             = view (user_id a) (snd (server req (signed_in a) env db2)))
    /\ (primary_keys db -> targets_other (user_id a) req db ->
          server req (signed_in a) env db = (Throw NOT_FOUND, db))
    /\ (wf db -> lists_other (user_id a) req db ->
          exists d, empty_page req = Some d
                    /\ server req (signed_in a) env db = (Return d, db)).
Proof.
  intros a req env db.
  split; [apply server_keeps_others|].
  split; [intros d; apply server_returns_owned|].
  split.
  { intros db2 Hview Hf1 Hf2.
    destruct (server_on_view a req env db Hf1) as [H1 H2].
    destruct (server_on_view a req env db2 Hf2) as [H3 H4].
    split.
    - rewrite <- H1, <- H3, Hview. reflexivity.
    - rewrite <- H2, <- H4, Hview. reflexivity. }
  split; [apply server_refuses_others|apply server_lists_nothing_of_others].
Qed.

Lemma cross_user_isolation_witness :
  (primary_keys sample_db
   /\ targets_other "alice" (UpdateLanguageProfile update_p2) sample_db
   /\ server (UpdateLanguageProfile update_p2) (signed_in alice) sample_env sample_db
      = (Throw NOT_FOUND, sample_db))
  /\ (wf sample_db
      /\ lists_other "alice" (ListVocabularyItems (page_of "p2" 1 20)) sample_db
      /\ exists d,
           empty_page (ListVocabularyItems (page_of "p2" 1 20)) = Some d
           /\ server (ListVocabularyItems (page_of "p2" 1 20)) (signed_in alice)
                sample_env sample_db = (Return d, sample_db)).
Proof.
  assert (Hbob : profile_of_other "alice" "p2" sample_db).
  { exists french. simpl. split; [right; left; reflexivity|].
    split; [reflexivity|discriminate]. }
  split.
  - split; [exact (proj1 sample_db_wf)|]. split; [exact Hbob|].
    exact (proj1 (proj2 (proj2 (proj2
             (cross_user_isolation alice (UpdateLanguageProfile update_p2)
                sample_env sample_db))))
             (proj1 sample_db_wf) Hbob).
  - split; [exact sample_db_wf|]. split; [exact Hbob|].
    exact (proj2 (proj2 (proj2 (proj2
             (cross_user_isolation alice (ListVocabularyItems (page_of "p2" 1 20))
                sample_env sample_db))))
             sample_db_wf Hbob).
Defined.

(** ** The invariants hold in every reachable store *)

Lemma refers_snoc ps r k u : refers ps k u -> refers (ps ++ [r]) k u.
Proof.
  intros [p [Hin H]]. exists p. split; [apply in_or_app; left; exact Hin|exact H].
Qed.

Lemma refers_update f c ps k u :
  (forall r, LanguageProfiles.id (f r) = LanguageProfiles.id r
             /\ LanguageProfiles.userId (f r) = LanguageProfiles.userId r) ->
  refers ps k u -> refers (update_where f c ps) k u.
Proof.
  intros Hf [p [Hin [Hk Hu]]].
  exists (if c p then f p else p). split.
  - apply In_update_where. exists p. auto.
  - destruct (c p); [|auto]. destruct (Hf p) as [-> ->]. auto.
Qed.

Lemma refers_found c ps k u p rest :
  (forall r, c r = (LanguageProfiles.id r =? k) && (LanguageProfiles.userId r =? u)) ->
  select_where c ps = p :: rest -> refers ps k u.
Proof.
  intros Hc Hsel. apply select_cons in Hsel. destruct Hsel as [_ [Hin Hp]].
  rewrite Hc in Hp. apply andb_prop in Hp. destruct Hp as [H1 H2].
  apply String.eqb_eq in H1, H2. exists p. auto.
Qed.

Lemma empty_db_wf : wf empty_db.
Proof.
  split.
  - repeat split; constructor.
  - split; intros r [].
Qed.

Lemma server_preserves_wf req context env db :
  wf db -> wf (snd (server req context env db)).
Proof.
  intros [[Hpp [Hpv Hps]] [Hrv Hrs]].
  destruct context as [[a|]];
    [|destruct req; exec; repeat split; assumption].
  unfold wf, primary_keys, owner_refs.
  destruct req; exec.
  - case_insert; cbn [fst snd]; on_tables; [|repeat split; assumption].
    repeat split; auto using refers_snoc.
    apply NoDup_map_snoc; assumption.
  - case_select (updateLanguageProfile.where_ i a) (profiles db);
      cbn [fst snd]; on_tables; [repeat split; assumption|].
    repeat split; auto.
    + rewrite map_update_stable by reflexivity. assumption.
    + intros v Hv. apply refers_update; [split; reflexivity|auto].
    + intros s Hs. apply refers_update; [split; reflexivity|auto].
  - cbn [fst snd]. repeat split; assumption.
  - case_select (upsertVocabularyItem.where_profile i a) (profiles db);
      cbn [fst snd]; [repeat split; assumption|].
    assert (Hprofile : refers (profiles db) (upsertVocabularyItem.languageProfileId i)
                         (user_id a))
      by (apply (refers_found _ _ _ _ _ _ (fun _ => eq_refl) Hsel)).
    destruct (truthy (upsertVocabularyItem.id i)).
    + case_select (upsertVocabularyItem.where_ i a) (items db);
        cbn [fst snd]; on_tables; [repeat split; assumption|].
      repeat split; auto.
      * rewrite map_update_stable by reflexivity. assumption.
      * intros v Hv. apply In_update_where in Hv. destruct Hv as [w [Hw ->]].
        destruct (upsertVocabularyItem.where_ i a w) eqn:Ew; [|auto].
        simpl. rewrite (scoped_upsert i a w Ew). exact Hprofile.
    + case_insert; cbn [fst snd]; on_tables; [|repeat split; assumption].
      repeat split; auto.
      * apply NoDup_map_snoc; assumption.
      * intros v Hv. apply in_app_or in Hv. destruct Hv as [Hv|[<-|[]]]; auto.
  - destruct (rowsAffected _ _ =? 0)%nat; cbn [fst snd]; on_tables;
      (repeat split; auto;
       [apply NoDup_map_filter; assumption
       |intros v Hv; apply Hrv; unfold delete_where in Hv;
        apply filter_In in Hv; tauto]).
  - cbn [fst snd]. repeat split; assumption.
  - case_select (startPracticeSession.where_profile i a) (profiles db);
      cbn [fst snd]; [repeat split; assumption|].
    assert (Hprofile : refers (profiles db) (startPracticeSession.languageProfileId i)
                         (user_id a))
      by (apply (refers_found _ _ _ _ _ _ (fun _ => eq_refl) Hsel)).
    case_insert; cbn [fst snd]; on_tables; [|repeat split; assumption].
    repeat split; auto.
    + apply NoDup_map_snoc; assumption.
    + intros s Hs. apply in_app_or in Hs. destruct Hs as [Hs|[<-|[]]]; auto.
  - case_select (completePracticeSession.where_ i a) (sessions db);
      cbn [fst snd]; on_tables; [repeat split; assumption|].
    repeat split; auto.
    + rewrite map_update_stable by reflexivity. assumption.
    + intros s Hs. apply In_update_where in Hs. destruct Hs as [w [Hw ->]].
      destruct (completePracticeSession.where_ i a w); [|auto].
      simpl. auto.
  - cbn [fst snd]. repeat split; assumption.
Qed.

(** ** Failures *)

(** X1: an action called without a signed-in user throws UNAUTHORIZED
    before it touches the store, whatever the request. *)
Theorem signed_out_is_unauthorized :
  forall req env db, server req signed_out env db = (Throw UNAUTHORIZED, db).
Proof. intros req env db. destruct req; reflexivity. Qed.

Lemma select_where_nil_iff {R : Type} (c : R -> bool) (t : list R) :
  select_where c t = [] <-> (forall r, In r t -> c r = false).
Proof.
  split; [apply select_nil|].
  intros H. destruct (select_where c t) as [|x rest] eqn:E; [reflexivity|].
  apply select_cons in E. destruct E as [_ [Hin Hc]].
  rewrite (H x Hin) in Hc. discriminate.
Qed.

Lemma rowsAffected_select {R : Type} (c : R -> bool) (t : list R) :
  rowsAffected c t = 0 <-> select_where c t = [].
Proof.
  unfold rowsAffected, select_where. split.
  - intros H. destruct (filter c t); [reflexivity|discriminate].
  - intros ->. reflexivity.
Qed.

(** X2: an action that does not return (it throws, or the store refuses an
    insert) leaves the three tables exactly as they were. *)
Theorem failed_action_writes_nothing :
  forall req context env db outcome db',
    server req context env db = (outcome, db') ->
    (forall d, outcome <> Return d) ->
    db' = db.
Proof.
  intros req context env db outcome db' H Hfail.
  destruct context as [[a|]];
    [|destruct req; injection H as _ <-; reflexivity].
  change {| locals_user := Some a |} with (signed_in a) in H.
  revert H. destruct req; exec.
  - case_insert; intros Hrun; injection Hrun as <- <-; [|reflexivity].
    exfalso. eapply Hfail. reflexivity.
  - case_select (updateLanguageProfile.where_ i a) (profiles db);
      intros Hrun; injection Hrun as <- <-; [reflexivity|].
    exfalso. eapply Hfail. reflexivity.
  - intros Hrun. injection Hrun as <- <-. reflexivity.
  - case_select (upsertVocabularyItem.where_profile i a) (profiles db);
      [intros Hrun; injection Hrun as <- <-; reflexivity|].
    destruct (truthy (upsertVocabularyItem.id i)).
    + case_select (upsertVocabularyItem.where_ i a) (items db);
        intros Hrun; injection Hrun as <- <-; [reflexivity|].
      exfalso. eapply Hfail. reflexivity.
    + case_insert; intros Hrun; injection Hrun as <- <-; [|reflexivity].
      exfalso. eapply Hfail. reflexivity.
  - destruct (Nat.eqb_spec
                (rowsAffected (deleteVocabularyItem.where_ i a) (items db)) 0) as [E|E];
      intros Hrun; injection Hrun as <- <-.
    + apply rowsAffected_select in E. apply delete_where_nothing in E.
      destruct E as [-> _]. apply with_items_same.
    + exfalso. eapply Hfail. reflexivity.
  - intros Hrun. injection Hrun as <- <-. reflexivity.
  - case_select (startPracticeSession.where_profile i a) (profiles db);
      [intros Hrun; injection Hrun as <- <-; reflexivity|].
    case_insert; intros Hrun; injection Hrun as <- <-; [|reflexivity].
    exfalso. eapply Hfail. reflexivity.
  - case_select (completePracticeSession.where_ i a) (sessions db);
      intros Hrun; injection Hrun as <- <-; [reflexivity|].
    exfalso. eapply Hfail. reflexivity.
  - intros Hrun. injection Hrun as <- <-. reflexivity.
Qed.

Lemma failed_action_writes_nothing_witness :
  exists outcome db',
    server (CreateLanguageProfile create_german) (signed_in alice)
      {| now := 6000%Z; randomUUID := "p1" |} sample_db = (outcome, db')
    /\ outcome = StoreFault /\ db' = sample_db.
Proof.
  eexists. eexists. split; [vm_compute; reflexivity|].
  split; [reflexivity|].
  apply (failed_action_writes_nothing (CreateLanguageProfile create_german)
           (signed_in alice) {| now := 6000%Z; randomUUID := "p1" |} sample_db
           StoreFault _ eq_refl).
  intros d. discriminate.
Defined.

Lemma refers_select c ps k u :
  (forall r, c r = (LanguageProfiles.id r =? k) && (LanguageProfiles.userId r =? u)) ->
  (select_where c ps = [] <-> ~ refers ps k u).
Proof.
  intros Hc. rewrite select_where_nil_iff. split.
  - intros H [p [Hin [Hk Hu]]]. specialize (H p Hin).
    rewrite Hc, Hk, Hu, !String.eqb_refl in H. discriminate.
  - intros H r Hin. destruct (c r) eqn:E; [|reflexivity].
    exfalso. apply H. exists r. rewrite Hc in E. apply andb_prop in E.
    rewrite <- !String.eqb_eq. tauto.
Qed.

Lemma owns_item_select c u k db :
  (forall r, c r = (VocabularyItems.id r =? k) && (VocabularyItems.userId r =? u)) ->
  (select_where c (items db) = [] <-> ~ owns_item u k db).
Proof.
  intros Hc. rewrite select_where_nil_iff. split.
  - intros H [p [Hin [Hk Hu]]]. specialize (H p Hin).
    rewrite Hc, Hk, Hu, !String.eqb_refl in H. discriminate.
  - intros H r Hin. destruct (c r) eqn:E; [|reflexivity].
    exfalso. apply H. exists r. rewrite Hc in E. apply andb_prop in E.
    rewrite <- !String.eqb_eq. tauto.
Qed.

Lemma owns_session_select c u k db :
  (forall r, c r = (PracticeSessions.id r =? k) && (PracticeSessions.userId r =? u)) ->
  (select_where c (sessions db) = [] <-> ~ owns_session u k db).
Proof.
  intros Hc. rewrite select_where_nil_iff. split.
  - intros H [p [Hin [Hk Hu]]]. specialize (H p Hin).
    rewrite Hc, Hk, Hu, !String.eqb_refl in H. discriminate.
  - intros H r Hin. destruct (c r) eqn:E; [|reflexivity].
    exfalso. apply H. exists r. rewrite Hc in E. apply andb_prop in E.
    rewrite <- !String.eqb_eq. tauto.
Qed.

Lemma truthy_iff s : truthy s = true <-> exists k, s = Some k /\ k <> "".
Proof.
  destruct s as [k|]; simpl.
  - rewrite negb_true_iff, String.eqb_neq. split.
    + intros H. exists k. auto.
    + intros [k' [Hk Hne]]. injection Hk as <-. exact Hne.
  - split; [discriminate|]. intros [k [Hk _]]. discriminate.
Qed.

(** X3: for a signed-in caller, an action throws NOT_FOUND exactly when the
    request names a row the caller does not have: no profile of the caller
    with the given id (update, upsert, start), no item of the caller with
    the given non-empty id (upsert) or id (delete), no session of the caller
    with the given id (complete).  The lists and the profile creation never
    throw it. *)
Theorem not_found_iff_missing :
  forall a req env db,
    fst (server req (signed_in a) env db) = Throw NOT_FOUND
    <-> names_missing (user_id a) req db.
Proof.
  intros a req env db. destruct req; exec; cbn [names_missing].
  - case_insert; cbn [fst]; split; (discriminate || contradiction).
  - rewrite <- (refers_select (updateLanguageProfile.where_ i a)) by reflexivity.
    case_select (updateLanguageProfile.where_ i a) (profiles db); cbn [fst];
      split; intros H; (reflexivity || discriminate).
  - cbn [fst]. split; (discriminate || contradiction).
  - rewrite <- (refers_select (upsertVocabularyItem.where_profile i a)) by reflexivity.
    case_select (upsertVocabularyItem.where_profile i a) (profiles db); cbn [fst].
    { split; [intros _; left; reflexivity|reflexivity]. }
    destruct (truthy (upsertVocabularyItem.id i)) eqn:Ht.
    + apply truthy_iff in Ht. destruct Ht as [k [Hk Hne]].
      assert (Hw : forall r, upsertVocabularyItem.where_ i a r
                 = (VocabularyItems.id r =? k) && (VocabularyItems.userId r =? user_id a))
        by (intros r0; unfold upsertVocabularyItem.where_; rewrite Hk; reflexivity).
      pose proof (owns_item_select _ (user_id a) k db Hw) as Hiff.
      case_select (upsertVocabularyItem.where_ i a) (items db); cbn [fst].
      * split; [intros _|reflexivity]. right. exists k.
        split; [exact Hk|]. split; [exact Hne|]. apply Hiff. reflexivity.
      * split; [discriminate|].
        intros [Hc|[k' [Hk' [_ Hno]]]]; [discriminate|].
        rewrite Hk in Hk'. injection Hk' as <-.
        apply Hiff in Hno. discriminate.
    + case_insert; cbn [fst]; (split; [discriminate|]);
        (intros [Hc|[k [Hk [Hne _]]]]; [discriminate|]);
        (assert (Htrue : truthy (upsertVocabularyItem.id i) = true)
           by (apply truthy_iff; exists k; auto));
        congruence.
  - rewrite <- (owns_item_select (deleteVocabularyItem.where_ i a)) by reflexivity.
    rewrite <- rowsAffected_select.
    destruct (Nat.eqb_spec
                (rowsAffected (deleteVocabularyItem.where_ i a) (items db)) 0) as [E|E];
      cbn [fst]; split; intros H; (reflexivity || discriminate || tauto).
  - cbn [fst]. split; (discriminate || contradiction).
  - rewrite <- (refers_select (startPracticeSession.where_profile i a)) by reflexivity.
    case_select (startPracticeSession.where_profile i a) (profiles db); cbn [fst].
    { split; reflexivity. }
    case_insert; cbn [fst]; split; discriminate.
  - rewrite <- (owns_session_select (completePracticeSession.where_ i a)) by reflexivity.
    case_select (completePracticeSession.where_ i a) (sessions db); cbn [fst];
      split; intros H; (reflexivity || discriminate).
  - cbn [fst]. split; (discriminate || contradiction).
Qed.

Lemma not_found_iff_missing_witness :
  fst (server (CompletePracticeSession complete_s1) (signed_in bob) sample_env sample_db)
  = Throw NOT_FOUND.
Proof.
  apply (proj2 (not_found_iff_missing bob (CompletePracticeSession complete_s1)
                  sample_env sample_db)).
  simpl. intros [s [Hin [Hk Hu]]].
  repeat (destruct Hin as [<-|Hin]; [simpl in *; discriminate|]).
  destruct Hin.
Defined.

(** ** What the actions write *)

(** X4: an action writes at most the table of its own kind: the profile
    actions leave items and sessions as they are, the vocabulary actions
    leave profiles and sessions, the session actions leave profiles and
    items, and the three lists leave the whole store. *)
Theorem action_writes_its_own_table :
  forall req context env db,
    same_except (written req) db (snd (server req context env db)).
Proof.
  intros req context env db.
  destruct context as [[a|]]; [|destruct req; simpl; auto].
  change {| locals_user := Some a |} with (signed_in a).
  destruct req; cbn [written same_except]; exec.
  - case_insert; cbn [snd]; auto.
  - case_select (updateLanguageProfile.where_ i a) (profiles db); cbn [snd]; auto.
  - reflexivity.
  - case_select (upsertVocabularyItem.where_profile i a) (profiles db);
      cbn [snd]; auto.
    destruct (truthy (upsertVocabularyItem.id i)).
    + case_select (upsertVocabularyItem.where_ i a) (items db); cbn [snd]; auto.
    + case_insert; cbn [snd]; auto.
  - destruct (rowsAffected _ _ =? 0)%nat; cbn [snd]; auto.
  - reflexivity.
  - case_select (startPracticeSession.where_profile i a) (profiles db);
      cbn [snd]; auto.
    case_insert; cbn [snd]; auto.
  - case_select (completePracticeSession.where_ i a) (sessions db); cbn [snd]; auto.
  - reflexivity.
Qed.

(** X5: starting from the empty store, after any sequence of calls (any
    requests, callers, times and drawn identifiers) the ids of each table
    are pairwise distinct and every item and session points at an existing
    profile owned by its own owner. *)
Theorem reachable_store_wf :
  forall calls, wf (run_all calls empty_db).
Proof.
  intros calls. unfold run_all.
  assert (H : forall db, wf db ->
            wf (fold_left (fun db call =>
                             match call with
                             | (req, context, env) => snd (server req context env db)
                             end) calls db)).
  { induction calls as [|[[req context] env] calls IH]; intros db Hwf; simpl.
    - exact Hwf.
    - apply IH. apply server_preserves_wf. exact Hwf. }
  apply H. apply empty_db_wf.
Qed.

(** ** Profiles: create, list, deactivate *)

Lemma find_snoc_fresh {R : Type} (key : R -> string) (r : R) (t : list R) :
  ~ In (key r) (map key t) ->
  find (fun x => key x =? key r) (t ++ [r]) = Some r.
Proof.
  induction t as [|x t IH]; simpl; intros Hfresh.
  - rewrite String.eqb_refl. reflexivity.
  - destruct (key x =? key r) eqn:E.
    + apply String.eqb_eq in E. tauto.
    + apply IH. tauto.
Qed.

Lemma createLanguageProfile_returns i context env db profile db' :
  createLanguageProfile.handler i context env db = (Return profile, db') ->
  exists user,
    locals_user context = Some user
    /\ ~ In (randomUUID env) (map LanguageProfiles.id (profiles db))
    /\ LanguageProfiles.id profile = randomUUID env
    /\ LanguageProfiles.userId profile = user_id user
    /\ LanguageProfiles.isActive profile = true
    /\ db' = with_profiles (profiles db ++ [profile]) db.
Proof.
  intros H. unfold createLanguageProfile.handler in H. run_handler H.
  destruct (locals_user context) as [user|]; [|discriminate].
  destruct (insert_row _ _ _) as [t|] eqn:Hins; [|discriminate].
  apply insert_row_Some in Hins. destruct Hins as [-> Hfresh].
  injection H as <- <-. exists user. repeat split. exact Hfresh.
Qed.

(** X6: [createLanguageProfile], for a signed-in caller, appends and
    returns a profile carrying the drawn id, the caller as owner, the input
    fields, [isActive = true] and [createdAt = updatedAt] the call time,
    which the id then resolves to; when the drawn id is already a profile id
    the store refuses the insert and nothing is written. *)
Theorem createLanguageProfile_creates :
  forall i a env db,
    (~ In (randomUUID env) (map LanguageProfiles.id (profiles db)) ->
     exists profile db',
       createLanguageProfile.handler i (signed_in a) env db = (Return profile, db')
       /\ LanguageProfiles.id profile = randomUUID env
       /\ LanguageProfiles.userId profile = user_id a
       /\ LanguageProfiles.targetLanguage profile = createLanguageProfile.targetLanguage i
       /\ LanguageProfiles.nativeLanguage profile = createLanguageProfile.nativeLanguage i
       /\ LanguageProfiles.proficiencyLevel profile
          = createLanguageProfile.proficiencyLevel i
       /\ LanguageProfiles.goals profile = createLanguageProfile.goals i
       /\ LanguageProfiles.isActive profile = true
       /\ LanguageProfiles.createdAt profile = now env
       /\ LanguageProfiles.updatedAt profile = now env
       /\ profiles db' = profiles db ++ [profile]
       /\ profile_by_id (randomUUID env) db' = Some profile)
    /\ (In (randomUUID env) (map LanguageProfiles.id (profiles db)) ->
        createLanguageProfile.handler i (signed_in a) env db = (StoreFault, db)).
Proof.
  intros i a env db. unfold createLanguageProfile.handler.
  cbv beta delta [bind requireUser ret throw insert_into signed_in locals_user].
  cbv beta iota zeta.
  split.
  - intros Hfresh.
    rewrite (insert_row_fresh LanguageProfiles.id) by exact Hfresh.
    eexists. eexists. split; [reflexivity|].
    cbn [LanguageProfiles.id LanguageProfiles.userId LanguageProfiles.targetLanguage
         LanguageProfiles.nativeLanguage LanguageProfiles.proficiencyLevel
         LanguageProfiles.goals LanguageProfiles.isActive LanguageProfiles.createdAt
         LanguageProfiles.updatedAt].
    repeat (split; [reflexivity|]).
    unfold profile_by_id, with_profiles. cbn [profiles].
    match goal with
    | |- find _ (_ ++ [?r]) = _ =>
        exact (find_snoc_fresh LanguageProfiles.id r (profiles db) Hfresh)
    end.
  - intros Hused. unfold insert_row.
    apply (has_key_In LanguageProfiles.id) in Hused.
    cbn [LanguageProfiles.id]. rewrite Hused. reflexivity.
Qed.

Lemma createLanguageProfile_creates_witness :
  ~ In (randomUUID sample_env) (map LanguageProfiles.id (profiles sample_db))
  /\ exists profile db',
       createLanguageProfile.handler create_german (signed_in alice) sample_env sample_db
       = (Return profile, db')
       /\ LanguageProfiles.id profile = "uuid-1"
       /\ LanguageProfiles.isActive profile = true
       /\ profile_by_id "uuid-1" db' = Some profile.
Proof.
  assert (Hfresh : ~ In (randomUUID sample_env)
                     (map LanguageProfiles.id (profiles sample_db)))
    by (simpl; intuition discriminate).
  split; [exact Hfresh|].
  destruct (proj1 (createLanguageProfile_creates create_german alice sample_env sample_db)
              Hfresh)
    as [profile [db' [H [H1 [_ [_ [_ [_ [_ [H2 [_ [_ [_ H3]]]]]]]]]]]]].
  exists profile, db'. repeat split; assumption.
Defined.

(** X7: [listMyLanguageProfiles] returns, in table order and without
    writing, exactly the caller's profiles, restricted to the active ones
    unless [includeInactive] is set; [total] is their number; and the
    default list is the full list with the inactive profiles dropped. *)
Theorem listMyLanguageProfiles_lists :
  forall i a env db,
    exists d,
      listMyLanguageProfiles.handler i (signed_in a) env db = (Return d, db)
      /\ listMyLanguageProfiles.total d = List.length (listMyLanguageProfiles.items d)
      /\ (forall p, In p (listMyLanguageProfiles.items d) <->
            In p (profiles db) /\ LanguageProfiles.userId p = user_id a
            /\ (listMyLanguageProfiles.includeInactive i = true
                \/ LanguageProfiles.isActive p = true))
      /\ (exists everything,
            listMyLanguageProfiles.handler list_all (signed_in a) env db
            = (Return everything, db)
            /\ listMyLanguageProfiles.items everything
               = owned LanguageProfiles.userId (user_id a) (profiles db)
            /\ (listMyLanguageProfiles.includeInactive i = false ->
                listMyLanguageProfiles.items d
                = filter LanguageProfiles.isActive
                    (listMyLanguageProfiles.items everything))).
Proof.
  intros i a env db. eexists. split; [reflexivity|].
  cbn [listMyLanguageProfiles.items listMyLanguageProfiles.total].
  split; [reflexivity|]. split.
  - intros p. unfold select_where. rewrite filter_In.
    unfold listMyLanguageProfiles.where_.
    destruct (listMyLanguageProfiles.includeInactive i).
    + rewrite String.eqb_eq. tauto.
    + rewrite andb_true_iff, String.eqb_eq, eqb_true_iff.
      intuition discriminate.
  - eexists. split; [reflexivity|].
    cbn [listMyLanguageProfiles.items]. split; [reflexivity|].
    intros Hi. unfold select_where, listMyLanguageProfiles.where_. rewrite Hi.
    cbn [list_all listMyLanguageProfiles.includeInactive].
    induction (profiles db) as [|p t IH]; simpl; [reflexivity|].
    destruct (LanguageProfiles.userId p =? user_id a); simpl.
    + destruct (LanguageProfiles.isActive p); simpl; rewrite IH; reflexivity.
    + exact IH.
Qed.

Lemma select_snoc {R : Type} (c : R -> bool) (t : list R) (r : R) :
  select_where c (t ++ [r]) = select_where c t ++ (if c r then [r] else []).
Proof. unfold select_where. rewrite filter_app. simpl. destruct (c r); reflexivity. Qed.

(** X8: a profile that was just created is listed last among the caller's
    profiles, by the default list as well as with [includeInactive], and the
    total grows by one; the lists of any other identity are unchanged. *)
Theorem created_profile_is_listed :
  forall i a env db profile db',
    createLanguageProfile.handler i (signed_in a) env db = (Return profile, db') ->
    forall li env2,
      (exists before after,
          listMyLanguageProfiles.handler li (signed_in a) env2 db = (Return before, db)
          /\ listMyLanguageProfiles.handler li (signed_in a) env2 db'
             = (Return after, db')
          /\ listMyLanguageProfiles.items after
             = listMyLanguageProfiles.items before ++ [profile]
          /\ listMyLanguageProfiles.total after = S (listMyLanguageProfiles.total before))
      /\ (forall b, user_id b <> user_id a ->
            fst (listMyLanguageProfiles.handler li (signed_in b) env2 db')
            = fst (listMyLanguageProfiles.handler li (signed_in b) env2 db)).
Proof.
  intros i a env db profile db' H li env2.
  apply createLanguageProfile_returns in H.
  destruct H as [user [Hu [_ [_ [Hown [Hact ->]]]]]].
  simpl in Hu. injection Hu as <-.
  split.
  - eexists. eexists. split; [reflexivity|]. split; [reflexivity|].
    cbn [listMyLanguageProfiles.items listMyLanguageProfiles.total with_profiles profiles].
    rewrite select_snoc.
    assert (Hc : listMyLanguageProfiles.where_ li a profile = true).
    { unfold listMyLanguageProfiles.where_. rewrite Hown, Hact, String.eqb_refl.
      destruct (listMyLanguageProfiles.includeInactive li); reflexivity. }
    rewrite Hc. split; [reflexivity|].
    rewrite length_app. simpl. lia.
  - intros b Hb.
    unfold listMyLanguageProfiles.handler.
    cbv beta delta [bind requireUser read ret signed_in locals_user]. cbv beta iota.
    cbn [fst with_profiles profiles]. rewrite select_snoc.
    assert (Hc : listMyLanguageProfiles.where_ li b profile = false).
    { unfold listMyLanguageProfiles.where_. rewrite Hown.
      apply String.eqb_neq in Hb. rewrite String.eqb_sym in Hb. rewrite Hb.
      destruct (listMyLanguageProfiles.includeInactive li); reflexivity. }
    rewrite Hc, app_nil_r. reflexivity.
Qed.

Lemma created_profile_is_listed_witness :
  exists profile db' after,
    createLanguageProfile.handler create_german (signed_in alice) sample_env sample_db
    = (Return profile, db')
    /\ listMyLanguageProfiles.handler list_active (signed_in alice) sample_env db'
       = (Return after, db')
    /\ map LanguageProfiles.id (listMyLanguageProfiles.items after) = ["p1"; "uuid-1"]
    /\ listMyLanguageProfiles.total after = 2.
Proof.
  eexists. eexists.
  destruct (proj1 (created_profile_is_listed create_german alice sample_env sample_db
                     _ _ eq_refl list_active sample_env))
    as [before [after [Hb [Ha [Hitems Htotal]]]]].
  exists after. split; [vm_compute; reflexivity|]. split; [exact Ha|].
  vm_compute in Hb. injection Hb as <-.
  rewrite Hitems, Htotal. split; reflexivity.
Defined.

Lemma updateLanguageProfile_returns i context env db profile db' :
  updateLanguageProfile.handler i context env db = (Return profile, db') ->
  exists user existing,
    locals_user context = Some user
    /\ In existing (profiles db)
    /\ LanguageProfiles.id existing = updateLanguageProfile.id i
    /\ LanguageProfiles.userId existing = user_id user
    /\ profile = LanguageProfiles.apply
                   (updateLanguageProfile.payload i existing (now env)) existing
    /\ db' = with_profiles
         (update_where
            (LanguageProfiles.apply (updateLanguageProfile.payload i existing (now env)))
            (updateLanguageProfile.where_ i user) (profiles db)) db.
Proof.
  intros H. unfold updateLanguageProfile.handler in H. run_handler H.
  destruct (locals_user context) as [user|]; [|discriminate].
  destruct (select_where (updateLanguageProfile.where_ i user) (profiles db))
    as [|existing rest] eqn:Hsel; [discriminate|].
  apply select_cons in Hsel. destruct Hsel as [_ [Hin Hc]].
  apply andb_prop in Hc. destruct Hc as [Hid Hown].
  apply String.eqb_eq in Hid, Hown.
  injection H as <- <-. exists user, existing.
  repeat split; auto.
  unfold updateLanguageProfile.returned, LanguageProfiles.apply. simpl.
  rewrite Hid. reflexivity.
Qed.

(** X9: deactivation is an update with [isActive = false]: after it
    succeeds, the default list of the caller no longer shows a profile with
    that id, and the list with [includeInactive] still shows the updated
    profile. *)
Theorem deactivated_profile_is_hidden :
  forall i a env db profile db',
    primary_keys db ->
    updateLanguageProfile.isActive i = Some false ->
    updateLanguageProfile.handler i (signed_in a) env db = (Return profile, db') ->
    forall env2,
      (exists d,
          listMyLanguageProfiles.handler list_active (signed_in a) env2 db'
          = (Return d, db')
          /\ ~ In (updateLanguageProfile.id i)
                 (map LanguageProfiles.id (listMyLanguageProfiles.items d)))
      /\ (exists d,
          listMyLanguageProfiles.handler list_all (signed_in a) env2 db'
          = (Return d, db')
          /\ In profile (listMyLanguageProfiles.items d)).
Proof.
  intros i a env db profile db' [Hpk _] Hoff H env2.
  apply updateLanguageProfile_returns in H.
  destruct H as [user [existing [Hu [Hin [Hid [Hown [-> ->]]]]]]].
  simpl in Hu. injection Hu as <-.
  assert (Hc : updateLanguageProfile.where_ i a existing = true)
    by (unfold updateLanguageProfile.where_;
        rewrite Hid, Hown, !String.eqb_refl; reflexivity).
  split.
  - eexists. split; [reflexivity|].
    cbn [listMyLanguageProfiles.items with_profiles profiles].
    intros Hlisted. apply in_map_iff in Hlisted. destruct Hlisted as [p [Hp Hsel]].
    unfold select_where in Hsel. apply filter_In in Hsel. destruct Hsel as [Hnew Hw].
    apply In_update_where in Hnew. destruct Hnew as [r [Hr Heq]].
    assert (Hrid : LanguageProfiles.id r = updateLanguageProfile.id i).
    { rewrite <- Hp, Heq.
      destruct (updateLanguageProfile.where_ i a r); reflexivity. }
    assert (r = existing)
      by (apply (pk_unique LanguageProfiles.id (profiles db)); congruence).
    subst r. rewrite Hc in Heq. subst p.
    unfold listMyLanguageProfiles.where_ in Hw. simpl in Hw. rewrite Hoff in Hw.
    simpl in Hw. rewrite andb_false_r in Hw. discriminate.
  - eexists. split; [reflexivity|].
    cbn [listMyLanguageProfiles.items with_profiles profiles].
    unfold select_where. apply filter_In. split.
    + apply In_update_where. exists existing. rewrite Hc. auto.
    + unfold listMyLanguageProfiles.where_. simpl. rewrite Hown.
      apply String.eqb_refl.
Qed.

Lemma deactivated_profile_is_hidden_witness :
  primary_keys sample_db
  /\ updateLanguageProfile.isActive deactivate_p1 = Some false
  /\ exists profile db' d,
       updateLanguageProfile.handler deactivate_p1 (signed_in alice) sample_env sample_db
       = (Return profile, db')
       /\ listMyLanguageProfiles.handler list_active (signed_in alice) sample_env db'
          = (Return d, db')
       /\ ~ In "p1" (map LanguageProfiles.id (listMyLanguageProfiles.items d)).
Proof.
  split; [exact (proj1 sample_db_wf)|]. split; [reflexivity|].
  eexists. eexists.
  destruct (proj1 (deactivated_profile_is_hidden deactivate_p1 alice sample_env sample_db
                     _ _ (proj1 sample_db_wf) eq_refl eq_refl sample_env))
    as [d [Hd Hnot]].
  exists d. split; [vm_compute; reflexivity|]. split; [exact Hd|exact Hnot].
Defined.

(** ** Vocabulary: insert, list, delete, repeat *)

Lemma upsertVocabularyItem_inserted i context env db item db' :
  truthy (upsertVocabularyItem.id i) = false ->
  upsertVocabularyItem.handler i context env db = (Return item, db') ->
  exists user,
    locals_user context = Some user
    /\ refers (profiles db) (upsertVocabularyItem.languageProfileId i) (user_id user)
    /\ ~ In (randomUUID env) (map VocabularyItems.id (items db))
    /\ item = upsertVocabularyItem.inserted i user (randomUUID env) (now env)
    /\ db' = with_items (items db ++ [item]) db.
Proof.
  intros Ht H. unfold upsertVocabularyItem.handler in H. run_handler H.
  destruct (locals_user context) as [user|]; [|discriminate].
  destruct (select_where (upsertVocabularyItem.where_profile i user) (profiles db))
    as [|profile rest] eqn:Hsel; [discriminate|].
  rewrite Ht in H.
  destruct (insert_row _ _ _) as [t|] eqn:Hins; [|discriminate].
  apply insert_row_Some in Hins. destruct Hins as [-> Hfresh].
  injection H as <- <-. exists user.
  split; [reflexivity|].
  split; [exact (refers_found _ _ _ _ _ _ (fun _ => eq_refl) Hsel)|].
  split; [exact Hfresh|]. split; reflexivity.
Qed.

(** X10: [upsertVocabularyItem] without an id (or with the empty id), by a
    signed-in caller who owns the profile and with an unused drawn id,
    appends and returns a new item: it carries the drawn id, the caller as
    owner and every input field as given (an omitted optional field is
    null), [createdAt = updatedAt] is the call time, and the id then
    resolves to it.  When the drawn id is taken, the store refuses the
    insert and nothing is written. *)
Theorem upsertVocabularyItem_inserts :
  forall i a env db,
    truthy (upsertVocabularyItem.id i) = false ->
    refers (profiles db) (upsertVocabularyItem.languageProfileId i) (user_id a) ->
    (~ In (randomUUID env) (map VocabularyItems.id (items db)) ->
     exists item db',
       upsertVocabularyItem.handler i (signed_in a) env db = (Return item, db')
       /\ VocabularyItems.id item = randomUUID env
       /\ VocabularyItems.userId item = user_id a
       /\ VocabularyItems.languageProfileId item = upsertVocabularyItem.languageProfileId i
       /\ VocabularyItems.term item = upsertVocabularyItem.term i
       /\ VocabularyItems.translation item = upsertVocabularyItem.translation i
       /\ VocabularyItems.partOfSpeech item = upsertVocabularyItem.partOfSpeech i
       /\ VocabularyItems.exampleSentence item = upsertVocabularyItem.exampleSentence i
       /\ VocabularyItems.exampleTranslation item
          = upsertVocabularyItem.exampleTranslation i
       /\ VocabularyItems.difficulty item = upsertVocabularyItem.difficulty i
       /\ VocabularyItems.tags item = upsertVocabularyItem.tags i
       /\ VocabularyItems.lastReviewedAt item = upsertVocabularyItem.lastReviewedAt i
       /\ VocabularyItems.nextReviewAt item = upsertVocabularyItem.nextReviewAt i
       /\ VocabularyItems.successStreak item = upsertVocabularyItem.successStreak i
       /\ VocabularyItems.totalReviews item = upsertVocabularyItem.totalReviews i
       /\ VocabularyItems.createdAt item = now env
       /\ VocabularyItems.updatedAt item = now env
       /\ items db' = items db ++ [item]
       /\ item_by_id (randomUUID env) db' = Some item)
    /\ (In (randomUUID env) (map VocabularyItems.id (items db)) ->
        upsertVocabularyItem.handler i (signed_in a) env db = (StoreFault, db)).
Proof.
  intros i a env db Ht Hprofile.
  unfold upsertVocabularyItem.handler.
  cbv beta delta [bind requireUser read ret throw insert_into signed_in locals_user].
  cbv beta iota zeta.
  destruct (select_where (upsertVocabularyItem.where_profile i a) (profiles db))
    as [|profile rest] eqn:Hsel.
  { exfalso.
    apply (proj1 (refers_select (upsertVocabularyItem.where_profile i a) (profiles db)
                    _ _ (fun _ => eq_refl)) Hsel).
    exact Hprofile. }
  rewrite Ht. split.
  - intros Hfresh.
    rewrite (insert_row_fresh VocabularyItems.id) by exact Hfresh.
    eexists. eexists. split; [reflexivity|].
    unfold upsertVocabularyItem.inserted at 1 2 3 4 5 6 7 8 9 10 11 12 13 14 15 16.
    cbn [VocabularyItems.id VocabularyItems.userId VocabularyItems.languageProfileId
         VocabularyItems.term VocabularyItems.translation VocabularyItems.partOfSpeech
         VocabularyItems.exampleSentence VocabularyItems.exampleTranslation
         VocabularyItems.difficulty VocabularyItems.tags VocabularyItems.lastReviewedAt
         VocabularyItems.nextReviewAt VocabularyItems.successStreak
         VocabularyItems.totalReviews VocabularyItems.createdAt
         VocabularyItems.updatedAt].
    repeat (split; [reflexivity|]).
    unfold item_by_id, with_items. cbn [items].
    exact (find_snoc_fresh VocabularyItems.id
             (upsertVocabularyItem.inserted i a (randomUUID env) (now env))
             (items db) Hfresh).
  - intros Hused. unfold insert_row.
    apply (has_key_In VocabularyItems.id) in Hused.
    cbn [upsertVocabularyItem.inserted VocabularyItems.id]. rewrite Hused. reflexivity.
Qed.

Lemma upsertVocabularyItem_inserts_witness :
  truthy (upsertVocabularyItem.id add_perro) = false
  /\ refers (profiles sample_db) "p1" "alice"
  /\ ~ In "uuid-1" (map VocabularyItems.id (items sample_db))
  /\ exists item db',
       upsertVocabularyItem.handler add_perro (signed_in alice) sample_env sample_db
       = (Return item, db')
       /\ VocabularyItems.id item = "uuid-1"
       /\ VocabularyItems.translation item = Some "dog"
       /\ VocabularyItems.difficulty item = None
       /\ item_by_id "uuid-1" db' = Some item.
Proof.
  assert (Hp : refers (profiles sample_db) "p1" "alice")
    by (exists spanish; simpl; auto).
  assert (Hfresh : ~ In "uuid-1" (map VocabularyItems.id (items sample_db)))
    by (simpl; intuition discriminate).
  split; [reflexivity|]. split; [exact Hp|]. split; [exact Hfresh|].
  destruct (proj1 (upsertVocabularyItem_inserts add_perro alice sample_env sample_db
                     eq_refl Hp) Hfresh)
    as (item & db' & H & H1 & _ & _ & _ & H2 & _ & _ & _ & H3
        & _ & _ & _ & _ & _ & _ & _ & _ & H4).
  exists item, db'. repeat split; assumption.
Defined.

(** X11: an item that was just inserted is listed last under its profile:
    on the first page, when fewer than a page of the caller's items were
    there before, the page is the former page followed by the new item and
    the total grows by one (in particular, the first item of a profile is
    listed alone); the lists under any other profile are unchanged. *)
Theorem inserted_item_is_listed :
  forall i a env db item db',
    truthy (upsertVocabularyItem.id i) = false ->
    upsertVocabularyItem.handler i (signed_in a) env db = (Return item, db') ->
    forall env2,
      (forall N,
          let li := page_of (upsertVocabularyItem.languageProfileId i) 1 N in
          List.length (select_where (listVocabularyItems.where_ li a) (items db))
            < Pos.to_nat N ->
          exists before after,
            listVocabularyItems.handler li (signed_in a) env2 db = (Return before, db)
            /\ listVocabularyItems.handler li (signed_in a) env2 db' = (Return after, db')
            /\ page_items after = page_items before ++ [item]
            /\ page_total after = S (page_total before))
      /\ (forall li,
            languageProfileId li <> upsertVocabularyItem.languageProfileId i ->
            fst (listVocabularyItems.handler li (signed_in a) env2 db')
            = fst (listVocabularyItems.handler li (signed_in a) env2 db)).
Proof.
  intros i a env db item db' Ht H env2.
  destruct (upsertVocabularyItem_inserted _ _ _ _ _ _ Ht H)
    as [user [Hu [_ [_ [Hitem ->]]]]].
  simpl in Hu. injection Hu as <-.
  split.
  - intros N li Hlen.
    rewrite !listVocabularyItems_run. cbn [signed_in locals_user].
    eexists. eexists. split; [reflexivity|]. split; [reflexivity|].
    cbn [page_items page_total with_items items].
    rewrite select_snoc.
    assert (Hc : listVocabularyItems.where_ li a item = true).
    { rewrite Hitem. unfold listVocabularyItems.where_, li. simpl.
      rewrite !String.eqb_refl. reflexivity. }
    rewrite Hc.
    replace ((Pos.to_nat (page li) - 1) * Pos.to_nat (pageSize li)) with 0
      by (unfold li; simpl; lia).
    cbn [skipn]. unfold li at 1 3 5 7. cbn [pageSize page_of].
    rewrite !firstn_all2; [|lia|rewrite length_app; simpl; lia].
    split; [reflexivity|]. rewrite length_app. simpl. lia.
  - intros li Hother.
    rewrite !listVocabularyItems_run. cbn [signed_in locals_user fst with_items items].
    rewrite select_snoc.
    assert (Hc : listVocabularyItems.where_ li a item = false).
    { rewrite Hitem. unfold listVocabularyItems.where_. simpl.
      apply String.eqb_neq in Hother. rewrite String.eqb_sym in Hother.
      rewrite Hother. reflexivity. }
    rewrite Hc, app_nil_r. reflexivity.
Qed.

Lemma inserted_item_is_listed_witness :
  truthy (upsertVocabularyItem.id add_perro) = false
  /\ exists item db' after,
       upsertVocabularyItem.handler add_perro (signed_in alice) sample_env sample_db
       = (Return item, db')
       /\ listVocabularyItems.handler (page_of "p1" 1 20) (signed_in alice) sample_env db'
          = (Return after, db')
       /\ map VocabularyItems.id (page_items after) = ["v1"; "v2"; "v3"; "uuid-1"]
       /\ page_total after = 4.
Proof.
  split; [reflexivity|].
  eexists. eexists.
  assert (Hlen : List.length
                   (select_where (listVocabularyItems.where_ (page_of "p1" 1 20) alice)
                      (items sample_db)) < Pos.to_nat 20)
    by (vm_compute; lia).
  destruct (proj1 (inserted_item_is_listed add_perro alice sample_env sample_db _ _
                     eq_refl eq_refl sample_env) 20%positive Hlen)
    as [before [after [Hb [Ha [Hitems Htotal]]]]].
  exists after. split; [vm_compute; reflexivity|]. split; [exact Ha|].
  vm_compute in Hb. injection Hb as <-.
  rewrite Hitems, Htotal. split; reflexivity.
Defined.

(** X12: inserting an item and then deleting it by the returned id, as the
    same caller, succeeds and gives back the store as it was before the
    insert. *)
Theorem insert_then_delete_restores :
  forall i a env env2 db item db',
    truthy (upsertVocabularyItem.id i) = false ->
    upsertVocabularyItem.handler i (signed_in a) env db = (Return item, db') ->
    deleteVocabularyItem.handler {| deleteVocabularyItem.id := VocabularyItems.id item |}
      (signed_in a) env2 db'
    = (Return tt, db).
Proof.
  intros i a env env2 db item db' Ht H.
  destruct (upsertVocabularyItem_inserted _ _ _ _ _ _ Ht H)
    as [user [Hu [_ [Hfresh [Hitem ->]]]]].
  simpl in Hu. injection Hu as <-.
  set (c := deleteVocabularyItem.where_
              {| deleteVocabularyItem.id := VocabularyItems.id item |} a).
  assert (Hc : c item = true).
  { unfold c, deleteVocabularyItem.where_. simpl. rewrite Hitem. simpl.
    rewrite !String.eqb_refl. reflexivity. }
  assert (Hold : forall r, In r (items db) -> c r = false).
  { intros r Hin. unfold c, deleteVocabularyItem.where_. simpl.
    destruct (VocabularyItems.id r =? VocabularyItems.id item) eqn:E; [|reflexivity].
    apply String.eqb_eq in E. exfalso. apply Hfresh.
    rewrite Hitem in E. simpl in E. rewrite <- E. apply in_map. exact Hin. }
  assert (Hsel : select_where c (items db) = [])
    by (apply select_where_nil_iff; exact Hold).
  unfold deleteVocabularyItem.handler, deleteVocabularyItem.delete_items.
  cbv beta delta [bind requireUser ret throw signed_in locals_user]. cbv beta iota.
  fold c. cbn [with_items items].
  assert (Hrows : rowsAffected c (items db ++ [item]) = 1).
  { unfold rowsAffected. fold (select_where c (items db ++ [item])).
    rewrite select_snoc, Hsel, Hc. reflexivity. }
  rewrite Hrows. cbn [Nat.eqb].
  assert (Hdel : delete_where c (items db ++ [item]) = items db).
  { unfold delete_where. rewrite filter_app. simpl. rewrite Hc. simpl.
    rewrite app_nil_r.
    destruct (delete_where_nothing c (items db) Hsel) as [Hd _]. exact Hd. }
  rewrite Hdel. f_equal. destruct db; reflexivity.
Qed.

Lemma insert_then_delete_restores_witness :
  truthy (upsertVocabularyItem.id add_perro) = false
  /\ exists item db',
       upsertVocabularyItem.handler add_perro (signed_in alice) sample_env sample_db
       = (Return item, db')
       /\ deleteVocabularyItem.handler
            {| deleteVocabularyItem.id := VocabularyItems.id item |}
            (signed_in alice) sample_env db'
          = (Return tt, sample_db).
Proof.
  split; [reflexivity|].
  eexists. eexists. split; [vm_compute; reflexivity|].
  exact (insert_then_delete_restores add_perro alice sample_env sample_env sample_db
           _ _ eq_refl eq_refl).
Defined.

Lemma assign_twice {A : Type} (s : SetValue A) (old : A) :
  assign s (assign s old) = assign s old.
Proof. destruct s; reflexivity. Qed.

Lemma spread_assign {A : Type} (field : Optional A) (old : option A) :
  spread (assign (of_optional field) old) field = spread old field.
Proof. destruct field; reflexivity. Qed.

Lemma select_update_stable {R : Type} (f : R -> R) (c : R -> bool) (t : list R) :
  (forall r, c (f r) = c r) ->
  select_where c (update_where f c t) = map f (select_where c t).
Proof.
  intros Hc. unfold select_where, update_where.
  induction t as [|r t IH]; simpl; [reflexivity|].
  destruct (c r) eqn:E.
  - rewrite Hc, E. simpl. rewrite IH. reflexivity.
  - rewrite E. exact IH.
Qed.

Lemma update_where_twice {R : Type} (f : R -> R) (c : R -> bool) (t : list R) :
  (forall r, c (f r) = c r) -> (forall r, f (f r) = f r) ->
  update_where f c (update_where f c t) = update_where f c t.
Proof.
  intros Hc Hf. unfold update_where. rewrite map_map. apply map_ext.
  intros r. destruct (c r) eqn:E.
  - rewrite Hc, E. apply Hf.
  - rewrite E. reflexivity.
Qed.

(** X13: an upsert with an id is idempotent: repeating a successful call
    with the same input at the same time returns the same item and leaves
    the store as the first call left it. *)
Theorem upsert_with_id_is_idempotent :
  forall i context env db item db',
    truthy (upsertVocabularyItem.id i) = true ->
    upsertVocabularyItem.handler i context env db = (Return item, db') ->
    upsertVocabularyItem.handler i context env db' = (Return item, db').
Proof.
  intros i context env db item db' Ht H.
  unfold upsertVocabularyItem.handler in *.
  cbv beta delta [bind requireUser read write ret throw insert_into] in *.
  cbv beta iota in *.
  destruct (locals_user context) as [user|]; [|discriminate].
  destruct (select_where (upsertVocabularyItem.where_profile i user) (profiles db))
    as [|profile rest] eqn:Hprofile; [discriminate|].
  rewrite Ht in *.
  destruct (select_where (upsertVocabularyItem.where_ i user) (items db))
    as [|existing others] eqn:Hsel; [discriminate|].
  injection H as <- <-.
  cbn [with_items profiles items]. rewrite Hprofile.
  assert (Hc : forall r,
             upsertVocabularyItem.where_ i user
               (VocabularyItems.apply (upsertVocabularyItem.payload i (now env)) r)
             = upsertVocabularyItem.where_ i user r) by reflexivity.
  cbv beta iota. cbn [with_items items].
  rewrite select_update_stable by exact Hc.
  rewrite Hsel. cbn [map]. cbv beta iota.
  unfold with_items. cbn [profiles items sessions].
  f_equal.
  - f_equal. unfold upsertVocabularyItem.returned, VocabularyItems.apply,
      upsertVocabularyItem.payload. simpl.
    rewrite !spread_assign. reflexivity.
  - f_equal. apply update_where_twice; [exact Hc|].
    intros r. unfold VocabularyItems.apply. simpl.
    rewrite !assign_twice. reflexivity.
Qed.

Lemma upsert_with_id_is_idempotent_witness :
  truthy (upsertVocabularyItem.id rename_v1) = true
  /\ exists item db',
       upsertVocabularyItem.handler rename_v1 (signed_in alice) sample_env sample_db
       = (Return item, db')
       /\ upsertVocabularyItem.handler rename_v1 (signed_in alice) sample_env db'
          = (Return item, db').
Proof.
  split; [reflexivity|].
  eexists. eexists. split; [vm_compute; reflexivity|].
  exact (upsert_with_id_is_idempotent rename_v1 (signed_in alice) sample_env sample_db
           _ _ eq_refl eq_refl).
Defined.

Lemma same_key_at_most_one {R : Type} (key : R -> string) (k : string) (l : list R) :
  NoDup (map key l) -> (forall r, In r l -> key r = k) -> List.length l <= 1.
Proof.
  destruct l as [|x [|y l]]; simpl; intros Hnd Hk; try lia.
  exfalso. inversion Hnd as [|? ? Hnotin _]; subst. apply Hnotin.
  left. rewrite (Hk x), (Hk y); auto.
Qed.

Lemma filter_split_length {R : Type} (c : R -> bool) (t : list R) :
  List.length (filter c t) + List.length (filter (fun r => negb (c r)) t)
  = List.length t.
Proof.
  induction t as [|r t IH]; simpl; [reflexivity|].
  destruct (c r); simpl; lia.
Qed.

Lemma find_filter {R : Type} (p q : R -> bool) (t : list R) :
  (forall r, p r = true -> q r = true) -> find p (filter q t) = find p t.
Proof.
  intros Hpq. induction t as [|r t IH]; simpl; [reflexivity|].
  destruct (q r) eqn:Eq; simpl.
  - destruct (p r); [reflexivity|exact IH].
  - destruct (p r) eqn:Ep; [|exact IH].
    apply Hpq in Ep. congruence.
Qed.

(** X14: with unique ids, a successful [deleteVocabularyItem] removes
    exactly one row: the table is one row shorter, the deleted id no longer
    resolves, and every other id resolves to the same item as before. *)
Theorem deleteVocabularyItem_removes_one :
  forall i a env db db',
    primary_keys db ->
    deleteVocabularyItem.handler i (signed_in a) env db = (Return tt, db') ->
    List.length (items db') + 1 = List.length (items db)
    /\ item_by_id (deleteVocabularyItem.id i) db' = None
    /\ (forall k, k <> deleteVocabularyItem.id i ->
          item_by_id k db' = item_by_id k db).
Proof.
  intros i a env db db' [_ [Hpk _]] H.
  unfold deleteVocabularyItem.handler, deleteVocabularyItem.delete_items in H.
  cbv beta delta [bind requireUser ret throw signed_in locals_user] in H.
  cbv beta iota in H.
  set (c := deleteVocabularyItem.where_ i a) in *.
  destruct (Nat.eqb_spec (rowsAffected c (items db)) 0) as [E|E]; [discriminate|].
  injection H as <-. unfold item_by_id, with_items. cbn [items].
  assert (Hid : forall r, c r = true -> VocabularyItems.id r = deleteVocabularyItem.id i).
  { intros r Hr. unfold c, deleteVocabularyItem.where_ in Hr.
    apply andb_prop in Hr. apply String.eqb_eq. tauto. }
  assert (Hone : rowsAffected c (items db) = 1).
  { assert (Hle : rowsAffected c (items db) <= 1).
    { unfold rowsAffected.
      apply (same_key_at_most_one VocabularyItems.id (deleteVocabularyItem.id i)).
      - apply NoDup_map_filter. exact Hpk.
      - intros r Hr. apply filter_In in Hr. apply Hid. tauto. }
    lia. }
  split; [|split].
  - unfold delete_where. pose proof (filter_split_length c (items db)) as Hlen.
    unfold rowsAffected in Hone. lia.
  - destruct (find (fun r => VocabularyItems.id r =? deleteVocabularyItem.id i)
                (delete_where c (items db))) as [r|] eqn:Hf; [|reflexivity].
    exfalso. apply find_some in Hf. destruct Hf as [Hin Hr].
    apply String.eqb_eq in Hr.
    pose proof (delete_where_none c (items db) r Hin) as Hnot.
    unfold delete_where in Hin. apply filter_In in Hin. destruct Hin as [Hin _].
    destruct (select_where c (items db)) as [|v rest] eqn:Hsel.
    + unfold rowsAffected, select_where in *. rewrite Hsel in Hone. discriminate.
    + apply select_cons in Hsel. destruct Hsel as [_ [Hv Hcv]].
      assert (r = v).
      { apply (pk_unique VocabularyItems.id (items db)); auto.
        rewrite Hr. symmetry. apply Hid. exact Hcv. }
      subst r. congruence.
  - intros k Hk. unfold delete_where.
    apply find_filter. intros r Hr. apply String.eqb_eq in Hr.
    destruct (c r) eqn:Ec; [|reflexivity].
    apply Hid in Ec. congruence.
Qed.

Lemma deleteVocabularyItem_removes_one_witness :
  primary_keys sample_db
  /\ exists db',
       deleteVocabularyItem.handler delete_v1 (signed_in alice) sample_env sample_db
       = (Return tt, db')
       /\ List.length (items db') + 1 = 4
       /\ item_by_id "v1" db' = None.
Proof.
  split; [exact (proj1 sample_db_wf)|].
  eexists. split; [vm_compute; reflexivity|].
  destruct (deleteVocabularyItem_removes_one delete_v1 alice sample_env sample_db _
              (proj1 sample_db_wf) eq_refl) as [H1 [H2 _]].
  split; [exact H1|exact H2].
Defined.

(** ** Sessions: start, complete, complete again *)

Lemma find_and {R : Type} (p q : R -> bool) (t : list R) (x : R) :
  find p t = Some x -> q x = true -> find (fun r => p r && q r) t = Some x.
Proof.
  induction t as [|r t IH]; simpl; intros Hf Hq; [discriminate|].
  destruct (p r) eqn:Ep; simpl.
  - injection Hf as ->. rewrite Hq. reflexivity.
  - apply IH; assumption.
Qed.

Lemma completePracticeSession_runs i a env db before :
  session_by_id (completePracticeSession.id i) db = Some before ->
  PracticeSessions.userId before = user_id a ->
  completePracticeSession.handler i (signed_in a) env db
  = (Return (completePracticeSession.returned i before
               (nullish_or (completePracticeSession.endedAt i) (now env))),
     with_sessions
       (update_where
          (PracticeSessions.apply
             (completePracticeSession.payload i before
                (nullish_or (completePracticeSession.endedAt i) (now env))))
          (completePracticeSession.where_ i a) (sessions db)) db).
Proof.
  intros Hb Hown.
  assert (Hfind : find (completePracticeSession.where_ i a) (sessions db) = Some before).
  { unfold session_by_id in Hb.
    apply (find_and _ (fun r => PracticeSessions.userId r =? user_id a) _ _ Hb).
    rewrite Hown. apply String.eqb_refl. }
  rewrite <- select_head in Hfind.
  unfold completePracticeSession.handler.
  cbv beta delta [bind requireUser read write ret throw signed_in locals_user].
  cbv beta iota.
  destruct (select_where (completePracticeSession.where_ i a) (sessions db))
    as [|x rest]; [discriminate|].
  simpl in Hfind. injection Hfind as ->. reflexivity.
Qed.

Lemma complete_keeps_primary_keys db f c :
  (forall r, PracticeSessions.id (f r) = PracticeSessions.id r) ->
  primary_keys db -> primary_keys (with_sessions (update_where f c (sessions db)) db).
Proof.
  intros Hf [H1 [H2 H3]]. repeat split; auto.
  cbn [with_sessions sessions]. rewrite map_update_stable by exact Hf. exact H3.
Qed.

(** X15: nothing stops a completed session from being completed again: a
    second [completePracticeSession] on the same id by the same caller
    succeeds, sets [endedAt] anew (to its own supplied value or call time),
    and merges its fields over what the first call stored. *)
Theorem completed_session_can_be_completed_again :
  forall i1 i2 a env1 env2 db s1 db1,
    primary_keys db ->
    completePracticeSession.handler i1 (signed_in a) env1 db = (Return s1, db1) ->
    completePracticeSession.id i2 = completePracticeSession.id i1 ->
    exists s2 db2,
      completePracticeSession.handler i2 (signed_in a) env2 db1 = (Return s2, db2)
      /\ session_by_id (completePracticeSession.id i1) db2 = Some s2
      /\ PracticeSessions.endedAt s2
         = Some (match completePracticeSession.endedAt i2 with
                 | Some supplied => supplied
                 | None => now env2
                 end)
      /\ keeps_or_overwrites_opt (completePracticeSession.totalQuestions i2)
           (PracticeSessions.totalQuestions s1) (PracticeSessions.totalQuestions s2)
      /\ keeps_or_overwrites_opt (completePracticeSession.correctAnswers i2)
           (PracticeSessions.correctAnswers s1) (PracticeSessions.correctAnswers s2)
      /\ keeps_or_overwrites_opt (completePracticeSession.notes i2)
           (PracticeSessions.notes s1) (PracticeSessions.notes s2)
      /\ PracticeSessions.startedAt s2 = PracticeSessions.startedAt s1.
Proof.
  intros i1 i2 a env1 env2 db s1 db1 Hpk H1 Hid.
  destruct (completePracticeSession_returns _ _ _ _ _ _ Hpk H1)
    as [user [before [Hu [_ [Hown [Hs1 [Ha Hdb1]]]]]]].
  simpl in Hu. injection Hu as <-.
  assert (Hown1 : PracticeSessions.userId s1 = user_id a)
    by (rewrite Hs1; exact Hown).
  assert (Hpk1 : primary_keys db1)
    by (rewrite Hdb1; apply complete_keeps_primary_keys; [reflexivity|exact Hpk]).
  rewrite <- Hid in Ha.
  pose proof (completePracticeSession_runs i2 a env2 db1 s1 Ha Hown1) as H2.
  eexists. eexists. split; [exact H2|].
  destruct (completePracticeSession_returns _ _ _ _ _ _ Hpk1 H2)
    as [_ [_ [_ [_ [_ [_ [Hafter _]]]]]]].
  split; [rewrite <- Hid; exact Hafter|].
  unfold keeps_or_overwrites_opt. simpl. repeat split.
  - destruct (completePracticeSession.totalQuestions i2); reflexivity.
  - destruct (completePracticeSession.correctAnswers i2); reflexivity.
  - destruct (completePracticeSession.notes i2); reflexivity.
Qed.

Lemma completed_session_can_be_completed_again_witness :
  primary_keys sample_db
  /\ completePracticeSession.id recomplete_s1 = completePracticeSession.id complete_s1
  /\ exists s1 db1 s2 db2,
       completePracticeSession.handler complete_s1 (signed_in alice) sample_env sample_db
       = (Return s1, db1)
       /\ completePracticeSession.handler recomplete_s1 (signed_in alice)
            {| now := 7000%Z; randomUUID := "uuid-2" |} db1
          = (Return s2, db2)
       /\ PracticeSessions.endedAt s1 = Some 5000%Z
       /\ PracticeSessions.endedAt s2 = Some 9000%Z
       /\ PracticeSessions.totalQuestions s2 = Some 12%Z
       /\ PracticeSessions.correctAnswers s2 = Some 8%Z.
Proof.
  split; [exact (proj1 sample_db_wf)|]. split; [reflexivity|].
  eexists. eexists.
  destruct (completed_session_can_be_completed_again complete_s1 recomplete_s1 alice
              sample_env {| now := 7000%Z; randomUUID := "uuid-2" |} sample_db _ _
              (proj1 sample_db_wf) eq_refl eq_refl)
    as (s2 & db2 & H2 & _ & He & Ht & Hc & _).
  exists s2, db2. split; [vm_compute; reflexivity|]. split; [exact H2|].
  split; [reflexivity|]. split; [exact He|]. split; [exact Ht|exact Hc].
Defined.

(** X16: a session that was just started can be completed by its returned
    id: the call succeeds and the completed session keeps the profile, mode
    and start time given at the start, has [endedAt] set, takes
    [correctAnswers] from the completion alone (the start stores it null),
    and takes [totalQuestions] and [notes] from the completion when
    supplied and from the start otherwise. *)
Theorem started_session_can_be_completed :
  forall si ci a env env2 db s db1,
    primary_keys db ->
    startPracticeSession.handler si (signed_in a) env db = (Return s, db1) ->
    completePracticeSession.id ci = PracticeSessions.id s ->
    exists s2 db2,
      completePracticeSession.handler ci (signed_in a) env2 db1 = (Return s2, db2)
      /\ session_by_id (PracticeSessions.id s) db2 = Some s2
      /\ PracticeSessions.languageProfileId s2 = startPracticeSession.languageProfileId si
      /\ PracticeSessions.mode s2 = startPracticeSession.mode si
      /\ PracticeSessions.startedAt s2 = now env
      /\ PracticeSessions.endedAt s2
         = Some (match completePracticeSession.endedAt ci with
                 | Some supplied => supplied
                 | None => now env2
                 end)
      /\ PracticeSessions.correctAnswers s2 = completePracticeSession.correctAnswers ci
      /\ keeps_or_overwrites_opt (completePracticeSession.totalQuestions ci)
           (startPracticeSession.totalQuestions si) (PracticeSessions.totalQuestions s2)
      /\ keeps_or_overwrites_opt (completePracticeSession.notes ci)
           (startPracticeSession.notes si) (PracticeSessions.notes s2).
Proof.
  intros si ci a env env2 db s db1 Hpk H1 Hid.
  destruct (startPracticeSession_returns _ _ _ _ _ _ H1)
    as [user [profile [Hu [_ [_ [_ [Hfresh [Hs Hdb1]]]]]]]].
  simpl in Hu. injection Hu as <-.
  assert (Hsid : PracticeSessions.id s = randomUUID env) by (rewrite Hs; reflexivity).
  assert (Hfresh' : ~ In (PracticeSessions.id s) (map PracticeSessions.id (sessions db)))
    by (rewrite Hsid; exact Hfresh).
  assert (Hfound : session_by_id (completePracticeSession.id ci) db1 = Some s).
  { rewrite Hid, Hdb1. unfold session_by_id, with_sessions. cbn [sessions].
    apply (find_snoc_fresh PracticeSessions.id). exact Hfresh'. }
  assert (Hown : PracticeSessions.userId s = user_id a) by (rewrite Hs; reflexivity).
  assert (Hpk1 : primary_keys db1).
  { destruct Hpk as [P1 [P2 P3]]. rewrite Hdb1. repeat split; auto.
    cbn [with_sessions sessions]. apply NoDup_map_snoc; assumption. }
  pose proof (completePracticeSession_runs ci a env2 db1 s Hfound Hown) as H2.
  eexists. eexists. split; [exact H2|].
  destruct (completePracticeSession_returns _ _ _ _ _ _ Hpk1 H2)
    as [_ [_ [_ [_ [_ [_ [Hafter _]]]]]]].
  split; [rewrite <- Hid; exact Hafter|].
  rewrite Hs. unfold keeps_or_overwrites_opt. simpl. repeat split.
  - destruct (completePracticeSession.correctAnswers ci); reflexivity.
  - destruct (completePracticeSession.totalQuestions ci); reflexivity.
  - destruct (completePracticeSession.notes ci); reflexivity.
Qed.

Lemma started_session_can_be_completed_witness :
  primary_keys sample_db
  /\ exists s db1 s2 db2,
       startPracticeSession.handler start_quiz (signed_in alice) sample_env sample_db
       = (Return s, db1)
       /\ completePracticeSession.id complete_new = PracticeSessions.id s
       /\ completePracticeSession.handler complete_new (signed_in alice)
            {| now := 7000%Z; randomUUID := "uuid-2" |} db1
          = (Return s2, db2)
       /\ PracticeSessions.mode s2 = Some "quiz"
       /\ PracticeSessions.endedAt s2 = Some 7000%Z
       /\ PracticeSessions.correctAnswers s2 = Some 8%Z
       /\ PracticeSessions.totalQuestions s2 = Some 10%Z.
Proof.
  split; [exact (proj1 sample_db_wf)|].
  eexists. eexists.
  destruct (started_session_can_be_completed start_quiz complete_new alice
              sample_env {| now := 7000%Z; randomUUID := "uuid-2" |} sample_db _ _
              (proj1 sample_db_wf) eq_refl eq_refl)
    as (s2 & db2 & H2 & _ & _ & Hm & _ & He & Hc & Ht & _).
  exists s2, db2. split; [vm_compute; reflexivity|]. split; [reflexivity|].
  split; [exact H2|]. split; [exact Hm|]. split; [exact He|].
  split; [exact Hc|exact Ht].
Defined.

(** ** All the pages of a list *)

Lemma firstn_add {R : Type} (a b : nat) (l : list R) :
  firstn (a + b) l = firstn a l ++ firstn b (skipn a l).
Proof.
  revert l. induction a as [|a IH]; intros l; simpl; [reflexivity|].
  destruct l as [|x l]; simpl.
  - rewrite firstn_nil. reflexivity.
  - rewrite IH. reflexivity.
Qed.

Lemma pages_concat {R : Type} (n : nat) (l : list R) (k : nat) :
  List.concat (map (fun j => firstn n (skipn (j * n) l)) (seq 0 k)) = firstn (k * n) l.
Proof.
  induction k as [|k IH]; [reflexivity|].
  rewrite seq_S, map_app, List.concat_app, IH. simpl.
  rewrite app_nil_r. replace (n + k * n) with (k * n + n) by lia.
  symmetry. apply firstn_add.
Qed.

Lemma first_pages_map {B : Type} (f : positive -> B) (k : nat) :
  map f (first_pages k) = map (fun j => f (Pos.of_nat (S j))) (seq 0 k).
Proof.
  unfold first_pages. rewrite <- seq_shift, !map_map. reflexivity.
Qed.

Lemma vocabulary_page_eq a profile N env db p :
  vocabulary_page a profile N env db p
  = firstn (Pos.to_nat N)
      (skipn ((Pos.to_nat p - 1) * Pos.to_nat N)
         (select_where (listVocabularyItems.where_ (page_of profile 1 N) a) (items db))).
Proof.
  unfold vocabulary_page. rewrite listVocabularyItems_run. reflexivity.
Qed.

Lemma session_page_eq a profile N env db p :
  session_page a profile N env db p
  = firstn (Pos.to_nat N)
      (skipn ((Pos.to_nat p - 1) * Pos.to_nat N)
         (select_where (listPracticeSessions.where_ (page_of profile 1 N) a)
            (sessions db))).
Proof.
  unfold session_page. rewrite listPracticeSessions_run. reflexivity.
Qed.

(** X17: in both paginated lists, over a store that does not change, the
    pages 1 .. k put one after the other are the first [k * pageSize]
    matching rows in table order: no row is skipped or repeated across any
    number of pages, and once [k * pageSize] reaches the number of matching
    rows the pages together are exactly the matching rows.  A page that
    starts at or beyond the last matching row is empty. *)
Theorem pages_cover_the_list :
  forall a profile N env db k,
    let n := Pos.to_nat N in
    let words :=
      select_where (listVocabularyItems.where_ (page_of profile 1 N) a) (items db) in
    let runs :=
      select_where (listPracticeSessions.where_ (page_of profile 1 N) a) (sessions db) in
    List.concat (map (vocabulary_page a profile N env db) (first_pages k))
    = firstn (k * n) words
    /\ List.concat (map (session_page a profile N env db) (first_pages k))
       = firstn (k * n) runs
    /\ (List.length words <= k * n ->
        List.concat (map (vocabulary_page a profile N env db) (first_pages k)) = words)
    /\ (List.length runs <= k * n ->
        List.concat (map (session_page a profile N env db) (first_pages k)) = runs)
    /\ (forall p, List.length words <= (Pos.to_nat p - 1) * n ->
          vocabulary_page a profile N env db p = [])
    /\ (forall p, List.length runs <= (Pos.to_nat p - 1) * n ->
          session_page a profile N env db p = []).
Proof.
  intros a profile N env db k n words runs.
  assert (Hv : List.concat (map (vocabulary_page a profile N env db) (first_pages k))
               = firstn (k * n) words).
  { rewrite first_pages_map. rewrite <- (pages_concat n words k).
    f_equal. apply map_ext. intros j.
    rewrite vocabulary_page_eq, Nat2Pos.id by discriminate.
    replace (S j - 1) with j by lia. reflexivity. }
  assert (Hs : List.concat (map (session_page a profile N env db) (first_pages k))
               = firstn (k * n) runs).
  { rewrite first_pages_map. rewrite <- (pages_concat n runs k).
    f_equal. apply map_ext. intros j.
    rewrite session_page_eq, Nat2Pos.id by discriminate.
    replace (S j - 1) with j by lia. reflexivity. }
  split; [exact Hv|]. split; [exact Hs|].
  split; [intros Hlen; rewrite Hv; apply firstn_all2; exact Hlen|].
  split; [intros Hlen; rewrite Hs; apply firstn_all2; exact Hlen|].
  split.
  - intros p Hlen. rewrite vocabulary_page_eq.
    fold n. fold words. rewrite skipn_all2 by exact Hlen. apply firstn_nil.
  - intros p Hlen. rewrite session_page_eq.
    fold n. fold runs. rewrite skipn_all2 by exact Hlen. apply firstn_nil.
Qed.

Lemma pages_cover_the_list_witness :
  map (map VocabularyItems.id)
    (map (vocabulary_page alice "p1" 2 sample_env sample_db) (first_pages 3))
  = [["v1"; "v2"]; ["v3"]; []]
  /\ List.concat (map (vocabulary_page alice "p1" 2 sample_env sample_db) (first_pages 3))
     = select_where (listVocabularyItems.where_ (page_of "p1" 1 2) alice)
         (items sample_db).
Proof.
  split; [vm_compute; reflexivity|].
  destruct (pages_cover_the_list alice "p1" 2 sample_env sample_db 3)
    as [_ [_ [H _]]].
  apply H. vm_compute. lia.
Defined.

(** ** Outcomes of a signed-in call *)



(** X19: a list request that passes the schema returns at most 100 items,
    and never more than [pageSize]; [total] obeys the same bounds. *)
Theorem page_is_bounded :
  forall i a env db,
    page_schema i = true ->
    (forall d db',
        listVocabularyItems.handler i (signed_in a) env db = (Return d, db') ->
        List.length (page_items d) <= Pos.to_nat (pageSize i)
        /\ List.length (page_items d) <= 100
        /\ page_total d <= 100)
    /\ (forall d db',
        listPracticeSessions.handler i (signed_in a) env db = (Return d, db') ->
        List.length (page_items d) <= Pos.to_nat (pageSize i)
        /\ List.length (page_items d) <= 100
        /\ page_total d <= 100).
Proof.
  intros i a env db Hschema.
  unfold page_schema in Hschema. apply andb_prop in Hschema.
  destruct Hschema as [_ Hmax]. apply Z.leb_le in Hmax.
  split; intros d db' H.
  - rewrite listVocabularyItems_run in H. simpl in H. injection H as <- _.
    cbn [page_items page_total]. rewrite page_length. lia.
  - rewrite listPracticeSessions_run in H. simpl in H. injection H as <- _.
    cbn [page_items page_total]. rewrite page_length. lia.
Qed.

Lemma page_is_bounded_witness :
  page_schema (page_of "p1" 1 100) = true
  /\ exists d db',
       listVocabularyItems.handler (page_of "p1" 1 100) (signed_in alice) sample_env
         sample_db = (Return d, db')
       /\ List.length (page_items d) <= 100.
Proof.
  split; [reflexivity|].
  eexists. eexists. split; [vm_compute; reflexivity|].
  destruct (proj1 (page_is_bounded (page_of "p1" 1 100) alice sample_env sample_db
                     eq_refl) _ _ eq_refl) as [_ [H _]].
  exact H.
Defined.

(** ** Rows keep their identity *)

Lemma extends_same {R K : Type} (k : R -> K) (t : list R) : extends k t t.
Proof. exists []. rewrite app_nil_r. split; [reflexivity|simpl; lia]. Qed.

Lemma extends_update {R K : Type} (k : R -> K) (f : R -> R) (c : R -> bool)
    (t : list R) :
  (forall r, k (f r) = k r) -> extends k t (update_where f c t).
Proof.
  intros Hf. exists []. rewrite app_nil_r, map_update_stable by exact Hf.
  split; [reflexivity|simpl; lia].
Qed.

Lemma extends_snoc {R K : Type} (k : R -> K) (r : R) (t : list R) :
  extends k t (t ++ [r]).
Proof. exists [k r]. rewrite map_app. split; [reflexivity|simpl; lia]. Qed.

(** X20: whatever the call, every profile and every session that was in
    the store is still there afterwards, at the same place, with the same
    id, owner and creation time, and at most one row was added to each
    table; the same holds for the items except under
    [deleteVocabularyItem], which only removes rows and changes none. *)
Theorem rows_keep_their_identity :
  forall req context env db,
    let db' := snd (server req context env db) in
    extends profile_identity (profiles db) (profiles db')
    /\ extends session_identity (sessions db) (sessions db')
    /\ (is_delete req = false -> extends item_identity (items db) (items db'))
    /\ (is_delete req = true -> forall v, In v (items db') -> In v (items db)).
Proof.
  intros req context env db db'. unfold db'. clear db'.
  destruct context as [[a|]];
    [|destruct req; simpl; repeat split; auto using extends_same; discriminate].
  change {| locals_user := Some a |} with (signed_in a).
  destruct req; exec; cbn [is_delete].
  - case_insert; cbn [snd]; on_tables;
      repeat split; auto using extends_same, extends_snoc; discriminate.
  - case_select (updateLanguageProfile.where_ i a) (profiles db); cbn [snd]; on_tables;
      repeat split; auto using extends_same; try discriminate.
    apply extends_update. reflexivity.
  - cbn [snd]. repeat split; auto using extends_same; discriminate.
  - case_select (upsertVocabularyItem.where_profile i a) (profiles db); cbn [snd];
      [repeat split; auto using extends_same; discriminate|].
    destruct (truthy (upsertVocabularyItem.id i)).
    + case_select (upsertVocabularyItem.where_ i a) (items db); cbn [snd]; on_tables;
        repeat split; auto using extends_same; try discriminate.
      intros _. apply extends_update. reflexivity.
    + case_insert; cbn [snd]; on_tables;
        repeat split; auto using extends_same, extends_snoc; discriminate.
  - destruct (rowsAffected _ _ =? 0)%nat; cbn [snd]; on_tables;
      (repeat split; auto using extends_same; try discriminate;
       intros _ v Hv; unfold delete_where in Hv; apply filter_In in Hv; tauto).
  - cbn [snd]. repeat split; auto using extends_same; discriminate.
  - case_select (startPracticeSession.where_profile i a) (profiles db); cbn [snd];
      [repeat split; auto using extends_same; discriminate|].
    case_insert; cbn [snd]; on_tables;
      repeat split; auto using extends_same, extends_snoc; discriminate.
  - case_select (completePracticeSession.where_ i a) (sessions db); cbn [snd]; on_tables;
      repeat split; auto using extends_same; try discriminate.
    apply extends_update. reflexivity.
  - cbn [snd]. repeat split; auto using extends_same; discriminate.
Qed.

Lemma listMyLanguageProfiles_lists_witness :
  exists d,
    listMyLanguageProfiles.handler list_active (signed_in alice) sample_env sample_db
    = (Return d, sample_db)
    /\ listMyLanguageProfiles.items d
       = filter LanguageProfiles.isActive
           (owned LanguageProfiles.userId "alice" (profiles sample_db)).
Proof.
  destruct (listMyLanguageProfiles_lists list_active alice sample_env sample_db)
    as (d & Hd & _ & _ & everything & He & Hall & Hactive).
  exists d. split; [exact Hd|].
  rewrite (Hactive eq_refl), Hall. reflexivity.
Defined.


Lemma rows_keep_their_identity_witness :
  extends item_identity (items sample_db)
    (items (snd (server (UpsertVocabularyItem rename_v1) (signed_in alice) sample_env
                   sample_db))).
Proof.
  apply (proj1 (proj2 (proj2 (rows_keep_their_identity (UpsertVocabularyItem rename_v1)
                                (signed_in alice) sample_env sample_db)))).
  reflexivity.
Defined.
